(** * ContourManager: the transaction coordinator of the planar-curve editor

    A shallow embedding of [src/editor/curves/ContourManager.ts].  The
    coordinator is a database proxy: it forwards item operations to the
    geometry database and keeps two collaborators informed of curve
    changes, the planar-curve index ([PlanarCurveDatabase]) and the
    region manager ([RegionManager]).

    The coordinator's methods are [async]; every call they make is
    awaited before the next statement runs, so a method is embedded as a
    state transformer that may end in an exception.  The collaborators
    ([PlanarCurveDatabase], [RegionManager], and the database behind
    [DatabaseProxy] with its [hide], [unhide], [makeVisible],
    [unhideAll] and [replaceItem]) are not part of the sources: they are
    taken as operations on an abstract world, and every call made to
    them is appended to a trace, which is what the statements about "how
    many rebuilds" and "in which order" are about. *)

From Stdlib Require Import ZArith QArith Lia Permutation Ascii String.
From stdpp Require Import base option list gmap strings pretty.

Set Default Proof Using "Type".
Local Open Scope Z_scope.

(** ** Data model *)

(** [c3d.SimpleName] is a number handed out by the kernel. *)
Abbreviation SimpleName := Z.

(** A [c3d.Placement3D] is used by the coordinator only as a member of a
    [Set<c3d.Placement3D>], that is, up to object identity: the model
    keeps the identity. *)
Abbreviation Placement3D := Z.

(** A JavaScript [Set] iterates in insertion order and [add] of a member
    changes nothing. *)
Definition set_add {A} `{EqDecision A} (x : A) (s : list A) : list A :=
  if decide (x ∈ s) then s else s ++ [x].

Abbreviation CurveSet := (list Z).
Abbreviation PlacementSet := (list Z).

(** [class PointOnCurve]; the curve parameters are JavaScript numbers,
    of which the coordinator reads none. *)
Record PointOnCurve := {
  id : SimpleName;
  t : Q;
  tmin : Q;
  tmax : Q
}.

(** [class Joint] *)
Record Joint := {
  on1 : PointOnCurve;
  on2 : PointOnCurve
}.

(** [class Joints]: both ends are optional. *)
Record Joints := {
  start : option Joint;
  stop : option Joint
}.

(** [class CurveInfo] *)
Record CurveInfo := {
  touched : CurveSet;
  fragments : list SimpleName;
  joints : Joints;
  planarCurve : SimpleName;
  placement : Placement3D
}.

(** [type Transaction = { dirty, added, deleted }] *)
Record Transaction := {
  dirty : CurveSet;
  added : CurveSet;
  deleted : CurveSet
}.

(** [type State = { tag: 'none' } | { tag: 'transaction', transaction }] *)
Inductive StateTag := tag_none | tag_transaction.

Inductive State :=
| none
| in_transaction (transaction : Transaction).

Definition tag (s : State) : StateTag :=
  match s with
  | none => tag_none
  | in_transaction _ => tag_transaction
  end.

(** The view classes [visual.Solid], [visual.SpaceInstance] and
    [visual.PlaneInstance] extend [visual.Item]; [instanceof] reads the
    class, [simpleName] reads [userData.simpleName]. *)
Inductive ItemClass := Solid | SpaceInstance | PlaneInstance.

Record Item := {
  class : ItemClass;
  simpleName : SimpleName
}.

Definition instanceof (item : Item) (c : ItemClass) : bool :=
  match class item, c with
  | Solid, Solid | SpaceInstance, SpaceInstance | PlaneInstance, PlaneInstance => true
  | _, _ => false
  end.

(** Kernel models ([c3d.Item]) are opaque to the coordinator. *)
Inductive c3d_Item :=
| c3d_Solid (handle : Z)
| c3d_SpaceInstance (handle : Z)
| c3d_PlaneInstance (handle : Z).

(** [type Agent] of [DatabaseLike], which is not among the sources;
    ['user'] is the default of [addItem]. *)
Inductive Agent := user | automatic.

(** ** Exceptions and outcomes *)

Inductive Error :=
| InvalidState (found : StateTag)  (* [new Error("invalid state: " + tag)] *)
| TypeError                        (* a property read on [undefined] *)
| NotFound (name : SimpleName)     (* a failed lookup of the index *)
| Failure (code : Z).              (* anything else a callee throws *)

Inductive Outcome (A : Type) :=
| Return (a : A)
| Throw (e : Error).
Arguments Return {A} a.
Arguments Throw {A} e.

(** What [curves.lookup] can answer: a record, [undefined], or an
    exception. *)
Inductive Lookup :=
| Found (info : CurveInfo)
| Undefined
| Raises (e : Error).

(** [lookup] is overloaded on a curve and on a name. *)
Inductive LookupKey :=
| ByCurve (curve : Item)
| ByName (name : SimpleName).

(** ** The trace of calls to the collaborators *)

Inductive Event :=
| db_hide_called (item : Item)
| db_unhide_called (item : Item)
| db_makeVisible_called (item : Item) (value : bool)
| db_unhideAll_called
| db_addItem_called (model : c3d_Item) (agent : Agent)
| db_replaceItem_called (from : Item) (to : c3d_Item)
| db_removeItem_called (view : Item) (agent : option Agent)
| curves_add_called (curve : Item)
| curves_remove_called (curve : Item)
| curves_cascade_called (curve : Item)
| curves_commit_called (transaction : Transaction)
| regions_updatePlacement_called (p : Placement3D).

Definition is_rebuild (e : Event) : bool :=
  match e with regions_updatePlacement_called _ => true | _ => false end.

Section Coordinator.

(** [W] is everything the collaborators own (the geometry database, the
    curve index, the regions); [R] is what the database answers to
    [hide] and [unhide]. *)
Variables W R : Type.

(** The collaborators: [this.db], [this.curves] and [this.regions].  A
    call transforms the world and returns or throws; [lookup] only
    reads; [cascade] also updates the transaction it is handed. *)
Record Collaborators := {
  db_hide : Item -> W -> Outcome R * W;
  db_unhide : Item -> W -> Outcome R * W;
  db_makeVisible : Item -> bool -> W -> Outcome unit * W;
  db_unhideAll : W -> Outcome (list Item) * W;
  db_addItem : c3d_Item -> Agent -> W -> Outcome Item * W;
  db_replaceItem : Item -> c3d_Item -> W -> Outcome Item * W;
  db_removeItem : Item -> option Agent -> W -> Outcome unit * W;
  curves_add : Item -> W -> Outcome unit * W;
  curves_lookup : LookupKey -> W -> Lookup;
  curves_remove : Item -> W -> Outcome unit * W;
  curves_cascade : Item -> Transaction -> W -> Outcome unit * (Transaction * W);
  curves_commit : Transaction -> W -> Outcome unit * W;
  regions_updatePlacement : Placement3D -> W -> Outcome unit * W
}.

(** The coordinator: its private [state], the world, the trace. *)
Record ContourManager := {
  state : State;
  world : W;
  trace : list Event
}.

(** ** The monad of coordinator methods *)

Definition M (A : Type) : Type := ContourManager -> Outcome A * ContourManager.

Definition ret {A} (a : A) : M A := fun s => (Return a, s).

Definition throw {A} (e : Error) : M A := fun s => (Throw e, s).

Definition bind {A B} (m : M A) (k : A -> M B) : M B := fun s =>
  match m s with
  | (Return a, s') => k a s'
  | (Throw e, s') => (Throw e, s')
  end.

(** [try { body } finally { cleanup }] *)
Definition try_finally {A} (body : M A) (cleanup : M unit) : M A := fun s =>
  let (r, s1) := body s in
  match cleanup s1 with
  | (Return _, s2) => (r, s2)
  | (Throw e, s2) => (Throw e, s2)
  end.

(** [try { body } catch (e) { handler(e) }] *)
Definition try_catch {A} (body : M A) (handler : Error -> M A) : M A := fun s =>
  match body s with
  | (Return a, s') => (Return a, s')
  | (Throw e, s') => handler e s'
  end.

Definition get_state : M State := fun s => (Return (state s), s).

Definition set_state (st : State) : M unit := fun s =>
  (Return tt, {| state := st; world := world s; trace := trace s |}).

(** A call to a collaborator: logged, then run on the world. *)
Definition call {A} (ev : Event) (op : W -> Outcome A * W) : M A := fun s =>
  let (r, w) := op (world s) in
  (r, {| state := state s; world := w; trace := trace s ++ [ev] |}).

End Coordinator.

Arguments db_hide {W R} _ _ _.
Arguments db_unhide {W R} _ _ _.
Arguments db_makeVisible {W R} _ _ _ _.
Arguments db_unhideAll {W R} _ _.
Arguments db_addItem {W R} _ _ _ _.
Arguments db_replaceItem {W R} _ _ _ _.
Arguments db_removeItem {W R} _ _ _ _.
Arguments curves_add {W R} _ _ _.
Arguments curves_lookup {W R} _ _ _.
Arguments curves_remove {W R} _ _ _.
Arguments curves_cascade {W R} _ _ _ _.
Arguments curves_commit {W R} _ _ _.
Arguments regions_updatePlacement {W R} _ _ _.
Arguments state {W} _.
Arguments world {W} _.
Arguments trace {W} _.
Arguments ret {W A} a.
Arguments throw {W A} e.
Arguments bind {W A B} m k.
Arguments try_finally {W A} body cleanup.
Arguments try_catch {W A} body handler.
Arguments get_state {W}.
Arguments set_state {W} st.
Arguments call {W A} ev op.

Declare Scope cm_scope.
Delimit Scope cm_scope with cm.
Notation "x <- m ;; k" := (bind m (fun x => k))
  (at level 100, m at next level, right associativity) : cm_scope.
Notation "m ;;; k" := (bind m (fun _ => k))
  (at level 100, right associativity) : cm_scope.

(** ** The methods of [ContourManager] *)

Section Methods.

Context {W R : Type}.
Variable K : Collaborators W R.

Local Open Scope cm_scope.

(** [this.curves.lookup(key)], as the caller sees it: a record,
    [undefined], or the exception passing through. *)
Definition lookup (key : LookupKey) : M W (option CurveInfo) := fun s =>
  match curves_lookup K key (world s) with
  | Found info => (Return (Some info), s)
  | Undefined => (Return None, s)
  | Raises e => (Throw e, s)
  end.

(** [info.placement]: a [TypeError] when [info] is [undefined]. *)
Definition placement_of (info : option CurveInfo) : M W Placement3D :=
  match info with
  | Some i => ret (placement i)
  | None => throw TypeError
  end.

(** [this.state.transaction.added.add(curve.simpleName)] *)
Definition added_add (name : SimpleName) (transaction : Transaction) : Transaction :=
  {| dirty := dirty transaction;
     added := set_add name (added transaction);
     deleted := deleted transaction |}.

(** [this.curves.cascade(curve, this.state.transaction)]: the index
    updates the transaction object the state holds. *)
Definition cascade (curve : Item) (transaction : Transaction) : M W unit := fun s =>
  let '(r, (transaction', w)) := curves_cascade K curve transaction (world s) in
  (r, {| state := in_transaction transaction';
         world := w;
         trace := trace s ++ [curves_cascade_called curve] |}).

Definition addCurve (curve : Item) : M W unit :=
  st <- get_state;;
  match st with
  | none =>
      call (curves_add_called curve) (curves_add K curve);;;
      info <- lookup (ByCurve curve);;
      p <- placement_of info;;
      call (regions_updatePlacement_called p) (regions_updatePlacement K p)
  | in_transaction transaction =>
      set_state (in_transaction (added_add (simpleName curve) transaction))
  end.

Definition removeCurve (curve : Item) : M W unit :=
  st <- get_state;;
  match st with
  | none =>
      info <- lookup (ByCurve curve);;
      call (curves_remove_called curve) (curves_remove K curve);;;
      p <- placement_of info;;
      call (regions_updatePlacement_called p) (regions_updatePlacement K p)
  | in_transaction transaction =>
      cascade curve transaction
  end.

(** [for (const c of dirty) { const info = this.curves.lookup(c);
    if (info !== undefined) placements.add(info.placement); }] *)
Fixpoint placementsAffectedByTransaction (dirty : CurveSet) (placements : PlacementSet)
  : M W PlacementSet :=
  match dirty with
  | [] => ret placements
  | c :: rest =>
      info <- lookup (ByName c);;
      placementsAffectedByTransaction rest
        (match info with
         | Some i => set_add (placement i) placements
         | None => placements
         end)
  end.

(** [for (const p of placements) await this.regions.updatePlacement(p)] *)
Fixpoint updatePlacements (placements : PlacementSet) : M W unit :=
  match placements with
  | [] => ret tt
  | p :: rest =>
      call (regions_updatePlacement_called p) (regions_updatePlacement K p);;;
      updatePlacements rest
  end.

Definition empty_transaction : Transaction :=
  {| dirty := []; added := []; deleted := [] |}.

(** [dirty.size > 0 || added.size > 0 || deleted.size > 0] *)
Definition nonempty (transaction : Transaction) : bool :=
  (0 <? length (dirty transaction))%nat
  || (0 <? length (added transaction))%nat
  || (0 <? length (deleted transaction))%nat.

(** The local [transaction] of the method is the object the state
    holds: the field [state] is private and is assigned only by
    [transaction] itself, so what the body accumulated is read back from
    the state.  (Were the state no longer a transaction, the local would
    still be the object created at the start.) *)
Definition the_transaction (created : Transaction) : M W Transaction :=
  st <- get_state;;
  match st with
  | in_transaction transaction => ret transaction
  | none => ret created
  end.

(** The part of [transaction] after [await f()], inside the [try]. *)
Definition commit_and_rebuild (transaction : Transaction) : M W unit :=
  placements <- placementsAffectedByTransaction (dirty transaction) [];;
  placements <- placementsAffectedByTransaction (deleted transaction) placements;;
  call (curves_commit_called transaction) (curves_commit K transaction);;;
  placements <- placementsAffectedByTransaction (added transaction) placements;;
  if nonempty transaction then updatePlacements placements else ret tt.

Definition transaction (f : M W unit) : M W unit :=
  st <- get_state;;
  match st with
  | none =>
      set_state (in_transaction empty_transaction);;;
      try_finally
        (f;;;
         transaction <- the_transaction empty_transaction;;
         commit_and_rebuild transaction)
        (set_state none)
  | in_transaction _ => throw (InvalidState (tag st))
  end.

(** *** Item operations *)

Definition hide (item : Item) : M W R :=
  result <- call (db_hide_called item) (db_hide K item);;
  (if instanceof item SpaceInstance then removeCurve item else ret tt);;;
  ret result.

Definition unhide (item : Item) : M W R :=
  result <- call (db_unhide_called item) (db_unhide K item);;
  (if instanceof item SpaceInstance then addCurve item else ret tt);;;
  ret result.

Definition makeVisible (item : Item) (value : bool) : M W unit :=
  result <- call (db_makeVisible_called item value) (db_makeVisible K item value);;
  (if instanceof item SpaceInstance
   then (if value then addCurve item else removeCurve item)
   else ret tt);;;
  ret result.

(** [agent: Agent = 'user'] *)
Definition addItem (model : c3d_Item) (agent : option Agent) : M W Item :=
  let agent := default user agent in
  result <- call (db_addItem_called model agent) (db_addItem K model agent);;
  (if instanceof result SpaceInstance then addCurve result else ret tt);;;
  ret result.

(** The implementation signature is [replaceItem(from, to)]: an agent
    passed by the caller is dropped.  The cast of [result] is not
    checked at run time. *)
Definition replaceItem (from : Item) (to : c3d_Item) : M W Item :=
  result <- call (db_replaceItem_called from to) (db_replaceItem K from to);;
  (if instanceof from SpaceInstance
   then (removeCurve from;;; addCurve result)
   else ret tt);;;
  ret result.

Definition removeItem (view : Item) (agent : option Agent) : M W unit :=
  result <- call (db_removeItem_called view agent) (db_removeItem K view agent);;
  (if instanceof view SpaceInstance then removeCurve view else ret tt);;;
  ret result.

(** *** [unhideAll]: calls that are not awaited one by one

    [unhideAll] starts one [addCurve] per unhidden curve and awaits them
    together with [Promise.all].  An [async] call runs until its first
    [await] and leaves a promise; the started calls then resume in the
    order they were started, one [await] at a time.  A promise records
    where its call is suspended and what the awaited call settled to. *)
Inductive Promise :=
| settled (r : Outcome unit)
| awaiting_add (curve : Item) (r : Outcome unit)
| awaiting_updatePlacement (r : Outcome unit).

Definition is_awaiting_add (p : Promise) : Prop :=
  match p with awaiting_add _ _ => True | _ => False end.

Definition is_awaiting_updatePlacement (p : Promise) : Prop :=
  match p with awaiting_updatePlacement _ => True | _ => False end.

(** [this.addCurve(item)] up to its first [await]. *)
Definition addCurve_start (curve : Item) (s : ContourManager W) : Promise * ContourManager W :=
  match state s with
  | none =>
      let (r, s') := call (curves_add_called curve) (curves_add K curve) s in
      (awaiting_add curve r, s')
  | in_transaction transaction =>
      let (r, s') := set_state (in_transaction (added_add (simpleName curve) transaction)) s in
      (settled r, s')
  end.

(** A suspended [addCurve] resumed until its next [await] or its end. *)
Definition addCurve_resume (p : Promise) (s : ContourManager W) : Promise * ContourManager W :=
  match p with
  | settled r => (settled r, s)
  | awaiting_add curve (Throw e) => (settled (Throw e), s)
  | awaiting_add curve (Return _) =>
      match (info <- lookup (ByCurve curve);; placement_of info) s with
      | (Throw e, s') => (settled (Throw e), s')
      | (Return p, s') =>
          let (r, s'') :=
            call (regions_updatePlacement_called p) (regions_updatePlacement K p) s' in
          (awaiting_updatePlacement r, s'')
      end
  | awaiting_updatePlacement r => (settled r, s)
  end.

Fixpoint start_all (curves : list Item) (s : ContourManager W)
  : list Promise * ContourManager W :=
  match curves with
  | [] => ([], s)
  | curve :: rest =>
      let (p, s1) := addCurve_start curve s in
      let (ps, s2) := start_all rest s1 in
      (p :: ps, s2)
  end.

Fixpoint resume_all (promises : list Promise) (s : ContourManager W)
  : list Promise * ContourManager W :=
  match promises with
  | [] => ([], s)
  | p :: rest =>
      let (p', s1) := addCurve_resume p s in
      let (ps, s2) := resume_all rest s1 in
      (p' :: ps, s2)
  end.

(** The first promise of the list that is rejected, if any. *)
Fixpoint rejection (promises : list Promise) : option Error :=
  match promises with
  | [] => None
  | settled (Throw e) :: _ => Some e
  | _ :: rest => rejection rest
  end.

(** A second account of [unhideAll] called idle, to compare [unhideAll]
    with: one [addCurve] for every curve, none of which fails.  First
    every curve is registered with the index, one [curves.add] after the
    other; *)
Fixpoint add_each (curves : list Item) (w : W) : option W :=
  match curves with
  | [] => Some w
  | curve :: rest =>
      match curves_add K curve w with
      | (Return _, w') => add_each rest w'
      | (Throw _, _) => None
      end
  end.

(** then every curve has its record looked up and the placement of that
    record rebuilt, one [updatePlacement] after the other.  The answer
    is the placements rebuilt, in order, and the world they leave. *)
Fixpoint rebuild_each (curves : list Item) (w : W) : option (list Placement3D * W) :=
  match curves with
  | [] => Some ([], w)
  | curve :: rest =>
      match curves_lookup K (ByCurve curve) w with
      | Found info =>
          match regions_updatePlacement K (placement info) w with
          | (Return _, w') =>
              match rebuild_each rest w' with
              | Some (ps, w'') => Some (placement info :: ps, w'')
              | None => None
              end
          | (Throw _, _) => None
          end
      | _ => None
      end
  end.

(** [await Promise.all(promises)] rejects with the earliest rejection;
    the other calls run on all the same. *)
Definition unhideAll : M W (list Item) :=
  unhidden <- call db_unhideAll_called (db_unhideAll K);;
  fun s =>
    let curves := filter (fun item => instanceof item SpaceInstance = true) unhidden in
    let (started, s0) := start_all curves s in
    let (resumed, s1) := resume_all started s0 in
    let (finished, s2) := resume_all resumed s1 in
    match rejection started, rejection resumed, rejection finished with
    | Some e, _, _ | None, Some e, _ | None, None, Some e => (Throw e, s2)
    | None, None, None => (Return unhidden, s2)
    end.

End Methods.

(** ** The planar-curve index of the specification

    [PlanarCurveDatabase] is not among the sources.  Its table is a
    finite map from curve names to records. *)

(** Modelled from the spec: [lookup], which is not among the sources.
    "lookup(curveId) -> CurveRecord | NotFound": "lookup on an unknown
    curve id signals NotFound", whether the coordinator hands over the
    curve or its name.  This index never answers [undefined]. *)
Definition index_lookup (key : LookupKey) (index : gmap Z CurveInfo) : Lookup :=
  match key with
  | ByCurve curve =>
      match index !! simpleName curve with
      | Some info => Found info
      | None => Raises (NotFound (simpleName curve))
      end
  | ByName name =>
      match index !! name with
      | Some info => Found info
      | None => Raises (NotFound name)
      end
  end.

(** Modelled from the spec: [remove], which is not among the sources.
    "remove(curveId): immediate removal outside a transaction". *)
Definition index_remove (curve : Item) (index : gmap Z CurveInfo)
  : Outcome unit * gmap Z CurveInfo :=
  (Return tt, delete (simpleName curve) index).

(** The other curve a joint of curve [c] refers to. *)
Definition other_curve (c : SimpleName) (j : Joint) : SimpleName :=
  if decide (id (on1 j) = c) then id (on2 j) else id (on1 j).

(** The joints of a record, start then stop, those present. *)
Definition joints_present (info : CurveInfo) : list Joint :=
  option_list (start (joints info)) ++ option_list (stop (joints info)).

Definition neighbours (c : SimpleName) (info : CurveInfo) : list SimpleName :=
  other_curve c <$> joints_present info.

(** "if c'.id is not already in transaction.deleted, add c'.id to
    transaction.dirty" *)
Definition dirty_add (deleted : CurveSet) (dirty : CurveSet) (c' : SimpleName) : CurveSet :=
  if decide (c' ∈ deleted) then dirty else set_add c' dirty.

(** Modelled from the spec: [cascade], which is not among the sources.
    "add c.id to transaction.deleted; for each joint j of c (start and
    stop, if present), identify the other curve c' referenced by j; if
    c'.id is not already in transaction.deleted, add c'.id to
    transaction.dirty"; one hop per call; and "a curve present in both
    deleted and dirty is resolved as deleted taking precedence": a curve
    that is deleted does not stay dirty. *)
Definition cascaded (c : SimpleName) (info : CurveInfo) (transaction : Transaction)
  : Transaction :=
  let deleted' := set_add c (deleted transaction) in
  {| dirty := filter (fun c' => c' ∉ deleted')
                (foldl (dirty_add deleted') (dirty transaction) (neighbours c info));
     added := added transaction;
     deleted := deleted' |}.

(** The joints are those of the record of the curve, whose lookup
    "signals NotFound" when the curve is unknown. *)
Definition index_cascade (curve : Item) (transaction : Transaction) (index : gmap Z CurveInfo)
  : Outcome unit * (Transaction * gmap Z CurveInfo) :=
  match index !! simpleName curve with
  | None => (Throw (NotFound (simpleName curve)), (transaction, index))
  | Some info => (Return tt, (cascaded (simpleName curve) info transaction, index))
  end.

(** Any collaborators over an index, with [lookup], [remove] and
    [cascade] those of the specification. *)
Definition with_index {R} (K : Collaborators (gmap Z CurveInfo) R)
  : Collaborators (gmap Z CurveInfo) R :=
  {| db_hide := db_hide K;
     db_unhide := db_unhide K;
     db_makeVisible := db_makeVisible K;
     db_unhideAll := db_unhideAll K;
     db_addItem := db_addItem K;
     db_replaceItem := db_replaceItem K;
     db_removeItem := db_removeItem K;
     curves_add := curves_add K;
     curves_lookup := index_lookup;
     curves_remove := index_remove;
     curves_cascade := index_cascade;
     curves_commit := curves_commit K;
     regions_updatePlacement := regions_updatePlacement K |}.

(** ** A small executable instance

    Used to run the coordinator on concrete inputs.  The geometry is an
    oracle: [planes] gives the supporting plane of each planar curve (a
    curve without one gets no record), and no joints are computed.  The
    database shows a model as a view of the same class. *)

Definition plain_info (name : SimpleName) (p : Placement3D) : CurveInfo :=
  {| touched := [];
     fragments := [];
     joints := {| start := None; stop := None |};
     planarCurve := name;
     placement := p |}.

Definition view_of (model : c3d_Item) : Item :=
  match model with
  | c3d_Solid h => {| class := Solid; simpleName := h |}
  | c3d_SpaceInstance h => {| class := SpaceInstance; simpleName := h |}
  | c3d_PlaneInstance h => {| class := PlaneInstance; simpleName := h |}
  end.

Definition sample_register (planes : gmap Z Z) (name : SimpleName) (index : gmap Z CurveInfo)
  : gmap Z CurveInfo :=
  match planes !! name with
  | Some p => <[name := plain_info name p]> index
  | None => index
  end.

Definition sample (planes : gmap Z Z) (hidden : list Item)
  : Collaborators (gmap Z CurveInfo) unit :=
  with_index
    {| db_hide := fun _ w => (Return tt, w);
       db_unhide := fun _ w => (Return tt, w);
       db_makeVisible := fun _ _ w => (Return tt, w);
       db_unhideAll := fun w => (Return hidden, w);
       db_addItem := fun model _ w => (Return (view_of model), w);
       db_replaceItem := fun _ to w => (Return (view_of to), w);
       db_removeItem := fun _ _ w => (Return tt, w);
       curves_add := fun curve w => (Return tt, sample_register planes (simpleName curve) w);
       curves_lookup := index_lookup;
       curves_remove := index_remove;
       curves_cascade := index_cascade;
       curves_commit := fun transaction w =>
         (Return tt,
          foldr (sample_register planes)
                (foldr delete w (deleted transaction))
                (added transaction));
       regions_updatePlacement := fun _ w => (Return tt, w) |}.

Definition curve (name : SimpleName) : Item :=
  {| class := SpaceInstance; simpleName := name |}.

Definition idle {W} (w : W) : ContourManager W :=
  {| state := none; world := w; trace := [] |}.

(** The coordinator as [transaction] leaves it for the body, and as the
    [finally] leaves it for the caller. *)
Definition entered {W} (s : ContourManager W) : ContourManager W :=
  {| state := in_transaction empty_transaction; world := world s; trace := trace s |}.

Definition left {W} (s : ContourManager W) : ContourManager W :=
  {| state := none; world := world s; trace := trace s |}.


(** ** The routing of item operations, as the specification words it

    "pass-throughs to an underlying item store [that] must additionally
    route curve-typed items through addCurve/removeCurve": an item
    operation is the database operation, then the routes of the curve
    it touched, then the result of the database. *)

Inductive Route :=
| through_addCurve (curve : Item)
| through_removeCurve (curve : Item).

Section Routing.

Context {W R : Type}.
Variable K : Collaborators W R.

Local Open Scope cm_scope.

Fixpoint follow (routes : list Route) : M W unit :=
  match routes with
  | [] => ret tt
  | through_addCurve curve :: rest => addCurve K curve;;; follow rest
  | through_removeCurve curve :: rest => removeCurve K curve;;; follow rest
  end.

Definition routed {A} (database_operation : M W A) (routes : A -> list Route) : M W A :=
  result <- database_operation;;
  follow (routes result);;;
  ret result.

(** The routes of an operation apply to curve-typed items only. *)
Definition when_curve (item : Item) (routes : list Route) : list Route :=
  if instanceof item SpaceInstance then routes else [].

End Routing.

(** ** Bodies made of [addCurve] and [removeCurve] calls *)

Inductive Op :=
| add (curve : Item)
| remove (curve : Item).

Section Bodies.

Context {W R : Type}.
Variable K : Collaborators W R.

Local Open Scope cm_scope.

Definition perform (op : Op) : M W unit :=
  match op with
  | add curve => addCurve K curve
  | remove curve => removeCurve K curve
  end.

(** [await] each call in turn. *)
Fixpoint body (ops : list Op) : M W unit :=
  match ops with
  | [] => ret tt
  | op :: rest => perform op;;; body rest
  end.

End Bodies.

(** What a call does to the transaction over the index of the
    specification; a removal of an unknown curve throws before it
    changes anything. *)
Definition apply_op (index : gmap Z CurveInfo) (op : Op) (transaction : Transaction)
  : Transaction :=
  match op with
  | add curve => added_add (simpleName curve) transaction
  | remove curve =>
      match index !! simpleName curve with
      | Some info => cascaded (simpleName curve) info transaction
      | None => transaction
      end
  end.

Definition pairwise_disjoint (transaction : Transaction) : Prop :=
  (added transaction ## deleted transaction)
  /\ (added transaction ## dirty transaction)
  /\ (deleted transaction ## dirty transaction).

(** A call that keeps [added] apart from the other two sets: it does
    not add a curve that is deleted or dirty, nor remove a curve that is
    added or that is jointed to an added curve. *)
Definition separate (index : gmap Z CurveInfo) (transaction : Transaction) (op : Op) : Prop :=
  match op with
  | add curve =>
      (simpleName curve ∉ deleted transaction) /\ (simpleName curve ∉ dirty transaction)
  | remove curve =>
      (simpleName curve ∉ added transaction)
      /\ forall info, index !! simpleName curve = Some info ->
           forall c', c' ∈ neighbours (simpleName curve) info -> c' ∉ added transaction
  end.

Fixpoint all_separate (index : gmap Z CurveInfo) (transaction : Transaction) (ops : list Op)
  : Prop :=
  match ops with
  | [] => True
  | op :: rest =>
      separate index transaction op
      /\ all_separate index (apply_op index op transaction) rest
  end.

(** Two curves of the index are jointed when each has a joint that
    refers to the other (invariant I1 of the specification). *)
Definition jointed (index : gmap Z CurveInfo) (x y : SimpleName) : Prop :=
  exists ix iy,
    index !! x = Some ix /\ index !! y = Some iy
    /\ y ∈ neighbours x ix /\ x ∈ neighbours y iy.

(** No joint of the curves leads outside of them. *)
Definition joints_within (index : gmap Z CurveInfo) (names : list SimpleName) : Prop :=
  forall x info, x ∈ names -> index !! x = Some info ->
    forall y, y ∈ neighbours x info -> y ∈ names.

(** Every joint of the curves leads to a curve of the index, as
    invariant I1 has it: the curve at the other end records the joint
    too. *)
Definition joints_known (index : gmap Z CurveInfo) (names : list SimpleName) : Prop :=
  forall x info, x ∈ names -> index !! x = Some info ->
    forall y, y ∈ neighbours x info -> is_Some (index !! y).

(** The curves that have a joint to [x], among [names]. *)
Definition jointed_to (index : gmap Z CurveInfo) (names : list SimpleName) (x : SimpleName)
  : Prop :=
  exists y info, y ∈ names /\ index !! y = Some info /\ x ∈ neighbours y info.

(** A record with the given joints. *)
Definition jointed_info (name : SimpleName) (p : Placement3D) (start stop : option SimpleName)
  : CurveInfo :=
  let joint other :=
    {| on1 := {| id := name; t := 0; tmin := 0; tmax := 1 |};
       on2 := {| id := other; t := 0; tmin := 0; tmax := 1 |} |} in
  {| touched := [];
     fragments := [];
     joints := {| start := joint <$> start; stop := joint <$> stop |};
     planarCurve := name;
     placement := p |}.

(** Three curves of one plane in a chain: 1 - 2 - 3. *)
Definition chain : gmap Z CurveInfo :=
  list_to_map [(1, jointed_info 1 0 None (Some 2));
               (2, jointed_info 2 0 (Some 1) (Some 3));
               (3, jointed_info 3 0 (Some 2) None)].

(** Four curves of one plane in a chain: 0 - 1 - 2 - 3. *)
Definition chain4 : gmap Z CurveInfo :=
  list_to_map [(0, jointed_info 0 0 None (Some 1));
               (1, jointed_info 1 0 (Some 0) (Some 2));
               (2, jointed_info 2 0 (Some 1) (Some 3));
               (3, jointed_info 3 0 (Some 2) None)].

(** The chain 1 - 2 - 3 with a joint of the curve 3 that leads to a
    curve the index does not know, 7. *)
Definition dangling : gmap Z CurveInfo :=
  list_to_map [(1, jointed_info 1 0 None (Some 2));
               (2, jointed_info 2 0 (Some 1) (Some 3));
               (3, jointed_info 3 0 (Some 2) (Some 7))].

Definition planes5 : gmap Z Z := list_to_map [(1, 0); (2, 0); (3, 0); (4, 0); (5, 0)].

(** The instance with five planar curves on plane 0 and nothing hidden. *)
Definition sample5 : Collaborators (gmap Z CurveInfo) unit := sample planes5 [].

(** ** [rebuild] and the placements a transaction rebuilds *)

Section Rebuild.

Context {W R : Type}.
Variable K : Collaborators W R.

Local Open Scope cm_scope.

(** [this.db.find(visual.SpaceInstance)] only reads the database; the
    model takes the views of what it answers. *)
Variable db_find : W -> list Item.

(** [async () => { for (const curve of curves) this.addCurve(curve.view) }]:
    the calls are started and not awaited. *)
Definition rebuild_body (curves : list Item) : M W unit := fun s =>
  let (_, s') := start_all K curves s in (Return tt, s').

Definition rebuild : M W unit := fun s =>
  let curves := db_find (world s) in
  transaction K (rebuild_body curves) s.

(** The placement set after the loop of [placementsAffectedByTransaction]
    over [ids], when no lookup throws: the placements of the records
    found join the set in the order of the names. *)
Definition affected (w : W) (ids : CurveSet) (placements : PlacementSet) : PlacementSet :=
  foldl (fun ps c =>
           match curves_lookup K (ByName c) w with
           | Found info => set_add (placement info) ps
           | _ => ps
           end)
        placements ids.

(** The names [added] holds after [addCurve] of each curve in turn. *)
Definition added_all (curves : list Item) (transaction : Transaction) : Transaction :=
  foldl (fun tx curve => added_add (simpleName curve) tx) transaction curves.

End Rebuild.

(** * GeometryDatabase

    A shallow embedding of [src/GeometryDatabase.ts].  The kernel
    ([c3d]), the scene graph ([THREE]) and the signals are outside the
    sources: the kernel is a function [CreateMesh] that answers a mesh
    or throws, a view is what the builders were told (its class and its
    levels of detail, materials left out), the scene is the list of its
    children, and a dispatched signal is appended to a log. *)

Module GeometryDatabase.

(** [c3d.SpaceType], as far as [IsA()] is looked at. *)
Inductive SpaceType :=
| st_SpaceInstance
| st_PlaneInstance
| st_Solid
| st_other (code : Z).

(** A kernel item ([c3d.Item]). *)
Record c3dItem := {
  IsA : SpaceType;
  handle : Z
}.

(** A kernel mesh, as far as it is read: [GetEdges()], [GetEdges(true)],
    [GetBuffers()]; edges and grids are opaque. *)
Record Mesh := {
  GetEdges : list Z;
  GetEdges_true : list Z;
  GetBuffers : list Z
}.

(** What [addLOD] is handed: a [Curve3D] built of one segment per edge,
    a [Region] built of a grid, or the edges and the faces of a solid. *)
Inductive Level :=
| Curve3D_of (segments : list Z)
| Region_of (grid : Z)
| Solid_of (edges : list Z) (faces : list Z).

(** A view ([visual.Item]): a JavaScript object, with its identity
    [ref], its class, [userData.simpleName] (undefined until it is set)
    and the levels added to its [lod] with their distances. *)
Record View := {
  ref : nat;
  view_class : ItemClass;
  userData_simpleName : option Z;
  levels : list (Level * Q)
}.

(** [===] on views. *)
Definition same (a b : View) : bool := Nat.eqb (ref a) (ref b).

Inductive Signal :=
| objectAdded (v : View)
| objectRemoved (v : View)
| sceneGraphChanged.

Inductive DbError :=
| type_not_yet_supported                                (* ["type not yet supported"] *)
| missing_from_geometry_model (simpleName : option Z)  (* ["invalid precondition: object ... missing from geometry model"] *)
| Invalid_precondition                                  (* ["Invalid precondition"] *)
| kernel_failure (code : Z).                            (* what the kernel throws *)

Inductive Result (A : Type) :=
| Ok (a : A)
| Err (e : DbError).
Arguments Ok {A} a.
Arguments Err {A} e.

(** [GeometryMemento] *)
Record GeometryMemento := {
  memento_drawModel : list View;
  memento_geometryModel : gmap Z c3dItem;
  memento_scene : list View
}.

(** The database, with the module variable [counter], the number of
    objects constructed so far (the next [ref]) and the log of the
    signals. *)
Record t := {
  counter : Z;
  geometryModel : gmap Z c3dItem;
  drawModel : list View;
  scene : list View;
  allocated : nat;
  signals : list Signal
}.

(** [counter++] on a JavaScript number that counts up from 0: exact up
    to 2^53, where [counter + 1] rounds back to [counter]. *)
Definition increment (n : Z) : Z := if n <? 2 ^ 53 then n + 1 else n.

(** [Set.add], [Set.delete] *)
Definition Set_add (v : View) (l : list View) : list View :=
  if existsb (same v) l then l else l ++ [v].

Definition Set_delete (v : View) (l : list View) : list View :=
  filter (fun x => same v x = false) l.

(** [Object3D.remove] takes the object out of the children and
    [Object3D.add] appends it, after taking it out of its parent. *)
Definition Object3D_remove (v : View) (children : list View) : list View :=
  filter (fun x => same v x = false) children.

Definition Object3D_add (v : View) (children : list View) : list View :=
  Object3D_remove v children ++ [v].

(** [const precision_distance = [[0.1, 50], [0.001, 5], [0.0001, 0.5]]] *)
Definition precision_distance : list (Q * Q) :=
  [(1 # 10, 50); (1 # 1000, 5); (1 # 10000, 1 # 2)]%Q.

Inductive Klass :=
| visual_Item
| visual_class (c : ItemClass).

Definition instance_of (v : View) (klass : Klass) : bool :=
  match klass, view_class v with
  | visual_Item, _ => true
  | visual_class Solid, Solid
  | visual_class SpaceInstance, SpaceInstance
  | visual_class PlaneInstance, PlaneInstance => true
  | _, _ => false
  end.

Section Kernel.

(** [obj.CreateMesh_async(stepData, note)] with step [sag], cast to a
    mesh. *)
Variable CreateMesh : c3dItem -> Q -> Result Mesh.

(** [object2mesh(builder, obj, sag, distance)]: the builder is the view
    under construction. *)
Definition object2mesh (builder : View) (obj : c3dItem) (sag distance : Q) : Result View :=
  match CreateMesh obj sag with
  | Err e => Err e
  | Ok mesh =>
      let addLOD level :=
        {| ref := ref builder;
           view_class := view_class builder;
           userData_simpleName := userData_simpleName builder;
           levels := levels builder ++ [(level, distance)] |} in
      match IsA obj with
      | st_SpaceInstance => Ok (addLOD (Curve3D_of (GetEdges mesh)))
      | st_PlaneInstance =>
          match GetBuffers mesh with
          | [grid] => Ok (addLOD (Region_of grid))
          | _ => Err Invalid_precondition
          end
      | st_Solid => Ok (addLOD (Solid_of (GetEdges_true mesh) (GetBuffers mesh)))
      | st_other _ => Err type_not_yet_supported
      end
  end.

(** [for (const [precision, distance] of precision_distance)
    await this.object2mesh(builder, obj, precision, distance)] *)
Fixpoint object2mesh_each (builder : View) (obj : c3dItem) (table : list (Q * Q))
  : Result View :=
  match table with
  | [] => Ok builder
  | (precision, distance) :: rest =>
      match object2mesh builder obj precision distance with
      | Err e => Err e
      | Ok builder' => object2mesh_each builder' obj rest
      end
  end.

(** [new visual.SpaceInstanceBuilder()] and the like construct the view. *)
Definition new_builder (c : ItemClass) (db : t) : View * t :=
  ({| ref := allocated db; view_class := c; userData_simpleName := None; levels := [] |},
   {| counter := counter db; geometryModel := geometryModel db; drawModel := drawModel db;
      scene := scene db; allocated := S (allocated db); signals := signals db |}).

Definition meshes (obj : c3dItem) (table : list (Q * Q)) (db : t) : Result View * t :=
  match
    match IsA obj with
    | st_SpaceInstance => Some SpaceInstance
    | st_PlaneInstance => Some PlaneInstance
    | st_Solid => Some Solid
    | st_other _ => None
    end
  with
  | None => (Err type_not_yet_supported, db)
  | Some c =>
      let (builder, db') := new_builder c db in
      (object2mesh_each builder obj table, db')
  end.

Definition addItem (model : c3dItem) (db : t) : Result View * t :=
  let current := counter db in
  let db1 :=
    {| counter := increment (counter db);
       geometryModel := <[current := model]> (geometryModel db);
       drawModel := drawModel db; scene := scene db;
       allocated := allocated db; signals := signals db |} in
  match meshes model precision_distance db1 with
  | (Err e, db2) => (Err e, db2)
  | (Ok built, db2) =>
      let visual :=
        {| ref := ref built; view_class := view_class built;
           userData_simpleName := Some current; levels := levels built |} in
      (Ok visual,
       {| counter := counter db2;
          geometryModel := geometryModel db2;
          drawModel := Set_add visual (drawModel db2);
          scene := Object3D_add visual (scene db2);
          allocated := allocated db2;
          signals := signals db2 ++ [objectAdded visual; sceneGraphChanged] |})
  end.

(** [addTemporaryItem] answers an object with [cancel] and [commit],
    closed over the mesh and the kernel object; the model answers the
    mesh. *)
Definition addTemporaryItem (object : c3dItem) (db : t) : Result View * t :=
  match meshes object [(5 # 1000, 1)%Q] db with
  | (Err e, db1) => (Err e, db1)
  | (Ok mesh, db1) =>
      (Ok mesh,
       {| counter := counter db1; geometryModel := geometryModel db1;
          drawModel := drawModel db1;
          scene := Object3D_add mesh (scene db1);
          allocated := allocated db1; signals := signals db1 |})
  end.

Definition scene_remove (mesh : View) (db : t) : t :=
  {| counter := counter db; geometryModel := geometryModel db; drawModel := drawModel db;
     scene := Object3D_remove mesh (scene db);
     allocated := allocated db; signals := signals db |}.

(** [cancel() { mesh.dispose(); that.scene.remove(mesh) }] *)
Definition cancel (mesh : View) (db : t) : t := scene_remove mesh db.

(** [commit() { that.scene.remove(mesh); return that.addItem(object) }] *)
Definition commit (mesh : View) (object : c3dItem) (db : t) : Result View * t :=
  addItem object (scene_remove mesh db).

End Kernel.

(** [geometryModel.delete(object.userData.simpleName)] *)
Definition geometryModel_delete (name : option Z) (m : gmap Z c3dItem) : gmap Z c3dItem :=
  match name with
  | Some n => delete n m
  | None => m
  end.

Definition removeItem (object : View) (db : t) : t :=
  {| counter := counter db;
     geometryModel := geometryModel_delete (userData_simpleName object) (geometryModel db);
     drawModel := Set_delete object (drawModel db);
     scene := Object3D_remove object (scene db);
     allocated := allocated db;
     signals := signals db ++ [objectRemoved object; sceneGraphChanged] |}.

Definition lookupItem (object : View) (db : t) : Result c3dItem :=
  match userData_simpleName object with
  | None => Err (missing_from_geometry_model None)
  | Some n =>
      match geometryModel db !! n with
      | Some item => Ok item
      | None => Err (missing_from_geometry_model (Some n))
      end
  end.

Definition lookup (object : View) (db : t) : Result c3dItem := lookupItem object db.

Definition find (klass : Klass) (db : t) : list View :=
  filter (fun item => instance_of item klass = true) (drawModel db).

(** [this.drawModel.clear(); for (const v of m.drawModel) this.drawModel.add(v)],
    then the scene and the geometry model are those of the memento. *)
Definition restoreFromMemento (m : GeometryMemento) (db : t) : t :=
  {| counter := counter db;
     geometryModel := memento_geometryModel m;
     drawModel := foldl (fun l v => Set_add v l) [] (memento_drawModel m);
     scene := memento_scene m;
     allocated := allocated db;
     signals := signals db |}.

(** The database of a new editor. *)
Definition empty : t :=
  {| counter := 0; geometryModel := ∅; drawModel := []; scene := [];
     allocated := 0; signals := [] |}.

(** What the operations keep: the counter is a count below 2^53, the
    names of the geometry model are names already handed out, and the
    objects of the database are objects already constructed. *)
Definition well_formed (db : t) : Prop :=
  0 <= counter db <= 2 ^ 53
  /\ (forall n, is_Some (geometryModel db !! n) -> n < counter db)
  /\ (forall v, v ∈ drawModel db ++ scene db -> (ref v < allocated db)%nat).

(** A memento whose names and objects are known to the database, as one
    saved earlier is. *)
Definition restorable (m : GeometryMemento) (db : t) : Prop :=
  (forall n, is_Some (memento_geometryModel m !! n) -> n < counter db)
  /\ (forall v, v ∈ memento_drawModel m ++ memento_scene m -> (ref v < allocated db)%nat).

(** One operation of a user of the database. *)
Inductive step (CreateMesh : c3dItem -> Q -> Result Mesh) : t -> t -> Prop :=
| step_addItem model db :
    step CreateMesh db (snd (addItem CreateMesh model db))
| step_addTemporaryItem object db :
    step CreateMesh db (snd (addTemporaryItem CreateMesh object db))
| step_cancel mesh db :
    step CreateMesh db (cancel mesh db)
| step_commit mesh object db :
    step CreateMesh db (snd (commit CreateMesh mesh object db))
| step_removeItem object db :
    step CreateMesh db (removeItem object db)
| step_restoreFromMemento m db :
    step CreateMesh db (restoreFromMemento m db).

(** A kernel for examples: a curve has two edges, a region one grid, a
    solid four edges and two grids; item 13 cannot be meshed and region
    14 comes in two grids. *)
Definition sample_kernel (obj : c3dItem) (sag : Q) : Result Mesh :=
  if decide (handle obj = 13) then Err (kernel_failure 13)
  else
    match IsA obj with
    | st_SpaceInstance => Ok {| GetEdges := [1; 2]; GetEdges_true := []; GetBuffers := [] |}
    | st_PlaneInstance =>
        Ok {| GetEdges := []; GetEdges_true := [];
              GetBuffers := if decide (handle obj = 14) then [1; 2] else [1] |}
    | st_Solid => Ok {| GetEdges := []; GetEdges_true := [1; 2; 3; 4]; GetBuffers := [1; 2] |}
    | st_other _ => Ok {| GetEdges := []; GetEdges_true := []; GetBuffers := [] |}
    end.

End GeometryDatabase.

(** * The view classes

    Of the unnamed source file that mirrors the kernel classes into
    scene objects: the control points of a curve and the names given to
    faces and edges.  An object is known here by the chain of its
    parents, nearest first. *)

Module VisualModel.

Inductive Object3D :=
| item_object (item : Item)   (* a [Solid], a [SpaceInstance] or a [PlaneInstance] *)
| other_object.               (* a level of detail, a group, a curve ... *)

(** The two messages differ by the case of their first letter. *)
Inductive Thrown :=
| Invalid_precondition   (* ["Invalid precondition"], of [parentItem] *)
| invalid_precondition.  (* ["invalid precondition"], of [findByIndex] *)

Inductive Result (A : Type) :=
| Ok (a : A)
| Err (e : Thrown).
Arguments Ok {A} a.
Arguments Err {A} e.

(** [class ControlPointGroup]: [length], [userData.parentId] and the
    parents. *)
Record ControlPointGroup := {
  length : Z;
  parentId : Z;
  parents : list Object3D
}.

(** [class ControlPoint] *)
Record ControlPoint := {
  parentItem_of : Item;
  points : ControlPointGroup;
  index : Z;
  simpleName_of : string
}.

(** [get parentItem()]: [this.parent?.parent?.parent] must be a
    [SpaceInstance]. *)
Definition parentItem (g : ControlPointGroup) : Result Item :=
  match parents g !! 2%nat with
  | Some (item_object item) =>
      if instanceof item SpaceInstance then Ok item else Err Invalid_precondition
  | _ => Err Invalid_precondition
  end.

(** A number in a template string: for an integer below 10^21 in
    magnitude, as ids and indexes are, its decimal digits. *)
Definition number_to_string (n : Z) : string := pretty n.

Definition findByIndex (g : ControlPointGroup) (i : Z) : Result ControlPoint :=
  if length g <=? i then Err invalid_precondition
  else
    match parentItem g with
    | Err e => Err e
    | Ok item =>
        Ok {| parentItem_of := item;
              points := g;
              index := i;
              simpleName_of := number_to_string (parentId g) +:+ "," +:+ number_to_string i |}
    end.

(** [for (let i = 0; i < this.length; i++) yield this.findByIndex(i)],
    run to its end: [n] is the number of rounds left. *)
Fixpoint iterate (g : ControlPointGroup) (i : Z) (n : nat) : Result (list ControlPoint) :=
  match n with
  | O => Ok []
  | S n' =>
      match findByIndex g i with
      | Err e => Err e
      | Ok point =>
          match iterate g (i + 1) n' with
          | Err e => Err e
          | Ok rest => Ok (point :: rest)
          end
      end
  end.

Definition iterator (g : ControlPointGroup) : Result (list ControlPoint) :=
  iterate g 0 (Z.to_nat (length g)).

(** [Face.simpleName(parentId, index)] and the name [CurveEdge.build]
    gives. *)
Definition Face_simpleName (parentId index : Z) : string :=
  "face," +:+ number_to_string parentId +:+ "," +:+ number_to_string index.

Definition CurveEdge_simpleName (parentId i : Z) : string :=
  "edge," +:+ number_to_string parentId +:+ "," +:+ number_to_string i.

(** The characters of a printed integer. *)
Definition numeric_char (c : ascii) : bool :=
  match c with
  | "0" | "1" | "2" | "3" | "4" | "5" | "6" | "7" | "8" | "9" | "-" => true
  | _ => false
  end%char.

Fixpoint numeric (s : string) : bool :=
  match s with
  | EmptyString => true
  | String c s' => numeric_char c && numeric s'
  end.

End VisualModel.

(** ** Instances for the examples *)

Definition planes7 : gmap Z Z :=
  list_to_map [(1, 0); (2, 0); (3, 0); (4, 0); (5, 0); (6, 1); (7, 2)].

(** Collaborators that fail on chosen inputs: the lookup of the name 9
    throws, the lookup of the curve 8 answers [undefined], rebuilding
    the placement 1 throws, and the database throws on the item 13. *)
Definition faulty : Collaborators (gmap Z CurveInfo) unit :=
  let good := sample planes7 [] in
  let db {A} (item : Item) (op : gmap Z CurveInfo -> Outcome A * gmap Z CurveInfo) w :=
    if decide (simpleName item = 13) then (Throw (Failure 13), w) else op w in
  {| db_hide := fun item => db item (db_hide good item);
     db_unhide := fun item => db item (db_unhide good item);
     db_makeVisible := fun item value => db item (db_makeVisible good item value);
     db_unhideAll := db_unhideAll good;
     db_addItem := db_addItem good;
     db_replaceItem := fun from to => db from (db_replaceItem good from to);
     db_removeItem := fun view agent => db view (db_removeItem good view agent);
     curves_add := curves_add good;
     curves_lookup := fun key w =>
       match key with
       | ByName name =>
           if decide (name = 9) then Raises (Failure 9) else index_lookup key w
       | ByCurve curve =>
           if decide (simpleName curve = 8) then Undefined else index_lookup key w
       end;
     curves_remove := curves_remove good;
     curves_cascade := curves_cascade good;
     curves_commit := curves_commit good;
     regions_updatePlacement := fun p w =>
       if decide (p = 1) then (Throw (Failure 1), w) else (Return tt, w) |}.

(** Kernel items for the examples. *)
Definition a_curve (h : Z) : GeometryDatabase.c3dItem :=
  {| GeometryDatabase.IsA := GeometryDatabase.st_SpaceInstance;
     GeometryDatabase.handle := h |}.

Definition a_region (h : Z) : GeometryDatabase.c3dItem :=
  {| GeometryDatabase.IsA := GeometryDatabase.st_PlaneInstance;
     GeometryDatabase.handle := h |}.

Definition a_point (h : Z) : GeometryDatabase.c3dItem :=
  {| GeometryDatabase.IsA := GeometryDatabase.st_other 0;
     GeometryDatabase.handle := h |}.

(** The control points of a curve of four points, under the
    [SpaceInstance] 3. *)
Definition four_points : VisualModel.ControlPointGroup :=
  {| VisualModel.length := 4;
     VisualModel.parentId := 3;
     VisualModel.parents :=
       [VisualModel.other_object; VisualModel.other_object;
        VisualModel.item_object (curve 3)] |}.

(** * Properties *)

Section TransactionLaws.

Context {W R : Type}.
Variable K : Collaborators W R.

Local Open Scope cm_scope.

Lemma bind_Return {A B} (m : M W A) (k : A -> M W B) (s s' : ContourManager W) (a : A) :
  m s = (Return a, s') -> (x <- m;; k x) s = k a s'.
Proof. intros H; unfold bind; rewrite H; reflexivity. Qed.

Lemma bind_Throw {A B} (m : M W A) (k : A -> M W B) (s s' : ContourManager W) (e : Error) :
  m s = (Throw e, s') -> (x <- m;; k x) s = (Throw e, s').
Proof. intros H; unfold bind; rewrite H; reflexivity. Qed.

Lemma bind_assoc {A B C} (m : M W A) (k : A -> M W B) (h : B -> M W C)
    (s : ContourManager W) :
  (y <- (x <- m;; k x);; h y) s = (x <- m;; y <- k x;; h y) s.
Proof. unfold bind; destruct (m s) as [[a|e] s']; reflexivity. Qed.

Lemma the_transaction_in (created tx : Transaction) (s : ContourManager W) :
  state s = in_transaction tx ->
  the_transaction created s = (Return tx, s).
Proof. intros H; unfold the_transaction, bind, get_state; rewrite H; reflexivity. Qed.

(** The body of the [try] never changes the state. *)
Lemma placementsAffectedByTransaction_pure (ids : CurveSet) (ps : PlacementSet)
    (s : ContourManager W) :
  snd (placementsAffectedByTransaction K ids ps s) = s.
Proof.
  revert ps; induction ids as [|c ids IH]; intros ps; simpl; [reflexivity|].
  unfold bind, lookup.
  destruct (curves_lookup K (ByName c) (world s)); simpl; auto.
Qed.

Lemma updatePlacements_state (ps : PlacementSet) (s : ContourManager W) :
  state (snd (updatePlacements K ps s)) = state s.
Proof.
  revert s; induction ps as [|p ps IH]; intros s; simpl; [reflexivity|].
  unfold bind, call.
  destruct (regions_updatePlacement K p (world s)) as [[[]|e] w]; simpl; auto.
  rewrite IH; reflexivity.
Qed.

(** What [placementsAffectedByTransaction] computes when no lookup
    throws: the set it was given, then the placements of the records
    found, without repetition. *)
Lemma placementsAffectedByTransaction_spec (ids : CurveSet) (ps ps' : PlacementSet)
    (s s' : ContourManager W) :
  placementsAffectedByTransaction K ids ps s = (Return ps', s') ->
  s' = s
  /\ (NoDup ps -> NoDup ps')
  /\ (forall p, p ∈ ps' ->
        p ∈ ps \/ exists c info, c ∈ ids
                    /\ curves_lookup K (ByName c) (world s) = Found info
                    /\ placement info = p).
Proof.
  revert ps; induction ids as [|c ids IH]; intros ps; simpl.
  - unfold ret; intros [= <- <-]; auto.
  - unfold bind, lookup.
    destruct (curves_lookup K (ByName c) (world s)) as [info| |e] eqn:E; simpl;
      [| |discriminate]; intros H; apply IH in H as (-> & Hnd & Hin);
      (split; [reflexivity|]); split.
    + intros Hps; apply Hnd. unfold set_add; case_decide; [assumption|].
      apply NoDup_app; repeat split; [assumption| |apply NoDup_singleton].
      intros x Hx Hx'; apply list_elem_of_singleton in Hx'; subst x; contradiction.
    + intros p Hp. destruct (Hin p Hp) as [Hp'|(c' & i' & Hc' & Hl & Hpl)].
      * unfold set_add in Hp'; case_decide; [left; assumption|].
        apply elem_of_app in Hp' as [Hp'|Hp']; [left; assumption|].
        apply list_elem_of_singleton in Hp'; subst p.
        right; exists c, info; repeat split; [left|assumption].
      * right; exists c', i'; repeat split; [right|..]; assumption.
    + assumption.
    + intros p Hp. destruct (Hin p Hp) as [Hp'|(c' & i' & Hc' & Hl & Hpl)]; [left; assumption|].
      right; exists c', i'; repeat split; [right|..]; assumption.
Qed.

(** The rebuild loop calls [updatePlacement] on the placements in turn
    and stops at the first call that throws. *)
Lemma updatePlacements_trace (ps : PlacementSet) (s : ContourManager W) :
  exists qs, qs `prefix_of` ps
    /\ trace (snd (updatePlacements K ps s))
       = trace s ++ (regions_updatePlacement_called <$> qs)
    /\ (fst (updatePlacements K ps s) = Return tt -> qs = ps).
Proof.
  revert s; induction ps as [|p ps IH]; intros s; simpl.
  - exists []; repeat split; [reflexivity|]. symmetry; apply app_nil_r.
  - unfold bind, call.
    destruct (regions_updatePlacement K p (world s)) as [[[]|e] w]; simpl.
    + match goal with |- context [updatePlacements K ps ?s1] =>
        destruct (IH s1) as (qs & Hpre & Htr & Hok) end.
      exists (p :: qs); repeat split.
      * apply prefix_cons; assumption.
      * rewrite Htr; simpl. rewrite <- app_assoc; reflexivity.
      * intros H; rewrite (Hok H); reflexivity.
    + exists [p]; repeat split; [|discriminate].
      exists ps; reflexivity.
Qed.

(** [transaction] started when idle: the body and the commit run in a
    fresh transaction, and the [finally] clears the state. *)
Lemma transaction_idle (f : M W unit) (s : ContourManager W) :
  state s = none ->
  transaction K f s
  = (fst ((f;;; tx <- the_transaction empty_transaction;; commit_and_rebuild K tx)
            (entered s)),
     left (snd ((f;;; tx <- the_transaction empty_transaction;; commit_and_rebuild K tx)
                  (entered s)))).
Proof.
  intros Hs.
  unfold transaction, bind at 1, get_state; rewrite Hs.
  unfold bind at 1, set_state at 1, try_finally; simpl.
  unfold entered, left.
  match goal with |- context [let (_, _) := ?x in _] => destruct x end.
  reflexivity.
Qed.

(** [transaction] started inside a transaction: the guard. *)
Lemma transaction_busy (f : M W unit) (s : ContourManager W) (tx : Transaction) :
  state s = in_transaction tx ->
  transaction K f s = (Throw (InvalidState tag_transaction), s).
Proof.
  intros Hs. unfold transaction, bind, get_state; rewrite Hs; reflexivity.
Qed.

(** When the body returns inside its transaction, the rest is the
    commit of what it accumulated. *)
Lemma transaction_body_returned (f : M W unit) (s s2 : ContourManager W) (tx : Transaction) :
  state s = none ->
  f (entered s) = (Return tt, s2) ->
  state s2 = in_transaction tx ->
  transaction K f s
  = (fst (commit_and_rebuild K tx s2), left (snd (commit_and_rebuild K tx s2))).
Proof.
  intros Hs Hf Htx. rewrite transaction_idle by assumption.
  rewrite (bind_Return f _ _ _ _ Hf).
  rewrite (bind_Return _ _ _ _ _ (the_transaction_in _ _ _ Htx)).
  reflexivity.
Qed.

(** What [commit_and_rebuild] adds to the trace. *)
Lemma commit_and_rebuild_trace (tx : Transaction) (s : ContourManager W) :
  exists ps,
    NoDup ps
    /\ (trace (snd (commit_and_rebuild K tx s)) = trace s
        \/ trace (snd (commit_and_rebuild K tx s))
           = trace s ++ curves_commit_called tx :: (regions_updatePlacement_called <$> ps))
    /\ (ps <> [] -> fst (curves_commit K tx (world s)) = Return tt)
    /\ (forall p, p ∈ ps ->
          exists c info w,
            c ∈ dirty tx ++ deleted tx ++ added tx
            /\ curves_lookup K (ByName c) w = Found info
            /\ placement info = p).
Proof.
  destruct (commit_and_rebuild K tx s) as [r sf] eqn:E; simpl.
  unfold commit_and_rebuild in E.
  assert (Hnil : forall q : Placement3D, q ∈ @nil Z ->
            exists c info w, c ∈ dirty tx ++ deleted tx ++ added tx
              /\ curves_lookup K (ByName c) w = Found info /\ placement info = q)
    by (intros q []%elem_of_nil).
  destruct (placementsAffectedByTransaction K (dirty tx) [] s) as [[ps1|e] s3] eqn:E1.
  2:{ rewrite (bind_Throw _ _ _ _ _ E1) in E.
      pose proof (placementsAffectedByTransaction_pure (dirty tx) [] s) as Hp.
      rewrite E1 in Hp; simpl in Hp; subst s3. injection E as <- <-.
      exists []; repeat split;
      first [apply NoDup_nil_2|left; reflexivity|congruence|exact Hnil]. }
  rewrite (bind_Return _ _ _ _ _ E1) in E.
  apply placementsAffectedByTransaction_spec in E1 as (-> & Hnd1 & Hin1).
  destruct (placementsAffectedByTransaction K (deleted tx) ps1 s) as [[ps2|e] s3] eqn:E2.
  2:{ rewrite (bind_Throw _ _ _ _ _ E2) in E.
      pose proof (placementsAffectedByTransaction_pure (deleted tx) ps1 s) as Hp.
      rewrite E2 in Hp; simpl in Hp; subst s3. injection E as <- <-.
      exists []; repeat split;
      first [apply NoDup_nil_2|left; reflexivity|congruence|exact Hnil]. }
  rewrite (bind_Return _ _ _ _ _ E2) in E.
  apply placementsAffectedByTransaction_spec in E2 as (-> & Hnd2 & Hin2).
  unfold bind at 1, call at 1 in E.
  destruct (curves_commit K tx (world s)) as [[[]|e] w3] eqn:Ec; simpl in E.
  2:{ injection E as <- <-; simpl.
      exists []; repeat split;
      first [apply NoDup_nil_2|right; reflexivity|congruence|exact Hnil]. }
  set (s3 := {| state := state s; world := w3;
                trace := trace s ++ [curves_commit_called tx] |}) in E.
  destruct (placementsAffectedByTransaction K (added tx) ps2 s3) as [[ps3|e] s4] eqn:E3.
  2:{ rewrite (bind_Throw _ _ _ _ _ E3) in E.
      pose proof (placementsAffectedByTransaction_pure (added tx) ps2 s3) as Hp.
      rewrite E3 in Hp; simpl in Hp; subst s4. injection E as <- <-; simpl.
      exists []; repeat split;
      first [apply NoDup_nil_2|right; reflexivity|congruence|exact Hnil]. }
  rewrite (bind_Return _ _ _ _ _ E3) in E.
  apply placementsAffectedByTransaction_spec in E3 as (-> & Hnd3 & Hin3).
  assert (Hps3 : NoDup ps3) by (apply Hnd3, Hnd2, Hnd1, NoDup_nil_2).
  assert (Hall : forall p, p ∈ ps3 ->
            exists c info w, c ∈ dirty tx ++ deleted tx ++ added tx
              /\ curves_lookup K (ByName c) w = Found info /\ placement info = p).
  { intros p Hp. destruct (Hin3 p Hp) as [Hp2|(c & i & Hc & Hl & Hpl)].
    - destruct (Hin2 p Hp2) as [Hp1|(c & i & Hc & Hl & Hpl)].
      + destruct (Hin1 p Hp1) as [[]%elem_of_nil|(c & i & Hc & Hl & Hpl)].
        exists c, i, (world s); repeat split; [|assumption..].
        apply elem_of_app; left; assumption.
      + exists c, i, (world s); repeat split; [|assumption..].
        apply elem_of_app; right; apply elem_of_app; left; assumption.
    - exists c, i, (world s3); repeat split; [|assumption..].
      apply elem_of_app; right; apply elem_of_app; right; assumption. }
  destruct (nonempty tx).
  - destruct (updatePlacements_trace ps3 s3) as (qs & [k Hk] & Htr & _).
    rewrite E in Htr; simpl in Htr.
    exists qs; repeat split.
    + rewrite Hk in Hps3; apply NoDup_app in Hps3 as (? & _); assumption.
    + right. rewrite Htr; unfold s3; simpl. rewrite <- app_assoc; reflexivity.
    + intros p Hp; apply Hall; rewrite Hk; apply elem_of_app; left; assumption.
  - injection E as <- <-; simpl.
    exists []; repeat split;
      first [apply NoDup_nil_2|right; reflexivity|congruence|exact Hnil].
Qed.

Lemma updatePlacements_extends (ps : PlacementSet) (s : ContourManager W) :
  exists evs, trace (snd (updatePlacements K ps s)) = trace s ++ evs.
Proof.
  destruct (updatePlacements_trace ps s) as (qs & _ & H & _). eauto.
Qed.

(** When no lookup by name throws, the affected placements are computed
    and the commit is reached. *)
Lemma placementsAffectedByTransaction_returns (ids : CurveSet) (ps : PlacementSet)
    (s : ContourManager W) :
  (forall c e, c ∈ ids -> curves_lookup K (ByName c) (world s) <> Raises e) ->
  exists ps', placementsAffectedByTransaction K ids ps s = (Return ps', s).
Proof.
  revert ps; induction ids as [|c ids IH]; intros ps Hno; simpl.
  - exists ps; reflexivity.
  - unfold bind, lookup.
    destruct (curves_lookup K (ByName c) (world s)) as [info| |e] eqn:E.
    + apply IH. intros c' e' Hc'; apply Hno; right; assumption.
    + apply IH. intros c' e' Hc'; apply Hno; right; assumption.
    + exfalso. apply (Hno c e); [left|assumption].
Qed.

Lemma commit_reached (tx : Transaction) (s : ContourManager W) :
  (forall c e, curves_lookup K (ByName c) (world s) <> Raises e) ->
  exists rest,
    trace (snd (commit_and_rebuild K tx s)) = trace s ++ curves_commit_called tx :: rest.
Proof.
  intros Hno. unfold commit_and_rebuild.
  destruct (placementsAffectedByTransaction_returns (dirty tx) [] s) as [ps1 E1];
    [intros; apply Hno|].
  rewrite (bind_Return _ _ _ _ _ E1).
  destruct (placementsAffectedByTransaction_returns (deleted tx) ps1 s) as [ps2 E2];
    [intros; apply Hno|].
  rewrite (bind_Return _ _ _ _ _ E2).
  destruct (call (curves_commit_called tx) (curves_commit K tx) s) as [[[]|e] s3] eqn:Ec.
  - rewrite (bind_Return _ _ _ _ _ Ec).
    assert (Htr : trace s3 = trace s ++ [curves_commit_called tx]).
    { unfold call in Ec. destruct (curves_commit K tx (world s)); injection Ec as _ <-.
      reflexivity. }
    destruct (placementsAffectedByTransaction K (added tx) ps2 s3) as [[ps3|e] s4] eqn:E3.
    + rewrite (bind_Return _ _ _ _ _ E3).
      apply placementsAffectedByTransaction_spec in E3 as (-> & _).
      destruct (nonempty tx).
      * destruct (updatePlacements_extends ps3 s3) as [evs Hevs].
        exists evs. rewrite Hevs, Htr, <- app_assoc. reflexivity.
      * exists []. simpl. assumption.
    + rewrite (bind_Throw _ _ _ _ _ E3).
      pose proof (placementsAffectedByTransaction_pure (added tx) ps2 s3) as Hp.
      rewrite E3 in Hp; simpl in Hp; subst s4. exists []. simpl. assumption.
  - rewrite (bind_Throw _ _ _ _ _ Ec). exists []. simpl.
    unfold call in Ec. destruct (curves_commit K tx (world s)); injection Ec as _ <-.
    reflexivity.
Qed.

Lemma call_run {A} (ev : Event) (op : W -> Outcome A * W) (s : ContourManager W) :
  call ev op s
  = (fst (op (world s)),
     {| state := state s; world := snd (op (world s)); trace := trace s ++ [ev] |}).
Proof. unfold call. destruct (op (world s)); reflexivity. Qed.

Lemma placementsAffectedByTransaction_raises (before after : CurveSet) (c : SimpleName)
    (e : Error) (ps : PlacementSet) (s : ContourManager W) :
  (forall c' e', c' ∈ before -> curves_lookup K (ByName c') (world s) <> Raises e') ->
  curves_lookup K (ByName c) (world s) = Raises e ->
  placementsAffectedByTransaction K (before ++ c :: after) ps s = (Throw e, s).
Proof.
  revert ps; induction before as [|b before IH]; intros ps Hno Hc; simpl.
  - unfold bind, lookup; rewrite Hc; reflexivity.
  - unfold bind, lookup.
    destruct (curves_lookup K (ByName b) (world s)) as [info| |e'] eqn:E; simpl.
    + apply IH; [|assumption]. intros c' e' Hc'; apply Hno; right; assumption.
    + apply IH; [|assumption]. intros c' e' Hc'; apply Hno; right; assumption.
    + exfalso; apply (Hno b e'); [left|assumption].
Qed.

(** The commit is reached as soon as no lookup of a dirty or deleted
    name throws. *)
Lemma commit_reached_when (tx : Transaction) (s : ContourManager W) :
  (forall c e, c ∈ dirty tx ++ deleted tx ->
               curves_lookup K (ByName c) (world s) <> Raises e) ->
  exists ps,
    NoDup ps
    /\ trace (snd (commit_and_rebuild K tx s))
       = trace s ++ curves_commit_called tx :: (regions_updatePlacement_called <$> ps).
Proof.
  intros Hno.
  destruct (commit_and_rebuild_trace tx s) as (ps & Hnd & [H|H] & _);
    [|exists ps; split; assumption].
  exfalso. revert H. unfold commit_and_rebuild.
  destruct (placementsAffectedByTransaction_returns (dirty tx) [] s) as [ps1 E1].
  { intros c e Hc; apply Hno, elem_of_app; left; assumption. }
  rewrite (bind_Return _ _ _ _ _ E1).
  destruct (placementsAffectedByTransaction_returns (deleted tx) ps1 s) as [ps2 E2].
  { intros c e Hc; apply Hno, elem_of_app; right; assumption. }
  rewrite (bind_Return _ _ _ _ _ E2).
  set (s3 := {| state := state s; world := snd (curves_commit K tx (world s));
                trace := trace s ++ [curves_commit_called tx] |}).
  assert (Hgrow : forall (m : M W unit),
            (forall s0, exists evs0, trace (snd (m s0)) = trace s0 ++ evs0) ->
            trace (snd ((call (curves_commit_called tx) (curves_commit K tx);;; m) s))
            <> trace s).
  { intros m Hm Heq. unfold bind in Heq. rewrite call_run in Heq.
    destruct (fst (curves_commit K tx (world s))) as [[]|e]; simpl in Heq.
    - destruct (Hm s3) as [evs0 H0]. fold s3 in Heq. rewrite H0 in Heq. simpl in Heq.
      rewrite <- app_assoc in Heq. rewrite <- (app_nil_r (trace s)) in Heq at 2.
      apply app_inv_head in Heq. discriminate.
    - rewrite <- (app_nil_r (trace s)) in Heq at 2.
      apply app_inv_head in Heq. discriminate. }
  apply Hgrow. intros s0.
  pose proof (placementsAffectedByTransaction_pure (added tx) ps2 s0) as Hp.
  unfold bind.
  destruct (placementsAffectedByTransaction K (added tx) ps2 s0) as [[ps3|e] s4];
    simpl in Hp; subst s4; [|exists []; symmetry; apply app_nil_r].
  destruct (nonempty tx); [apply updatePlacements_extends|].
  exists []; symmetry; apply app_nil_r.
Qed.

(** The two loops before the commit are one loop over the dirty names
    and then the deleted ones. *)
Lemma placementsAffectedByTransaction_app (ids1 ids2 : CurveSet) (ps : PlacementSet)
    (s : ContourManager W) :
  placementsAffectedByTransaction K (ids1 ++ ids2) ps s
  = (ps' <- placementsAffectedByTransaction K ids1 ps;;
     placementsAffectedByTransaction K ids2 ps') s.
Proof.
  revert ps; induction ids1 as [|c ids1 IH]; intros ps; simpl.
  - reflexivity.
  - unfold bind, lookup.
    destruct (curves_lookup K (ByName c) (world s)) as [info| |e]; simpl;
      [apply IH|apply IH|reflexivity].
Qed.

Lemma commit_and_rebuild_app (tx : Transaction) (s : ContourManager W) :
  commit_and_rebuild K tx s
  = (placements <- placementsAffectedByTransaction K (dirty tx ++ deleted tx) [];;
     call (curves_commit_called tx) (curves_commit K tx);;;
     placements <- placementsAffectedByTransaction K (added tx) placements;;
     if nonempty tx then updatePlacements K placements else ret tt) s.
Proof.
  unfold commit_and_rebuild. rewrite <- bind_assoc.
  unfold bind at 1 5. rewrite <- placementsAffectedByTransaction_app. reflexivity.
Qed.

(** C2 (transaction failure semantics).  Started when idle, [transaction]
    always ends idle, whatever the body, the commit or a rebuild does;
    and when the body throws, the error is the one the caller gets and
    the coordinator is left as the body left it, the state apart: no
    call to [commit] or [updatePlacement] is appended to the trace and
    the transaction the body accumulated is gone. *)
Theorem transaction_failure_semantics (f : M W unit) (s : ContourManager W) :
  state s = none ->
  state (snd (transaction K f s)) = none
  /\ (forall e s2,
        f (entered s) = (Throw e, s2) ->
        transaction K f s = (Throw e, left s2)).
Proof.
  intros Hs. rewrite transaction_idle by assumption. split; [reflexivity|].
  intros e s2 Hf. rewrite (bind_Throw f _ _ _ _ Hf). reflexivity.
Qed.

(** C3 (single rebuild per affected plane, only after commit).  When the
    body returns, what [transaction] adds to the trace is either nothing
    (a lookup threw before the commit) or the call to [commit] with the
    transaction the body accumulated, followed by calls to
    [updatePlacement] on pairwise distinct placements; each of them is
    the placement of a record found for a curve of the transaction, and
    there is none unless [commit] returned. *)
Theorem single_rebuild_per_plane_after_commit (f : M W unit)
    (s s2 : ContourManager W) (tx : Transaction) :
  state s = none ->
  f (entered s) = (Return tt, s2) ->
  state s2 = in_transaction tx ->
  exists ps,
    NoDup ps
    /\ (trace (snd (transaction K f s)) = trace s2
        \/ trace (snd (transaction K f s))
           = trace s2 ++ curves_commit_called tx :: (regions_updatePlacement_called <$> ps))
    /\ (ps <> [] -> fst (curves_commit K tx (world s2)) = Return tt)
    /\ (forall p, p ∈ ps ->
          exists c info w,
            c ∈ dirty tx ++ deleted tx ++ added tx
            /\ curves_lookup K (ByName c) w = Found info
            /\ placement info = p).
Proof.
  intros Hs Hf Htx.
  rewrite (transaction_body_returned f s s2 tx) by assumption.
  exact (commit_and_rebuild_trace tx s2).
Qed.

(** C4 (re-entrancy guard).  Let the body run [f] and then call
    [transaction] again.  The inner call throws [InvalidState] and
    leaves the coordinator, the transaction accumulated by [f] included,
    as it found it; when the body catches the error the outer
    transaction goes on as if the inner call had not been made; when it
    does not, the outer transaction ends with that error, idle, and with
    nothing committed nor rebuilt. *)
Theorem reentrancy_guard (f g k : M W unit) (s s2 : ContourManager W) (tx : Transaction) :
  state s = none ->
  f (entered s) = (Return tt, s2) ->
  state s2 = in_transaction tx ->
  transaction K g s2 = (Throw (InvalidState tag_transaction), s2)
  /\ transaction K (f;;; try_catch (transaction K g) (fun _ => ret tt);;; k) s
     = transaction K (f;;; k) s
  /\ transaction K (f;;; transaction K g;;; k) s
     = (Throw (InvalidState tag_transaction), left s2).
Proof.
  intros Hs Hf Htx.
  pose proof (transaction_busy g s2 tx Htx) as Hg.
  split; [exact Hg|]. split.
  - rewrite !transaction_idle by assumption.
    rewrite !bind_assoc, !(bind_Return f _ _ _ _ Hf).
    assert (Hc : try_catch (transaction K g) (fun _ => ret tt) s2 = (Return tt, s2))
      by (unfold try_catch; rewrite Hg; reflexivity).
    rewrite !bind_assoc, !(bind_Return _ _ _ _ _ Hc). reflexivity.
  - rewrite transaction_idle by assumption.
    rewrite !bind_assoc, !(bind_Return f _ _ _ _ Hf).
    rewrite !bind_assoc, !(bind_Throw _ _ _ _ _ Hg). reflexivity.
Qed.

(** C5 (state dispatch of [addCurve] and [removeCurve]).  Idle,
    [addCurve] calls [curves.add] and then, once, [updatePlacement] on
    the placement of the record looked up after the addition;
    [removeCurve] looks the record up, calls [curves.remove] and then,
    once, [updatePlacement] on the placement the record had.  Inside a
    transaction [addCurve] adds the name of the curve to [added] and
    does nothing else, and [removeCurve] is the call to [cascade] on the
    transaction of the state. *)
Theorem addCurve_removeCurve_dispatch (curve : Item) (s : ContourManager W) :
  (forall w1 info r w2,
      state s = none ->
      curves_add K curve (world s) = (Return tt, w1) ->
      curves_lookup K (ByCurve curve) w1 = Found info ->
      regions_updatePlacement K (placement info) w1 = (r, w2) ->
      addCurve K curve s
      = (r, {| state := none; world := w2;
               trace := trace s ++ [curves_add_called curve;
                                    regions_updatePlacement_called (placement info)] |}))
  /\ (forall info w1 r w2,
      state s = none ->
      curves_lookup K (ByCurve curve) (world s) = Found info ->
      curves_remove K curve (world s) = (Return tt, w1) ->
      regions_updatePlacement K (placement info) w1 = (r, w2) ->
      removeCurve K curve s
      = (r, {| state := none; world := w2;
               trace := trace s ++ [curves_remove_called curve;
                                    regions_updatePlacement_called (placement info)] |}))
  /\ (forall tx,
      state s = in_transaction tx ->
      addCurve K curve s
      = (Return tt,
         {| state := in_transaction
                       {| dirty := dirty tx;
                          added := set_add (simpleName curve) (added tx);
                          deleted := deleted tx |};
            world := world s; trace := trace s |}))
  /\ (forall tx r tx' w',
      state s = in_transaction tx ->
      curves_cascade K curve tx (world s) = (r, (tx', w')) ->
      removeCurve K curve s
      = (r, {| state := in_transaction tx'; world := w';
               trace := trace s ++ [curves_cascade_called curve] |})).
Proof.
  repeat split.
  - intros w1 info r w2 Hs Ha Hl Hu.
    unfold addCurve, bind, get_state; rewrite Hs.
    unfold call at 1; rewrite Ha; simpl.
    unfold lookup; simpl; rewrite Hl; simpl.
    unfold call; simpl; rewrite Hu, Hs. rewrite <- app_assoc; reflexivity.
  - intros info w1 r w2 Hs Hl Hr Hu.
    unfold removeCurve, bind, get_state; rewrite Hs.
    unfold lookup; rewrite Hl.
    unfold call at 1; rewrite Hr; simpl.
    unfold call; simpl; rewrite Hu, Hs. rewrite <- app_assoc; reflexivity.
  - intros tx Hs.
    unfold addCurve, bind, get_state; rewrite Hs. reflexivity.
  - intros tx r tx' w' Hs Hc.
    unfold removeCurve, bind, get_state; rewrite Hs.
    unfold cascade; rewrite Hc. reflexivity.
Qed.

(** C6 (curve-typed routing).  Each item operation is the database
    operation followed by the routes of the specification, and returns
    what the database returned: [hide] and [removeItem] go through
    [removeCurve], [unhide] and [addItem] through [addCurve],
    [makeVisible] through one or the other according to the flag,
    [replaceItem] through [removeCurve] of the old item and then
    [addCurve] of the new one.  For [addItem] the curve-typed item is
    the view the database returns. *)
Theorem curve_typed_routing (item : Item) (s : ContourManager W) :
  instanceof item SpaceInstance = true ->
  hide K item s
  = routed K (call (db_hide_called item) (db_hide K item))
      (fun _ => [through_removeCurve item]) s
  /\ unhide K item s
     = routed K (call (db_unhide_called item) (db_unhide K item))
         (fun _ => [through_addCurve item]) s
  /\ (forall value,
        makeVisible K item value s
        = routed K (call (db_makeVisible_called item value) (db_makeVisible K item value))
            (fun _ => [if value then through_addCurve item else through_removeCurve item]) s)
  /\ (forall agent,
        removeItem K item agent s
        = routed K (call (db_removeItem_called item agent) (db_removeItem K item agent))
            (fun _ => [through_removeCurve item]) s)
  /\ (forall to,
        replaceItem K item to s
        = routed K (call (db_replaceItem_called item to) (db_replaceItem K item to))
            (fun result => [through_removeCurve item; through_addCurve result]) s)
  /\ (forall model agent,
        addItem K model agent s
        = routed K (call (db_addItem_called model (default user agent))
                         (db_addItem K model (default user agent)))
            (fun result => when_curve result [through_addCurve result]) s).
Proof.
  intros Hitem.
  unfold hide, unhide, makeVisible, removeItem, replaceItem, addItem, routed, when_curve.
  rewrite Hitem. unfold bind, ret.
  repeat split; intros; simpl.
  - destruct (call _ _ s) as [[r|e] s1]; [|reflexivity]; simpl; unfold bind, ret.
    destruct (removeCurve K item s1) as [[[]|e] s2]; reflexivity.
  - destruct (call _ _ s) as [[r|e] s1]; [|reflexivity]; simpl; unfold bind, ret.
    destruct (addCurve K item s1) as [[[]|e] s2]; reflexivity.
  - destruct (call _ _ s) as [[r|e] s1]; [|reflexivity];
      destruct value; simpl; unfold bind, ret.
    + destruct (addCurve K item s1) as [[[]|e] s2]; reflexivity.
    + destruct (removeCurve K item s1) as [[[]|e] s2]; reflexivity.
  - destruct (call _ _ s) as [[r|e] s1]; [|reflexivity]; simpl; unfold bind, ret.
    destruct (removeCurve K item s1) as [[[]|e] s2]; reflexivity.
  - destruct (call _ _ s) as [[r|e] s1]; [|reflexivity]; simpl; unfold bind, ret.
    destruct (removeCurve K item s1) as [[[]|e] s2]; [|reflexivity].
    destruct (addCurve K r s2) as [[[]|e] s3]; reflexivity.
  - destruct (call _ _ s) as [[r|e] s1]; [|reflexivity]; simpl.
    destruct (instanceof r SpaceInstance); simpl; unfold bind, ret; [|reflexivity].
    destruct (addCurve K r s1) as [[[]|e] s2]; reflexivity.
Qed.

(** C9 (non-curve frame).  On an item that is not a [SpaceInstance]
    each item operation is the database operation alone: it returns
    what the database returned, the state of the coordinator (and with
    it the sets of an active transaction) is unchanged, and the one
    event added to the trace is the call to the database.  For
    [addItem] the item is the view the database returns. *)
Theorem non_curve_frame (item : Item) (s : ContourManager W) :
  instanceof item SpaceInstance = false ->
  hide K item s
  = (let (r, w) := db_hide K item (world s) in
     (r, {| state := state s; world := w; trace := trace s ++ [db_hide_called item] |}))
  /\ unhide K item s
     = (let (r, w) := db_unhide K item (world s) in
        (r, {| state := state s; world := w; trace := trace s ++ [db_unhide_called item] |}))
  /\ (forall value,
        makeVisible K item value s
        = (let (r, w) := db_makeVisible K item value (world s) in
           (r, {| state := state s; world := w;
                  trace := trace s ++ [db_makeVisible_called item value] |})))
  /\ (forall agent,
        removeItem K item agent s
        = (let (r, w) := db_removeItem K item agent (world s) in
           (r, {| state := state s; world := w;
                  trace := trace s ++ [db_removeItem_called item agent] |})))
  /\ (forall to,
        replaceItem K item to s
        = (let (r, w) := db_replaceItem K item to (world s) in
           (r, {| state := state s; world := w;
                  trace := trace s ++ [db_replaceItem_called item to] |})))
  /\ (forall model agent,
        (forall result w,
            db_addItem K model (default user agent) (world s) = (Return result, w) ->
            instanceof result SpaceInstance = false) ->
        addItem K model agent s
        = (let (r, w) := db_addItem K model (default user agent) (world s) in
           (r, {| state := state s; world := w;
                  trace := trace s ++ [db_addItem_called model (default user agent)] |}))).
Proof.
  intros Hitem.
  unfold hide, unhide, makeVisible, removeItem, replaceItem, addItem.
  rewrite Hitem. unfold bind, call, ret. repeat split.
  - destruct (db_hide K item (world s)) as [[r|e] w]; reflexivity.
  - destruct (db_unhide K item (world s)) as [[r|e] w]; reflexivity.
  - intros value. destruct (db_makeVisible K item value (world s)) as [[r|e] w]; reflexivity.
  - intros agent. destruct (db_removeItem K item agent (world s)) as [[r|e] w]; reflexivity.
  - intros to. destruct (db_replaceItem K item to (world s)) as [[r|e] w]; reflexivity.
  - intros model agent Hres.
    destruct (db_addItem K model (default user agent) (world s)) as [[r|e] w] eqn:E;
      [|reflexivity].
    rewrite (Hres r w eq_refl). reflexivity.
Qed.

(** *** The state during a body

    No method replaces the transaction of the state by anything but a
    transaction: after a body made of calls to the methods, the local
    [transaction] of [transaction] is the one the state holds. *)

Lemma call_state {A} (ev : Event) (op : W -> Outcome A * W) (s : ContourManager W) :
  state (snd (call ev op s)) = state s.
Proof. unfold call. destruct (op (world s)); reflexivity. Qed.

Lemma addCurve_keeps_transaction (curve : Item) (s : ContourManager W) (tx : Transaction) :
  state s = in_transaction tx ->
  exists tx', state (snd (addCurve K curve s)) = in_transaction tx'.
Proof.
  intros Hs. unfold addCurve, bind, get_state; rewrite Hs; simpl. eauto.
Qed.

Lemma removeCurve_keeps_transaction (curve : Item) (s : ContourManager W) (tx : Transaction) :
  state s = in_transaction tx ->
  exists tx', state (snd (removeCurve K curve s)) = in_transaction tx'.
Proof.
  intros Hs. unfold removeCurve, bind, get_state; rewrite Hs. unfold cascade.
  destruct (curves_cascade K curve tx (world s)) as [r [tx' w]]; simpl. eauto.
Qed.

Lemma follow_keeps_transaction (routes : list Route) (s : ContourManager W) (tx : Transaction) :
  state s = in_transaction tx ->
  exists tx', state (snd (follow K routes s)) = in_transaction tx'.
Proof.
  revert s tx; induction routes as [|[c|c] routes IH]; intros s tx Hs; simpl; [eauto|..].
  - destruct (addCurve_keeps_transaction c s tx Hs) as [tx1 H1].
    unfold bind. destruct (addCurve K c s) as [[[]|e] s1]; simpl in *; eauto.
  - destruct (removeCurve_keeps_transaction c s tx Hs) as [tx1 H1].
    unfold bind. destruct (removeCurve K c s) as [[[]|e] s1]; simpl in *; eauto.
Qed.

Lemma routed_keeps_transaction {A} (ev : Event) (op : W -> Outcome A * W)
    (routes : A -> list Route) (s : ContourManager W) (tx : Transaction) :
  state s = in_transaction tx ->
  exists tx', state (snd (routed K (call ev op) routes s)) = in_transaction tx'.
Proof.
  intros Hs. unfold routed, bind at 1.
  pose proof (call_state ev op s) as Hc.
  destruct (call ev op s) as [[a|e] s1]; simpl in *; [|rewrite Hc; eauto].
  rewrite Hs in Hc.
  destruct (follow_keeps_transaction (routes a) s1 tx Hc) as [tx1 H1].
  unfold bind, ret. destruct (follow K (routes a) s1) as [[[]|e] s2]; simpl in *; eauto.
Qed.

(** *** [unhideAll] *)

(** An awaited [addCurve] is the call started and then resumed twice. *)
Lemma addCurve_started_resumed (curve : Item) (s : ContourManager W) :
  let (p0, s0) := addCurve_start K curve s in
  let (p1, s1) := addCurve_resume K p0 s0 in
  let (p2, s2) := addCurve_resume K p1 s1 in
  exists r, p2 = settled r /\ addCurve K curve s = (r, s2).
Proof.
  unfold addCurve_start, addCurve.
  rewrite (bind_Return get_state _ s s (state s) eq_refl).
  destruct (state s) as [|tx] eqn:Hs.
  - destruct (call (curves_add_called curve) (curves_add K curve) s) as [[[]|e] sa] eqn:Ea.
    + rewrite (bind_Return _ _ _ _ _ Ea). simpl.
      destruct ((info <- lookup K (ByCurve curve);; placement_of info) sa)
        as [[p|e] s1] eqn:E.
      * destruct (call (regions_updatePlacement_called p) (regions_updatePlacement K p) s1)
          as [r s2] eqn:Eu. simpl.
        exists r; split; [reflexivity|].
        rewrite <- (bind_assoc (lookup K (ByCurve curve)) placement_of).
        rewrite (bind_Return _ _ _ _ _ E). exact Eu.
      * simpl. exists (Throw e); split; [reflexivity|].
        rewrite <- (bind_assoc (lookup K (ByCurve curve)) placement_of).
        rewrite (bind_Throw _ _ _ _ _ E). reflexivity.
    + rewrite (bind_Throw _ _ _ _ _ Ea). simpl.
      exists (Throw e); split; reflexivity.
  - simpl. exists (Return tt); split; reflexivity.
Qed.

(** Idle, every started call has made its call to [curves.add] and is
    suspended there. *)
Lemma start_all_idle (curves : list Item) (s : ContourManager W) :
  state s = none ->
  state (snd (start_all K curves s)) = none
  /\ trace (snd (start_all K curves s)) = trace s ++ (curves_add_called <$> curves)
  /\ Forall is_awaiting_add (fst (start_all K curves s))
  /\ length (fst (start_all K curves s)) = length curves.
Proof.
  revert s; induction curves as [|c curves IH]; intros s Hs; simpl.
  - repeat split; [assumption|symmetry; apply app_nil_r|constructor].
  - unfold addCurve_start; rewrite Hs. unfold call.
    destruct (curves_add K c (world s)) as [r w].
    match goal with |- context [start_all K curves ?s1] =>
      destruct (IH s1 Hs) as (H1 & H2 & H3 & H4);
      destruct (start_all K curves s1) as [ps s2] end.
    simpl in *. repeat split.
    + assumption.
    + rewrite H2, <- app_assoc; reflexivity.
    + constructor; [exact I|assumption].
    + rewrite H4; reflexivity.
Qed.

(** Resumed after [curves.add], the calls that are not rejected have
    each made one call to [updatePlacement] and are suspended there. *)
Lemma resume_all_after_add (promises : list Promise) (s : ContourManager W) :
  Forall is_awaiting_add promises ->
  state (snd (resume_all K promises s)) = state s
  /\ exists ps,
      trace (snd (resume_all K promises s))
      = trace s ++ (regions_updatePlacement_called <$> ps)
      /\ (rejection (fst (resume_all K promises s)) = None ->
          length ps = length promises
          /\ Forall is_awaiting_updatePlacement (fst (resume_all K promises s))).
Proof.
  revert s; induction promises as [|p promises IH]; intros s Hall; simpl.
  - split; [reflexivity|]. exists []; split; [symmetry; apply app_nil_r|].
    intros _; split; [reflexivity|constructor].
  - inversion Hall as [|p' l' Hp Hrest]; subst.
    destruct p as [r|c r|r]; try contradiction. simpl.
    destruct r as [[]|e].
    + unfold bind, lookup, placement_of.
      destruct (curves_lookup K (ByCurve c) (world s)) as [info| |e]; simpl.
      * unfold call. destruct (regions_updatePlacement K (placement info) (world s)) as [r w].
        match goal with |- context [resume_all K promises ?s1] =>
          destruct (IH s1 Hrest) as (H1 & ps & H2 & H3);
          destruct (resume_all K promises s1) as [qs s2] end.
        simpl in *. split; [assumption|].
        exists (placement info :: ps). split.
        -- rewrite H2, <- app_assoc; reflexivity.
        -- intros Hrej. destruct (H3 Hrej) as [H4 H5].
           split; [simpl; rewrite H4; reflexivity|constructor; [exact I|assumption]].
      * unfold throw.
        destruct (IH s Hrest) as (H1 & ps & H2 & H3).
        destruct (resume_all K promises s) as [qs s2].
        simpl in *. split; [assumption|].
        exists ps; split; [assumption|discriminate].
      * destruct (IH s Hrest) as (H1 & ps & H2 & H3).
        destruct (resume_all K promises s) as [qs s2].
        simpl in *. split; [assumption|].
        exists ps; split; [assumption|discriminate].
    + destruct (IH s Hrest) as (H1 & ps & H2 & H3).
      destruct (resume_all K promises s) as [qs s2].
      simpl in *. split; [assumption|].
      exists ps; split; [assumption|discriminate].
Qed.

(** Resumed after [updatePlacement], the calls end and do nothing more. *)
Lemma resume_all_after_updatePlacement (promises : list Promise) (s : ContourManager W) :
  Forall is_awaiting_updatePlacement promises ->
  snd (resume_all K promises s) = s.
Proof.
  induction promises as [|p promises IH]; intros Hall; simpl; [reflexivity|].
  inversion Hall as [|p' l' Hp Hrest]; subst.
  destruct p as [r|c r|r]; try contradiction. simpl.
  specialize (IH Hrest). destruct (resume_all K promises s) as [qs s2]. exact IH.
Qed.

Ltac refold_fmap :=
  repeat match goal with
         | |- context [list_fmap ?A ?B ?f ?l] => change (list_fmap A B f l) with (f <$> l)
         end.

(** Idle, when every [curves.add] returns, the started calls are all
    suspended at a [curves.add] that returned. *)
Lemma start_all_add_each (curves : list Item) (s : ContourManager W) (w1 : W) :
  state s = none ->
  add_each K curves (world s) = Some w1 ->
  start_all K curves s
  = ((fun c => awaiting_add c (Return tt)) <$> curves,
     {| state := none; world := w1;
        trace := trace s ++ (curves_add_called <$> curves) |}).
Proof.
  revert s; induction curves as [|c curves IH]; intros s Hs Hadd; simpl in *.
  - injection Hadd as <-. rewrite app_nil_r, <- Hs. destruct s; reflexivity.
  - unfold addCurve_start; rewrite Hs. rewrite call_run, Hs.
    destruct (curves_add K c (world s)) as [[[]|e] w]; [|discriminate]. simpl.
    refold_fmap.
    rewrite (IH {| state := none; world := w; trace := trace s ++ [curves_add_called c] |}
               eq_refl Hadd).
    simpl. rewrite <- app_assoc. reflexivity.
Qed.

(** Resumed, when every lookup finds a record and every rebuild
    returns, they are all suspended at an [updatePlacement] that
    returned, of the placement of the record found. *)
Lemma resume_all_rebuild_each (curves : list Item) (s : ContourManager W)
    (ps : list Placement3D) (w2 : W) :
  rebuild_each K curves (world s) = Some (ps, w2) ->
  resume_all K ((fun c => awaiting_add c (Return tt)) <$> curves) s
  = ((fun _ => awaiting_updatePlacement (Return tt)) <$> curves,
     {| state := state s; world := w2;
        trace := trace s ++ (regions_updatePlacement_called <$> ps) |}).
Proof.
  revert s ps; induction curves as [|c curves IH]; intros s ps Hre; simpl in *.
  - injection Hre as <- <-. rewrite app_nil_r. destruct s; reflexivity.
  - unfold bind, lookup, placement_of.
    destruct (curves_lookup K (ByCurve c) (world s)) as [info| |e]; try discriminate.
    simpl. rewrite call_run.
    destruct (regions_updatePlacement K (placement info) (world s)) as [[[]|e] w];
      [|discriminate].
    destruct (rebuild_each K curves w) as [[qs w']|] eqn:Hrest; [|discriminate].
    injection Hre as <- <-. simpl. refold_fmap.
    rewrite (IH {| state := state s; world := w;
                   trace := trace s ++ [regions_updatePlacement_called (placement info)] |}
               qs Hrest).
    simpl. rewrite <- app_assoc. reflexivity.
Qed.

Lemma resume_all_finish (curves : list Item) (s : ContourManager W) :
  resume_all K ((fun _ : Item => awaiting_updatePlacement (Return tt)) <$> curves) s
  = ((fun _ => settled (Return tt)) <$> curves, s).
Proof.
  induction curves as [|c curves IH]; simpl; [reflexivity|].
  refold_fmap. rewrite IH. reflexivity.
Qed.

Lemma rebuild_each_length (curves : list Item) (w w2 : W) (ps : list Placement3D) :
  rebuild_each K curves w = Some (ps, w2) -> length ps = length curves.
Proof.
  revert w ps; induction curves as [|c curves IH]; intros w ps Hre; simpl in *.
  - injection Hre as <- _. reflexivity.
  - destruct (curves_lookup K (ByCurve c) w) as [info| |e]; try discriminate.
    destruct (regions_updatePlacement K (placement info) w) as [[[]|e] w']; [|discriminate].
    destruct (rebuild_each K curves w') as [[qs w'']|] eqn:Hrest; [|discriminate].
    injection Hre as <- <-. simpl. rewrite (IH _ _ Hrest). reflexivity.
Qed.

(** A [curves.add] that throws rejects its call, whatever the others do. *)
Lemma add_each_rejected (curves : list Item) (s s' : ContourManager W) :
  state s = none ->
  add_each K curves (world s) = None ->
  rejection (fst (resume_all K (fst (start_all K curves s)) s')) <> None.
Proof.
  revert s s'; induction curves as [|c curves IH]; intros s s' Hs Hadd; simpl in *;
    [discriminate|].
  unfold addCurve_start; rewrite Hs. rewrite call_run, Hs.
  destruct (curves_add K c (world s)) as [[[]|e] w] eqn:Ea; simpl.
  - match goal with |- context [start_all K curves ?s1] =>
      pose proof (fun s'' => IH s1 s'' eq_refl Hadd) as IH';
      destruct (start_all K curves s1) as [started s0] end.
    simpl in *.
    destruct ((info <- lookup K (ByCurve c);; placement_of info) s') as [[p|e] s1'].
    + destruct (call (regions_updatePlacement_called p) (regions_updatePlacement K p) s1')
        as [r s2'].
      specialize (IH' s2'). destruct (resume_all K started s2') as [resumed s3]. exact IH'.
    + destruct (resume_all K started s1') as [resumed s3]. simpl. discriminate.
  - destruct (start_all K curves _) as [started s0]. simpl.
    destruct (resume_all K started s') as [resumed s3]. simpl. discriminate.
Qed.

(** A lookup that finds no record, or a rebuild that throws, rejects
    its call: at the first resumption, or at the second. *)
Lemma rebuild_each_rejected (curves : list Item) (s s' : ContourManager W) :
  rebuild_each K curves (world s) = None ->
  rejection (fst (resume_all K ((fun c => awaiting_add c (Return tt)) <$> curves) s)) = None ->
  rejection
    (fst (resume_all K
            (fst (resume_all K ((fun c => awaiting_add c (Return tt)) <$> curves) s)) s'))
  <> None.
Proof.
  revert s s'; induction curves as [|c curves IH]; intros s s' Hre; simpl in *;
    [discriminate|].
  unfold bind, lookup, placement_of.
  destruct (curves_lookup K (ByCurve c) (world s)) as [info| |e]; simpl.
  - rewrite call_run.
    destruct (regions_updatePlacement K (placement info) (world s)) as [[[]|e] w] eqn:Eu;
      simpl.
    + destruct (rebuild_each K curves w) as [[qs w']|] eqn:Hrest; [discriminate|].
      refold_fmap.
      match goal with |- context [resume_all K _ ?s1] =>
        pose proof (fun s'' => IH s1 s'' Hrest) as IH';
        destruct (resume_all K ((fun c => awaiting_add c (Return tt)) <$> curves) s1)
          as [resumed s2] end.
      simpl in *. intros Hrej. specialize (IH' s' Hrej).
      destruct (resume_all K resumed s') as [finished s3]. exact IH'.
    + destruct (resume_all K _ _) as [resumed s2]. simpl. intros _.
      destruct (resume_all K resumed s') as [finished s3]. simpl. discriminate.
  - unfold throw. destruct (resume_all K _ s) as [resumed s2]. simpl. discriminate.
  - destruct (resume_all K _ s) as [resumed s2]. simpl. discriminate.
Qed.

Lemma rejection_awaiting_add (curves : list Item) :
  rejection ((fun c => awaiting_add c (Return tt)) <$> curves) = None.
Proof. induction curves; simpl; auto. Qed.

Lemma rejection_awaiting_updatePlacement (curves : list Item) :
  rejection ((fun _ : Item => awaiting_updatePlacement (Return tt)) <$> curves) = None.
Proof. induction curves; simpl; auto. Qed.

Lemma rejection_settled (curves : list Item) :
  rejection ((fun _ : Item => settled (Return tt)) <$> curves) = None.
Proof. induction curves; simpl; auto. Qed.

(** C10 ([unhideAll] bypasses the transaction wrapper).  Called idle,
    with [unhidden] what the database unhides, [unhideAll] returns
    exactly when every unhidden [SpaceInstance] is registered with the
    index, has a record there and has the placement of that record
    rebuilt.  It then returns [unhidden] and has stayed idle, and it has
    added to the trace the call to the database, one call to
    [curves.add] for every unhidden [SpaceInstance], in order, and one
    call to [updatePlacement] for each of these curves, on the placement
    of its record, in order: as many rebuilds as curves, and no call to
    [commit]. *)
Theorem unhideAll_bypasses_transaction (s : ContourManager W) (unhidden : list Item) (w0 : W) :
  state s = none ->
  db_unhideAll K (world s) = (Return unhidden, w0) ->
  let curves := filter (fun item => instanceof item SpaceInstance = true) unhidden in
  forall r s',
    unhideAll K s = (Return r, s')
    <-> r = unhidden
        /\ exists w1 ps w2,
             add_each K curves w0 = Some w1
             /\ rebuild_each K curves w1 = Some (ps, w2)
             /\ length ps = length curves
             /\ s' = {| state := none; world := w2;
                        trace := trace s
                                 ++ db_unhideAll_called
                                 :: (curves_add_called <$> curves)
                                 ++ (regions_updatePlacement_called <$> ps) |}.
Proof.
  intros Hs Hdb curves r s'.
  unfold unhideAll, bind. rewrite call_run, Hdb. simpl. fold curves.
  set (sa := {| state := state s; world := w0; trace := trace s ++ [db_unhideAll_called] |}).
  destruct (add_each K curves w0) as [w1|] eqn:Hadd.
  - rewrite (start_all_add_each curves sa w1 Hs Hadd).
    set (s0 := {| state := none; world := w1;
                  trace := trace sa ++ (curves_add_called <$> curves) |}).
    destruct (rebuild_each K curves w1) as [[ps w2]|] eqn:Hre.
    + rewrite (resume_all_rebuild_each curves s0 ps w2 Hre).
      rewrite resume_all_finish.
      rewrite rejection_awaiting_add, rejection_awaiting_updatePlacement, rejection_settled.
      unfold s0, sa; simpl. rewrite <- !app_assoc. simpl. split.
      * intros [= <- <-]. split; [reflexivity|].
        exists w1, ps, w2. split; [reflexivity|]. split; [exact Hre|].
        split; [exact (rebuild_each_length _ _ _ _ Hre)|reflexivity].
      * intros (-> & w1' & ps' & w2' & [= <-] & Hre' & _ & ->).
        rewrite Hre in Hre'. injection Hre' as <- <-. reflexivity.
    + pose proof (rebuild_each_rejected curves s0) as Hrej.
      destruct (resume_all K ((fun c => awaiting_add c (Return tt)) <$> curves) s0)
        as [resumed s1] eqn:E1.
      specialize (Hrej s1 Hre). simpl in Hrej.
      destruct (resume_all K resumed s1) as [finished s2] eqn:E2. simpl in Hrej.
      rewrite rejection_awaiting_add. split.
      * destruct (rejection resumed); [discriminate|].
        destruct (rejection finished); [discriminate|].
        exfalso. apply Hrej; reflexivity.
      * intros (_ & w1' & ps' & w2' & [= <-] & Hre' & _).
        rewrite Hre in Hre'. discriminate.
  - pose proof (add_each_rejected curves sa) as Hrej.
    destruct (start_all K curves sa) as [started s0] eqn:E0.
    specialize (Hrej s0 Hs Hadd). simpl in Hrej.
    destruct (resume_all K started s0) as [resumed s1] eqn:E1. simpl in Hrej.
    destruct (resume_all K resumed s1) as [finished s2] eqn:E2. split.
    + destruct (rejection started); [discriminate|].
      destruct (rejection resumed); [|exfalso; apply Hrej; reflexivity].
      discriminate.
    + intros (_ & w1' & ps' & w2' & [=] & _).
Qed.

End TransactionLaws.

(** ** The cascade of the specification *)

Section Cascade.

Context {R : Type}.
Variable K : Collaborators (gmap Z CurveInfo) R.

Local Open Scope cm_scope.

Lemma elem_of_set_add (x y : Z) (l : list Z) :
  x ∈ set_add y l <-> x = y \/ x ∈ l.
Proof.
  unfold set_add. case_decide as Hy.
  - split; [auto|]. intros [->|]; assumption.
  - rewrite elem_of_app, list_elem_of_singleton. tauto.
Qed.

Lemma elem_of_dirty_add (x c' : Z) (del dty : list Z) :
  x ∈ dirty_add del dty c' <-> x ∈ dty \/ (x = c' /\ c' ∉ del).
Proof.
  unfold dirty_add. case_decide as Hc.
  - split; [auto|]. intros [|[_ ?]]; [assumption|contradiction].
  - rewrite elem_of_set_add. split.
    + intros [->|]; auto.
    + intros [|[-> _]]; auto.
Qed.

Lemma elem_of_foldl_dirty_add (x : Z) (del dty ns : list Z) :
  x ∈ foldl (dirty_add del) dty ns <-> x ∈ dty \/ (x ∈ ns /\ x ∉ del).
Proof.
  revert dty; induction ns as [|n ns IH]; intros dty; simpl.
  - split; [auto|]. intros [|[[]%elem_of_nil _]]; assumption.
  - rewrite IH, elem_of_dirty_add, elem_of_cons. split.
    + intros [[|[-> ?]]|[? ?]]; auto.
    + intros [|[[->|] ?]]; auto.
Qed.

(** One cascade: the curve is deleted; the dirty curves are those that
    were dirty and the neighbours of the curve, the deleted ones left
    out. *)
Lemma elem_of_deleted_cascaded (x c : Z) (info : CurveInfo) (tx : Transaction) :
  x ∈ deleted (cascaded c info tx) <-> x = c \/ x ∈ deleted tx.
Proof. apply elem_of_set_add. Qed.

Lemma elem_of_dirty_cascaded (x c : Z) (info : CurveInfo) (tx : Transaction) :
  x ∈ dirty (cascaded c info tx)
  <-> (x ∈ dirty tx \/ x ∈ neighbours c info) /\ x <> c /\ x ∉ deleted tx.
Proof.
  unfold cascaded; simpl.
  rewrite list_elem_of_filter, elem_of_foldl_dirty_add, elem_of_set_add. tauto.
Qed.

(** A cascade leaves no curve both deleted and dirty. *)
Lemma deleted_dirty_cascaded (c : Z) (info : CurveInfo) (tx : Transaction) :
  deleted (cascaded c info tx) ## dirty (cascaded c info tx).
Proof.
  intros x. rewrite elem_of_deleted_cascaded, elem_of_dirty_cascaded. tauto.
Qed.

(** A body of removals of known curves runs to its end and leaves the
    transaction that the cascades build. *)
Lemma body_removals (curves : list Item) (s : ContourManager (gmap Z CurveInfo))
    (tx : Transaction) :
  state s = in_transaction tx ->
  Forall (fun c => is_Some (world s !! simpleName c)) curves ->
  body (with_index K) (remove <$> curves) s
  = (Return tt,
     {| state := in_transaction (foldl (fun tx c => apply_op (world s) (remove c) tx) tx curves);
        world := world s;
        trace := trace s ++ (curves_cascade_called <$> curves) |}).
Proof.
  revert s tx; induction curves as [|c curves IH]; intros s tx Hs Hknown; simpl.
  - unfold ret. rewrite app_nil_r, <- Hs. destruct s; reflexivity.
  - inversion Hknown as [|c' l' [info Hc] Hrest]; subst.
    unfold bind at 1, removeCurve, bind at 1, get_state; rewrite Hs.
    unfold cascade; simpl. unfold index_cascade; rewrite Hc.
    rewrite IH with (tx := cascaded (simpleName c) info tx); [|reflexivity|assumption].
    simpl. rewrite <- app_assoc. reflexivity.
Qed.

(** After a batch of removals: the deleted curves are the removed ones,
    and the dirty curves are the curves jointed to a removed one that
    are not deleted. *)
Lemma removals_deleted (index : gmap Z CurveInfo) (curves : list Item) (tx : Transaction)
    (x : Z) :
  Forall (fun c => is_Some (index !! simpleName c)) curves ->
  x ∈ deleted (foldl (fun tx c => apply_op index (remove c) tx) tx curves)
  <-> x ∈ deleted tx \/ x ∈ simpleName <$> curves.
Proof.
  revert tx; induction curves as [|c curves IH]; intros tx Hknown; simpl.
  - split; [auto|]. intros [|[]%elem_of_nil]; assumption.
  - inversion Hknown as [|c' l' [info Hc] Hrest]; subst.
    rewrite IH by assumption. rewrite Hc, elem_of_deleted_cascaded, elem_of_cons. tauto.
Qed.

Lemma jointed_to_cons (index : gmap Z CurveInfo) (c : Z) (info : CurveInfo)
    (names : list Z) (x : Z) :
  index !! c = Some info ->
  jointed_to index (c :: names) x <-> x ∈ neighbours c info \/ jointed_to index names x.
Proof.
  intros Hc. split.
  - intros (y & i & [->|Hy]%elem_of_cons & Hi & Hn).
    + rewrite Hc in Hi; injection Hi as <-. left; assumption.
    + right; exists y, i; auto.
  - intros [Hn|(y & i & Hy & Hi & Hn)].
    + exists c, info; repeat split; [left|assumption..].
    + exists y, i; repeat split; [right|..]; assumption.
Qed.

Lemma removals_dirty (index : gmap Z CurveInfo) (curves : list Item) (tx : Transaction)
    (x : Z) :
  Forall (fun c => is_Some (index !! simpleName c)) curves ->
  deleted tx ## dirty tx ->
  x ∈ dirty (foldl (fun tx c => apply_op index (remove c) tx) tx curves)
  <-> (x ∉ deleted (foldl (fun tx c => apply_op index (remove c) tx) tx curves))
      /\ (x ∈ dirty tx \/ jointed_to index (simpleName <$> curves) x).
Proof.
  revert tx; induction curves as [|c curves IH]; intros tx Hknown Hdis; simpl.
  - split.
    + intros Hx. split; [|left; assumption]. intros Hd; apply (Hdis x); assumption.
    + intros [_ [Hx|(y & i & []%elem_of_nil & _)]]. assumption.
  - inversion Hknown as [|c' l' [info Hc] Hrest]; subst.
    rewrite Hc.
    rewrite (IH (cascaded (simpleName c) info tx) Hrest (deleted_dirty_cascaded _ _ _)).
    rewrite (jointed_to_cons index (simpleName c) info _ x Hc).
    rewrite elem_of_dirty_cascaded.
    pose proof (removals_deleted index curves (cascaded (simpleName c) info tx) x Hrest)
      as Hdel.
    rewrite elem_of_deleted_cascaded in Hdel.
    tauto.
Qed.

(** The lookup of a known name does not throw. *)
Lemma index_lookup_known (name : Z) (index : gmap Z CurveInfo) (e : Error) :
  is_Some (index !! name) ->
  curves_lookup (with_index K) (ByName name) index <> Raises e.
Proof. intros [info Hi]. simpl. rewrite Hi. discriminate. Qed.

Lemma index_lookup_unknown (name : Z) (index : gmap Z CurveInfo) :
  index !! name = None ->
  curves_lookup (with_index K) (ByName name) index = Raises (NotFound name).
Proof. intros Hi. simpl. rewrite Hi. reflexivity. Qed.

(** A transaction whose body removes known curves whose joints lead to
    known curves: its trace up to the commit, and the transaction that
    is committed. *)
Lemma transaction_of_removals (curves : list Item) (s : ContourManager (gmap Z CurveInfo)) :
  state s = none ->
  Forall (fun c => is_Some (world s !! simpleName c)) curves ->
  joints_known (world s) (simpleName <$> curves) ->
  exists rest,
    trace (snd (transaction (with_index K) (body (with_index K) (remove <$> curves)) s))
    = trace s
      ++ (curves_cascade_called <$> curves)
      ++ curves_commit_called
           (foldl (fun tx c => apply_op (world s) (remove c) tx) empty_transaction curves)
         :: rest.
Proof.
  intros Hs Hknown Hjoints.
  pose proof (body_removals curves (entered s) empty_transaction eq_refl Hknown) as Hbody.
  rewrite (transaction_body_returned _ _ _ _ _ Hs Hbody eq_refl). simpl.
  match goal with |- context [commit_and_rebuild _ ?tx ?s2] =>
    destruct (commit_reached_when (with_index K) tx s2) as (ps & _ & Hps) end.
  { intros x e Hx. apply index_lookup_known. cbn [world].
    apply elem_of_app in Hx as [Hx|Hx].
    - apply removals_dirty in Hx as [_ [[]%elem_of_nil|(y & i & Hy & Hi & Hn)]];
        [|assumption|intros z []%elem_of_nil].
      exact (Hjoints y i Hy Hi x Hn).
    - apply removals_deleted in Hx as [[]%elem_of_nil|Hx]; [|assumption].
      apply list_elem_of_fmap in Hx as (c & -> & Hc).
      rewrite Forall_forall in Hknown. exact (Hknown c Hc). }
  eexists. rewrite Hps. simpl. rewrite <- app_assoc. reflexivity.
Qed.

Lemma jointed_to_perm (index : gmap Z CurveInfo) (names names' : list Z) (x : Z) :
  names ≡ₚ names' -> jointed_to index names x -> jointed_to index names' x.
Proof.
  intros Hperm (y & i & Hy & Hi & Hn). exists y, i. rewrite <- Hperm. auto.
Qed.

Lemma joints_known_perm (index : gmap Z CurveInfo) (names names' : list Z) :
  names ≡ₚ names' -> joints_known index names -> joints_known index names'.
Proof.
  intros Hperm Hknown x info Hx. apply Hknown. rewrite Hperm. assumption.
Qed.

(** Joints that stay among known curves lead to known curves. *)
Lemma joints_within_known (index : gmap Z CurveInfo) (names : list Z) :
  Forall (fun x => is_Some (index !! x)) names ->
  joints_within index names -> joints_known index names.
Proof.
  intros Hknown Hwithin x info Hx Hi y Hy.
  rewrite Forall_forall in Hknown. apply Hknown. exact (Hwithin x info Hx Hi y Hy).
Qed.

(** C1 as amended (cascade completeness with deletion precedence).  Let
    A and B be jointed, and B and C.  A body that removes B and C, in
    either order, ends with A dirty and not deleted.  A body that
    removes A, B and C, in any order, ends with the three curves
    deleted and with, as dirty curves, exactly the other curves jointed
    to one of the three: none of A, B and C, and none at all when no
    joint of the three leads to a fourth curve.  In both cases the
    transaction with this body commits the transaction its body ends
    with as soon as the joints of the removed curves lead to curves the
    index knows, which they do when none leads to a fourth curve. *)
Theorem cascade_completeness (a b c : Item) (s : ContourManager (gmap Z CurveInfo)) :
  state s = none ->
  jointed (world s) (simpleName a) (simpleName b) ->
  jointed (world s) (simpleName b) (simpleName c) ->
  simpleName a <> simpleName b ->
  simpleName a <> simpleName c ->
  (forall order, order ≡ₚ [b; c] ->
     exists tx,
       body (with_index K) (remove <$> order) (entered s)
       = (Return tt,
          {| state := in_transaction tx; world := world s;
             trace := trace s ++ (curves_cascade_called <$> order) |})
       /\ simpleName a ∈ dirty tx
       /\ (simpleName a ∉ deleted tx)
       /\ (joints_known (world s) [simpleName b; simpleName c] ->
           exists rest,
             trace (snd (transaction (with_index K)
                           (body (with_index K) (remove <$> order)) s))
             = trace s ++ (curves_cascade_called <$> order)
                 ++ curves_commit_called tx :: rest))
  /\ (forall order, order ≡ₚ [a; b; c] ->
        exists tx,
          body (with_index K) (remove <$> order) (entered s)
          = (Return tt,
             {| state := in_transaction tx; world := world s;
                trace := trace s ++ (curves_cascade_called <$> order) |})
          /\ (forall x, x ∈ deleted tx <-> x ∈ [simpleName a; simpleName b; simpleName c])
          /\ (forall x, x ∈ dirty tx
                        <-> (x ∉ [simpleName a; simpleName b; simpleName c])
                            /\ jointed_to (world s)
                                 [simpleName a; simpleName b; simpleName c] x)
          /\ (joints_known (world s) [simpleName a; simpleName b; simpleName c] ->
              exists rest,
                trace (snd (transaction (with_index K)
                              (body (with_index K) (remove <$> order)) s))
                = trace s ++ (curves_cascade_called <$> order)
                    ++ curves_commit_called tx :: rest)
          /\ (joints_within (world s) [simpleName a; simpleName b; simpleName c] ->
              dirty tx = []
              /\ exists rest,
                  trace (snd (transaction (with_index K)
                                (body (with_index K) (remove <$> order)) s))
                  = trace s ++ (curves_cascade_called <$> order)
                      ++ curves_commit_called tx :: rest)).
Proof.
  intros Hs (iA & iB & HA & HB & HAB & HBA) (iB' & iC & HB' & HC & HBC & HCB) Hab Hac.
  rewrite HB in HB'; injection HB' as <-.
  assert (Hempty : deleted empty_transaction ## dirty empty_transaction)
    by (intros x []%elem_of_nil).
  split.
  - intros order Hperm.
    assert (Hknown : Forall (fun c => is_Some (world s !! simpleName c)) order).
    { rewrite Hperm. repeat constructor; eauto. }
    assert (Hp : simpleName <$> order ≡ₚ [simpleName b; simpleName c])
      by (rewrite Hperm; reflexivity).
    exists (foldl (fun tx c => apply_op (world s) (remove c) tx) empty_transaction order).
    split; [exact (body_removals order (entered s) empty_transaction eq_refl Hknown)|].
    assert (Hnot : simpleName a ∉ simpleName <$> order).
    { rewrite Hp. intros [?|[?|[]%elem_of_nil]%elem_of_cons]%elem_of_cons;
        contradiction. }
    assert (Hdel : simpleName a
                   ∉ deleted (foldl (fun tx c => apply_op (world s) (remove c) tx)
                                empty_transaction order)).
    { rewrite removals_deleted by assumption. intros [[]%elem_of_nil|?]; contradiction. }
    split; [|split; [exact Hdel|]].
    + apply removals_dirty; [assumption..|]. split; [exact Hdel|]. right.
      apply (jointed_to_perm (world s) [simpleName b; simpleName c]);
        [symmetry; exact Hp|].
      exists (simpleName b), iB. repeat split; [left|assumption..].
    + intros Hjoints. apply (transaction_of_removals order s Hs Hknown).
      exact (joints_known_perm _ _ _ (symmetry Hp) Hjoints).
  - intros order Hperm.
    assert (Hknown : Forall (fun c => is_Some (world s !! simpleName c)) order).
    { rewrite Hperm. repeat constructor; eauto. }
    assert (Hp : simpleName <$> order ≡ₚ [simpleName a; simpleName b; simpleName c])
      by (rewrite Hperm; reflexivity).
    exists (foldl (fun tx c => apply_op (world s) (remove c) tx) empty_transaction order).
    split; [exact (body_removals order (entered s) empty_transaction eq_refl Hknown)|].
    assert (Hdel : forall x,
      x ∈ deleted (foldl (fun tx c => apply_op (world s) (remove c) tx)
                     empty_transaction order)
      <-> x ∈ [simpleName a; simpleName b; simpleName c]).
    { intros x. rewrite removals_deleted by assumption. rewrite Hp.
      split; [intros [[]%elem_of_nil|?]; assumption|auto]. }
    assert (Hdty : forall x,
      x ∈ dirty (foldl (fun tx c => apply_op (world s) (remove c) tx)
                   empty_transaction order)
      <-> (x ∉ [simpleName a; simpleName b; simpleName c])
          /\ jointed_to (world s) [simpleName a; simpleName b; simpleName c] x).
    { intros x. rewrite removals_dirty by assumption. rewrite Hdel.
      split.
      - intros [Hx [[]%elem_of_nil|Hj]]. split; [assumption|].
        exact (jointed_to_perm _ _ _ x Hp Hj).
      - intros [Hx Hj]. split; [assumption|]. right.
        exact (jointed_to_perm _ _ _ x (symmetry Hp) Hj). }
    assert (Hcommit : joints_known (world s) [simpleName a; simpleName b; simpleName c] ->
      exists rest,
        trace (snd (transaction (with_index K) (body (with_index K) (remove <$> order)) s))
        = trace s ++ (curves_cascade_called <$> order)
            ++ curves_commit_called
                 (foldl (fun tx c => apply_op (world s) (remove c) tx)
                    empty_transaction order)
               :: rest).
    { intros Hjoints. apply (transaction_of_removals order s Hs Hknown).
      exact (joints_known_perm _ _ _ (symmetry Hp) Hjoints). }
    split; [exact Hdel|]. split; [exact Hdty|]. split; [exact Hcommit|].
    intros Hwithin. split.
    + apply elem_of_nil_inv. intros x [Hx (y & i & Hy & Hi & Hn)]%Hdty.
      apply Hx. exact (Hwithin y i Hy Hi x Hn).
    + apply Hcommit, joints_within_known; [|exact Hwithin].
      repeat constructor; eauto.
Qed.

Lemma pairwise_disjoint_added_add (name : Z) (tx : Transaction) :
  pairwise_disjoint tx ->
  name ∉ deleted tx -> name ∉ dirty tx ->
  pairwise_disjoint (added_add name tx).
Proof.
  intros (H1 & H2 & H3) Hdel Hdty. unfold pairwise_disjoint; simpl.
  repeat split; [| |assumption].
  - intros x [->|Hx]%elem_of_set_add ?; [contradiction|]. apply (H1 x); assumption.
  - intros x [->|Hx]%elem_of_set_add ?; [contradiction|]. apply (H2 x); assumption.
Qed.

Lemma pairwise_disjoint_cascaded (c : Z) (info : CurveInfo) (tx : Transaction) :
  pairwise_disjoint tx ->
  c ∉ added tx ->
  (forall c', c' ∈ neighbours c info -> c' ∉ added tx) ->
  pairwise_disjoint (cascaded c info tx).
Proof.
  intros (H1 & H2 & H3) Hadd Hnb. unfold pairwise_disjoint.
  split; [|split; [|apply deleted_dirty_cascaded]]; intros x.
  - change (added (cascaded c info tx)) with (added tx).
    rewrite elem_of_deleted_cascaded. intros Hx [->|Hd]; [contradiction|].
    apply (H1 x); assumption.
  - change (added (cascaded c info tx)) with (added tx).
    rewrite elem_of_dirty_cascaded. intros Hx ([Hd|Hn] & _).
    + apply (H2 x); assumption.
    + apply (Hnb x); assumption.
Qed.

Lemma all_separate_take (index : gmap Z CurveInfo) (ops : list Op) (tx : Transaction)
    (n : nat) :
  all_separate index tx ops -> all_separate index tx (take n ops).
Proof.
  revert tx n; induction ops as [|op ops IH]; intros tx [|n]; simpl; auto.
  intros [? ?]; split; auto.
Qed.

(** Whatever the calls, no curve is both deleted and dirty; and calls
    that keep [added] apart keep the three sets pairwise disjoint. *)
Lemma body_disjoint (ops : list Op) (s : ContourManager (gmap Z CurveInfo))
    (tx : Transaction) :
  state s = in_transaction tx ->
  deleted tx ## dirty tx ->
  exists tx', state (snd (body (with_index K) ops s)) = in_transaction tx'
              /\ deleted tx' ## dirty tx'
              /\ (pairwise_disjoint tx -> all_separate (world s) tx ops ->
                  pairwise_disjoint tx').
Proof.
  revert s tx; induction ops as [|op ops IH]; intros s tx Hs Hdis; simpl.
  - exists tx. split; [assumption|]. split; [assumption|]. intros Hpw _; exact Hpw.
  - unfold bind at 1.
    destruct op as [c|c]; simpl in *.
    + unfold addCurve, bind, get_state; rewrite Hs; simpl.
      match goal with |- context [body _ ops ?s1] =>
        destruct (IH s1 (added_add (simpleName c) tx) eq_refl Hdis)
          as (tx' & Htx' & Hdis' & Hall) end.
      exists tx'. split; [exact Htx'|]. split; [exact Hdis'|].
      intros Hpw [[Hdel Hdty] Hrest]. apply Hall; [|exact Hrest].
      apply pairwise_disjoint_added_add; assumption.
    + unfold removeCurve, bind, get_state; rewrite Hs.
      unfold cascade; simpl. unfold index_cascade.
      destruct (world s !! simpleName c) as [info|] eqn:Hc; simpl.
      * match goal with |- context [body _ ops ?s1] =>
          destruct (IH s1 (cascaded (simpleName c) info tx) eq_refl
                      (deleted_dirty_cascaded _ _ _))
            as (tx' & Htx' & Hdis' & Hall) end.
        exists tx'. split; [exact Htx'|]. split; [exact Hdis'|].
        intros Hpw [[Hadd Hnb] Hrest]. apply Hall; [|exact Hrest].
        apply pairwise_disjoint_cascaded; try assumption. apply Hnb; reflexivity.
      * exists tx. split; [reflexivity|]. split; [assumption|].
        intros Hpw _; exact Hpw.
Qed.

(** C7 as amended (disjointness of the three sets).  In a transaction
    whose body is made of [addCurve] and [removeCurve] calls, after
    every call no curve is both deleted and dirty; and when no call adds
    a curve that is deleted or dirty, or removes a curve that is added
    or is jointed to an added curve, the sets [added], [deleted] and
    [dirty] are pairwise disjoint after every call. *)
Theorem separate_calls_keep_sets_disjoint (ops : list Op)
    (s : ContourManager (gmap Z CurveInfo)) (n : nat) :
  exists tx,
    state (snd (body (with_index K) (take n ops) (entered s))) = in_transaction tx
    /\ deleted tx ## dirty tx
    /\ (all_separate (world s) empty_transaction ops -> pairwise_disjoint tx).
Proof.
  destruct (body_disjoint (take n ops) (entered s) empty_transaction eq_refl)
    as (tx & Htx & Hdis & Hall); [intros x []%elem_of_nil|].
  exists tx. split; [exact Htx|]. split; [exact Hdis|].
  intros Hsep. apply Hall.
  - repeat split; intros x []%elem_of_nil.
  - apply all_separate_take; assumption.
Qed.

(** C8 (lookups of unknown curves).  With the index of the
    specification, every lookup the coordinator makes of a curve the
    index does not know signals [NotFound], which is what the caller
    gets, and leaves the coordinator idle.  At commit time: when a name
    among the dirty and deleted ones is unknown, the transaction throws
    before the commit, as the body left the coordinator, the state
    apart; when a name among the added ones is unknown after the
    commit, the transaction throws after the commit, before any
    rebuild.  Idle, [addCurve] throws after [curves.add] when the curve
    has no record, and [removeCurve] throws before anything else; in a
    transaction, the removal of an unknown curve throws in the body,
    and the transaction makes no commit. *)
Theorem unknown_curve_aborts (curve : Item) (s : ContourManager (gmap Z CurveInfo)) :
  state s = none ->
  (forall f s2 tx before c after,
      f (entered s) = (Return tt, s2) ->
      state s2 = in_transaction tx ->
      dirty tx ++ deleted tx = before ++ c :: after ->
      Forall (fun c' => is_Some (world s2 !! c')) before ->
      world s2 !! c = None ->
      transaction (with_index K) f s = (Throw (NotFound c), left s2))
  /\ (forall f s2 tx w3 before c after,
        f (entered s) = (Return tt, s2) ->
        state s2 = in_transaction tx ->
        Forall (fun c' => is_Some (world s2 !! c')) (dirty tx ++ deleted tx) ->
        curves_commit K tx (world s2) = (Return tt, w3) ->
        added tx = before ++ c :: after ->
        Forall (fun c' => is_Some (w3 !! c')) before ->
        w3 !! c = None ->
        transaction (with_index K) f s
        = (Throw (NotFound c),
           {| state := none; world := w3;
              trace := trace s2 ++ [curves_commit_called tx] |}))
  /\ (forall w1,
        curves_add K curve (world s) = (Return tt, w1) ->
        w1 !! simpleName curve = None ->
        addCurve (with_index K) curve s
        = (Throw (NotFound (simpleName curve)),
           {| state := none; world := w1;
              trace := trace s ++ [curves_add_called curve] |}))
  /\ (world s !! simpleName curve = None ->
      removeCurve (with_index K) curve s = (Throw (NotFound (simpleName curve)), s)
      /\ transaction (with_index K) (removeCurve (with_index K) curve) s
         = (Throw (NotFound (simpleName curve)),
            {| state := none; world := world s;
               trace := trace s ++ [curves_cascade_called curve] |})).
Proof.
  intros Hs. split; [|split; [|split]].
  - intros f s2 tx before c after Hf Htx Hids Hknown Hc.
    rewrite (transaction_body_returned (with_index K) f s s2 tx Hs Hf Htx).
    rewrite commit_and_rebuild_app, Hids.
    rewrite (bind_Throw _ _ _ _ _
               (placementsAffectedByTransaction_raises (with_index K) before after c
                  (NotFound c) [] s2
                  (fun c' e' Hc' =>
                     index_lookup_known c' (world s2) e'
                       (proj1 (Forall_forall _ _) Hknown c' Hc'))
                  (index_lookup_unknown c (world s2) Hc))).
    reflexivity.
  - intros f s2 tx w3 before c after Hf Htx Hknown Hcommit Hids Hbefore Hc.
    rewrite (transaction_body_returned (with_index K) f s s2 tx Hs Hf Htx).
    rewrite commit_and_rebuild_app.
    destruct (placementsAffectedByTransaction_returns (with_index K)
                (dirty tx ++ deleted tx) [] s2) as [ps1 E1].
    { intros c' e' Hc'. apply index_lookup_known.
      exact (proj1 (Forall_forall _ _) Hknown c' Hc'). }
    rewrite (bind_Return _ _ _ _ _ E1).
    set (s3 := {| state := state s2; world := w3;
                  trace := trace s2 ++ [curves_commit_called tx] |}).
    assert (Hcall : call (curves_commit_called tx) (curves_commit (with_index K) tx) s2
                    = (Return tt, s3))
      by (rewrite call_run; simpl; rewrite Hcommit; reflexivity).
    rewrite (bind_Return _ _ _ _ _ Hcall). rewrite Hids.
    rewrite (bind_Throw _ _ _ _ _
               (placementsAffectedByTransaction_raises (with_index K) before after c
                  (NotFound c) ps1 s3
                  (fun c' e' Hc' =>
                     index_lookup_known c' (world s3) e'
                       (proj1 (Forall_forall _ _) Hbefore c' Hc'))
                  (index_lookup_unknown c (world s3) Hc))).
    reflexivity.
  - intros w1 Ha Hl.
    unfold addCurve, bind, get_state; rewrite Hs.
    rewrite call_run; simpl. rewrite Ha; simpl.
    unfold lookup; simpl. rewrite Hl, Hs. reflexivity.
  - intros Hl. split.
    + unfold removeCurve, bind, get_state; rewrite Hs.
      unfold lookup; simpl. rewrite Hl. reflexivity.
    + rewrite transaction_idle by assumption.
      assert (Hbody : removeCurve (with_index K) curve (entered s)
                      = (Throw (NotFound (simpleName curve)),
                         {| state := in_transaction empty_transaction; world := world s;
                            trace := trace s ++ [curves_cascade_called curve] |})).
      { unfold removeCurve, bind, get_state; simpl.
        unfold cascade; simpl. unfold index_cascade. rewrite Hl. reflexivity. }
      rewrite (bind_Throw _ _ _ _ _ Hbody). reflexivity.
Qed.

End Cascade.

(** * The theorems at concrete inputs *)

Local Open Scope cm_scope.

Lemma transaction_failure_semantics_witness :
  let f := addCurve sample5 (curve 1);;; throw (Failure 7) in
  state (snd (transaction sample5 f (idle ∅))) = none
  /\ transaction sample5 f (idle ∅)
     = (Throw (Failure 7),
        {| state := none; world := ∅; trace := [] |}).
Proof.
  intros f.
  destruct (transaction_failure_semantics sample5 f (idle ∅) eq_refl) as [H1 H2].
  split; [exact H1|].
  apply (H2 (Failure 7)
            {| state := in_transaction {| dirty := []; added := [1]; deleted := [] |};
               world := ∅; trace := [] |}).
  reflexivity.
Defined.

(** Five curves of one plane added in one transaction: one rebuild. *)
Lemma single_rebuild_per_plane_after_commit_witness :
  let f := body sample5 (add <$> [curve 1; curve 2; curve 3; curve 4; curve 5]) in
  let tx := {| dirty := []; added := [1; 2; 3; 4; 5]; deleted := [] |} in
  trace (snd (transaction sample5 f (idle ∅)))
  = [curves_commit_called tx; regions_updatePlacement_called 0]
  /\ exists ps,
      NoDup ps
      /\ (trace (snd (transaction sample5 f (idle ∅))) = []
          \/ trace (snd (transaction sample5 f (idle ∅)))
             = [] ++ curves_commit_called tx :: (regions_updatePlacement_called <$> ps))
      /\ (ps <> [] -> fst (curves_commit sample5 tx ∅) = Return tt)
      /\ (forall p, p ∈ ps ->
            exists c info w,
              c ∈ dirty tx ++ deleted tx ++ added tx
              /\ curves_lookup sample5 (ByName c) w = Found info
              /\ placement info = p).
Proof.
  intros f tx. split; [reflexivity|].
  apply (single_rebuild_per_plane_after_commit sample5 f (idle ∅)
           {| state := in_transaction tx; world := ∅; trace := [] |} tx);
    reflexivity.
Defined.

Lemma reentrancy_guard_witness :
  let f := addCurve sample5 (curve 1) in
  let g := addCurve sample5 (curve 2) in
  let k := addCurve sample5 (curve 3) in
  let s2 := {| state := in_transaction {| dirty := []; added := [1]; deleted := [] |};
               world := ∅; trace := [] |} in
  transaction sample5 g s2 = (Throw (InvalidState tag_transaction), s2)
  /\ transaction sample5 (f;;; try_catch (transaction sample5 g) (fun _ => ret tt);;; k) (idle ∅)
     = transaction sample5 (f;;; k) (idle ∅)
  /\ transaction sample5 (f;;; transaction sample5 g;;; k) (idle ∅)
     = (Throw (InvalidState tag_transaction), left s2).
Proof.
  intros f g k s2.
  apply (reentrancy_guard sample5 f g k (idle ∅) s2
           {| dirty := []; added := [1]; deleted := [] |}); reflexivity.
Defined.

Lemma addCurve_removeCurve_dispatch_witness :
  let tx := {| dirty := []; added := [4]; deleted := [] |} in
  let busy := {| state := in_transaction tx; world := chain; trace := [] |} in
  addCurve sample5 (curve 1) (idle ∅)
  = (Return tt,
     {| state := none; world := <[1 := plain_info 1 0]> ∅;
        trace := [] ++ [curves_add_called (curve 1); regions_updatePlacement_called 0] |})
  /\ removeCurve sample5 (curve 1) (idle chain)
     = (Return tt,
        {| state := none; world := delete 1 chain;
           trace := [] ++ [curves_remove_called (curve 1);
                           regions_updatePlacement_called 0] |})
  /\ addCurve sample5 (curve 1) busy
     = (Return tt,
        {| state := in_transaction {| dirty := []; added := set_add 1 [4]; deleted := [] |};
           world := chain; trace := [] |})
  /\ removeCurve sample5 (curve 2) busy
     = (Return tt,
        {| state := in_transaction {| dirty := [1; 3]; added := [4]; deleted := [2] |};
           world := chain;
           trace := [] ++ [curves_cascade_called (curve 2)] |}).
Proof.
  intros tx busy.
  destruct (addCurve_removeCurve_dispatch sample5 (curve 1) (idle ∅)) as (H1 & _).
  destruct (addCurve_removeCurve_dispatch sample5 (curve 1) (idle chain)) as (_ & H2 & _).
  destruct (addCurve_removeCurve_dispatch sample5 (curve 1) busy) as (_ & _ & H3 & _).
  destruct (addCurve_removeCurve_dispatch sample5 (curve 2) busy) as (_ & _ & _ & H4).
  split; [|split; [|split]].
  - apply (H1 (<[1 := plain_info 1 0]> ∅) (plain_info 1 0)); reflexivity.
  - apply (H2 (jointed_info 1 0 None (Some 2)) (delete 1 chain)); reflexivity.
  - apply (H3 tx); reflexivity.
  - apply (H4 tx); reflexivity.
Defined.

Lemma curve_typed_routing_witness :
  hide sample5 (curve 1) (idle chain)
  = routed sample5 (call (db_hide_called (curve 1)) (db_hide sample5 (curve 1)))
      (fun _ => [through_removeCurve (curve 1)]) (idle chain).
Proof.
  exact (proj1 (curve_typed_routing sample5 (curve 1) (idle chain) eq_refl)).
Defined.

Lemma non_curve_frame_witness :
  let solid := {| class := Solid; simpleName := 7 |} in
  let busy := {| state := in_transaction {| dirty := []; added := [4]; deleted := [] |};
                 world := chain; trace := [] |} in
  hide sample5 solid busy
  = (Return tt,
     {| state := state busy; world := chain; trace := [] ++ [db_hide_called solid] |})
  /\ addItem sample5 (c3d_Solid 7) None busy
     = (Return solid,
        {| state := state busy; world := chain;
           trace := [] ++ [db_addItem_called (c3d_Solid 7) user] |}).
Proof.
  intros solid busy.
  destruct (non_curve_frame sample5 solid busy eq_refl) as (H1 & _ & _ & _ & _ & H6).
  split; [exact H1|].
  apply (H6 (c3d_Solid 7) None). intros result w [= <- _]. reflexivity.
Defined.

(** Three curves unhidden, two of them on one plane: three rebuilds,
    two of the same placement, and no commit. *)
Lemma unhideAll_bypasses_transaction_witness :
  let hidden := [curve 6; {| class := Solid; simpleName := 9 |}; curve 1; curve 2] in
  unhideAll (sample planes7 hidden) (idle ∅)
  = (Return hidden,
     {| state := none;
        world := <[2 := plain_info 2 0]> (<[1 := plain_info 1 0]> (<[6 := plain_info 6 1]> ∅));
        trace := [] ++ db_unhideAll_called
                    :: (curves_add_called <$> [curve 6; curve 1; curve 2])
                    ++ (regions_updatePlacement_called <$> [1; 0; 0]) |}).
Proof.
  intros hidden.
  apply (proj2 (unhideAll_bypasses_transaction (sample planes7 hidden) (idle ∅) hidden ∅
                  eq_refl eq_refl _ _)).
  split; [reflexivity|].
  exists (<[2 := plain_info 2 0]> (<[1 := plain_info 1 0]> (<[6 := plain_info 6 1]> ∅))),
         [1; 0; 0],
         (<[2 := plain_info 2 0]> (<[1 := plain_info 1 0]> (<[6 := plain_info 6 1]> ∅))).
  split; [reflexivity|]. split; [reflexivity|]. split; reflexivity.
Defined.

Lemma chain_jointed_1_2 : jointed chain 1 2.
Proof.
  exists (jointed_info 1 0 None (Some 2)), (jointed_info 2 0 (Some 1) (Some 3)).
  split; [reflexivity|]. split; [reflexivity|]. split.
  - apply list_elem_of_In; simpl; auto.
  - apply list_elem_of_In; simpl; auto.
Defined.

Lemma chain_jointed_2_3 : jointed chain 2 3.
Proof.
  exists (jointed_info 2 0 (Some 1) (Some 3)), (jointed_info 3 0 (Some 2) None).
  split; [reflexivity|]. split; [reflexivity|]. split.
  - apply list_elem_of_In; simpl; auto.
  - apply list_elem_of_In; simpl; auto.
Defined.

Lemma chain_joints_within : joints_within chain [1; 2; 3].
Proof.
  intros x info Hx Hinfo y Hy.
  apply list_elem_of_In in Hx; simpl in Hx.
  destruct Hx as [<-|[<-|[<-|[]]]];
    vm_compute in Hinfo; injection Hinfo as <-;
    apply list_elem_of_In in Hy; apply list_elem_of_In;
    vm_compute in Hy; simpl; intuition.
Defined.

Lemma chain_joints_known : joints_known chain [2; 3].
Proof.
  intros x info Hx Hinfo y Hy.
  apply list_elem_of_In in Hx; simpl in Hx.
  destruct Hx as [<-|[<-|[]]];
    vm_compute in Hinfo; injection Hinfo as <-;
    apply list_elem_of_In in Hy; vm_compute in Hy;
    destruct Hy as [<-|[<-|[]]] || destruct Hy as [<-|[]];
    eexists; reflexivity.
Defined.

Lemma cascade_completeness_witness :
  (exists tx,
      body (with_index sample5) (remove <$> [curve 3; curve 2]) (entered (idle chain))
      = (Return tt,
         {| state := in_transaction tx; world := chain;
            trace := [] ++ (curves_cascade_called <$> [curve 3; curve 2]) |})
      /\ 1 ∈ dirty tx
      /\ (1 ∉ deleted tx)
      /\ exists rest,
          trace (snd (transaction (with_index sample5)
                        (body (with_index sample5) (remove <$> [curve 3; curve 2]))
                        (idle chain)))
          = [] ++ (curves_cascade_called <$> [curve 3; curve 2])
               ++ curves_commit_called tx :: rest)
  /\ (exists tx,
        body (with_index sample5) (remove <$> [curve 2; curve 1; curve 3])
          (entered (idle chain))
        = (Return tt,
           {| state := in_transaction tx; world := chain;
              trace := [] ++ (curves_cascade_called <$> [curve 2; curve 1; curve 3]) |})
        /\ dirty tx = []
        /\ exists rest,
            trace (snd (transaction (with_index sample5)
                          (body (with_index sample5) (remove <$> [curve 2; curve 1; curve 3]))
                          (idle chain)))
            = [] ++ (curves_cascade_called <$> [curve 2; curve 1; curve 3])
                 ++ curves_commit_called tx :: rest).
Proof.
  destruct (cascade_completeness sample5 (curve 1) (curve 2) (curve 3) (idle chain)
              eq_refl chain_jointed_1_2 chain_jointed_2_3)
    as [H1 H2]; [discriminate|discriminate|].
  split.
  - destruct (H1 [curve 3; curve 2] (perm_swap _ _ _)) as (tx & Hbody & Hin & Hout & Hcommit).
    exists tx. split; [exact Hbody|]. split; [exact Hin|]. split; [exact Hout|].
    exact (Hcommit chain_joints_known).
  - destruct (H2 [curve 2; curve 1; curve 3] (perm_swap _ _ _))
      as (tx & Hbody & _ & _ & _ & Hnone).
    exists tx. split; [exact Hbody|]. exact (Hnone chain_joints_within).
Defined.

(** C1, the claim as stated, fails.  In the chain 0 - 1 - 2 - 3 the
    curves 1 and 2 are jointed, and 2 and 3; a transaction whose body
    removes 1, 2 and 3 ends with the curve 0 dirty, and commits it so.
    And where a joint of the curve 3 leads to a curve the index does not
    know, the body that removes 2 and 3 leaves 1 dirty, but the
    transaction throws before the commit. *)
Lemma cascade_completeness_counterexample :
  let removals := body sample5 (remove <$> [curve 1; curve 2; curve 3]) in
  let tx := {| dirty := [0]; added := []; deleted := [1; 2; 3] |} in
  let removals' := body sample5 (remove <$> [curve 2; curve 3]) in
  let tx' := {| dirty := [1; 7]; added := []; deleted := [2; 3] |} in
  (jointed chain4 1 2
   /\ jointed chain4 2 3
   /\ removals (entered (idle chain4))
      = (Return tt,
         {| state := in_transaction tx; world := chain4;
            trace := curves_cascade_called <$> [curve 1; curve 2; curve 3] |})
   /\ trace (snd (transaction sample5 removals (idle chain4)))
      = (curves_cascade_called <$> [curve 1; curve 2; curve 3])
        ++ [curves_commit_called tx; regions_updatePlacement_called 0]
   /\ dirty tx <> [])
  /\ (jointed dangling 1 2
      /\ jointed dangling 2 3
      /\ removals' (entered (idle dangling))
         = (Return tt,
            {| state := in_transaction tx'; world := dangling;
               trace := curves_cascade_called <$> [curve 2; curve 3] |})
      /\ transaction sample5 removals' (idle dangling)
         = (Throw (NotFound 7),
            {| state := none; world := dangling;
               trace := curves_cascade_called <$> [curve 2; curve 3] |})).
Proof.
  intros removals tx removals' tx'. split; [split; [|split; [|split; [|split]]]|].
  - exists (jointed_info 1 0 (Some 0) (Some 2)), (jointed_info 2 0 (Some 1) (Some 3)).
    split; [reflexivity|]. split; [reflexivity|]. split.
    + apply list_elem_of_In; simpl; auto.
    + apply list_elem_of_In; simpl; auto.
  - exists (jointed_info 2 0 (Some 1) (Some 3)), (jointed_info 3 0 (Some 2) None).
    split; [reflexivity|]. split; [reflexivity|]. split.
    + apply list_elem_of_In; simpl; auto.
    + apply list_elem_of_In; simpl; auto.
  - reflexivity.
  - reflexivity.
  - discriminate.
  - split; [|split; [|split]].
    + exists (jointed_info 1 0 None (Some 2)), (jointed_info 2 0 (Some 1) (Some 3)).
      split; [reflexivity|]. split; [reflexivity|]. split.
      * apply list_elem_of_In; simpl; auto.
      * apply list_elem_of_In; simpl; auto.
    + exists (jointed_info 2 0 (Some 1) (Some 3)), (jointed_info 3 0 (Some 2) (Some 7)).
      split; [reflexivity|]. split; [reflexivity|]. split.
      * apply list_elem_of_In; simpl; auto.
      * apply list_elem_of_In; simpl; auto.
    + reflexivity.
    + reflexivity.
Qed.

(** C7, the claim as stated, fails.  A curve removed and then added
    again (hidden and shown again, say), or added and then removed, is
    both deleted and added; a curve added after the removal of a curve
    jointed to it, or before it, is both added and dirty. *)
Lemma disjointness_counterexample :
  let after ops := state (snd (body sample5 ops (entered (idle chain)))) in
  (after [remove (curve 1); add (curve 1)]
   = in_transaction {| dirty := [2]; added := [1]; deleted := [1] |}
   /\ ~ pairwise_disjoint {| dirty := [2]; added := [1]; deleted := [1] |})
  /\ (after [add (curve 1); remove (curve 1)]
      = in_transaction {| dirty := [2]; added := [1]; deleted := [1] |})
  /\ (after [remove (curve 2); add (curve 1)]
      = in_transaction {| dirty := [1; 3]; added := [1]; deleted := [2] |}
      /\ ~ pairwise_disjoint {| dirty := [1; 3]; added := [1]; deleted := [2] |})
  /\ (after [add (curve 1); remove (curve 2)]
      = in_transaction {| dirty := [1; 3]; added := [1]; deleted := [2] |}).
Proof.
  intros after. split; [|split; [|split]].
  - split; [reflexivity|]. intros (H & _). apply (H 1); simpl; left.
  - reflexivity.
  - split; [reflexivity|]. intros (_ & H & _). apply (H 1); simpl; left.
  - reflexivity.
Qed.

Lemma separate_calls_keep_sets_disjoint_witness :
  let ops := [add (curve 4); remove (curve 2); remove (curve 3); add (curve 5)] in
  all_separate chain empty_transaction ops
  /\ exists tx,
      state (snd (body (with_index sample5) (take 4 ops) (entered (idle chain))))
      = in_transaction tx
      /\ (deleted tx ## dirty tx)
      /\ pairwise_disjoint tx.
Proof.
  intros ops.
  assert (H : all_separate chain empty_transaction ops).
  { simpl. repeat split;
      try (intros info Hinfo c' Hc'; vm_compute in Hinfo; injection Hinfo as <-;
           apply list_elem_of_In in Hc'; vm_compute in Hc');
      intros H%list_elem_of_In; vm_compute in H; intuition (subst; discriminate). }
  split; [exact H|].
  destruct (separate_calls_keep_sets_disjoint sample5 ops (idle chain) 4)
    as (tx & Htx & Hdis & Hall).
  exists tx. split; [exact Htx|]. split; [exact Hdis|]. exact (Hall H).
Defined.

(** A joint of the curve 3 leads to the curve 7, which the index does
    not know: the transaction that removes 3 throws before the commit,
    at the second of the dirty names.  The curve 9 has no supporting
    plane and gets no record: the transaction that adds it throws after
    the commit. *)
Lemma unknown_curve_aborts_witness :
  let removed := {| dirty := [2; 7]; added := []; deleted := [3] |} in
  let added9 := {| dirty := []; added := [9]; deleted := [] |} in
  transaction (with_index sample5) (removeCurve sample5 (curve 3)) (idle dangling)
  = (Throw (NotFound 7),
     {| state := none; world := dangling; trace := [curves_cascade_called (curve 3)] |})
  /\ transaction (with_index sample5) (addCurve sample5 (curve 9)) (idle ∅)
     = (Throw (NotFound 9),
        {| state := none; world := ∅; trace := [] ++ [curves_commit_called added9] |})
  /\ addCurve (with_index sample5) (curve 9) (idle ∅)
     = (Throw (NotFound 9),
        {| state := none; world := ∅; trace := [] ++ [curves_add_called (curve 9)] |})
  /\ removeCurve (with_index sample5) (curve 9) (idle ∅) = (Throw (NotFound 9), idle ∅)
  /\ transaction (with_index sample5) (removeCurve (with_index sample5) (curve 9)) (idle ∅)
     = (Throw (NotFound 9),
        {| state := none; world := ∅; trace := [] ++ [curves_cascade_called (curve 9)] |}).
Proof.
  intros removed added9.
  destruct (unknown_curve_aborts sample5 (curve 9) (idle dangling) eq_refl) as (H1 & _).
  destruct (unknown_curve_aborts sample5 (curve 9) (idle ∅) eq_refl)
    as (_ & H2 & H3 & H4).
  destruct (H4 eq_refl) as [H5 H6].
  split; [|split; [|split; [|split]]].
  - apply (H1 (removeCurve sample5 (curve 3))
              {| state := in_transaction removed; world := dangling;
                 trace := [curves_cascade_called (curve 3)] |}
              removed [2] 7 [3]);
      first [reflexivity|repeat constructor; eexists; reflexivity].
  - apply (H2 (addCurve sample5 (curve 9))
              {| state := in_transaction added9; world := ∅; trace := [] |}
              added9 ∅ [] 9 []); first [reflexivity|constructor].
  - apply (H3 ∅); reflexivity.
  - exact H5.
  - exact H6.
Defined.

(** * More of the coordinator *)

Section MoreLaws.

Context {W R : Type}.
Variable K : Collaborators W R.

Local Open Scope cm_scope.

(** [placementsAffectedByTransaction], when it returns, has computed
    [affected]. *)
Lemma placementsAffectedByTransaction_affected (ids : CurveSet) (ps ps' : PlacementSet)
    (s s' : ContourManager W) :
  placementsAffectedByTransaction K ids ps s = (Return ps', s') ->
  ps' = affected K (world s) ids ps.
Proof.
  revert ps; induction ids as [|c ids IH]; intros ps; simpl.
  - unfold ret; intros [= <- _]; reflexivity.
  - unfold bind, lookup.
    destruct (curves_lookup K (ByName c) (world s)) as [info| |e]; simpl;
      [apply IH|apply IH|discriminate].
Qed.

Lemma affected_mono (w : W) (ids : CurveSet) (ps : PlacementSet) (p : Placement3D) :
  p ∈ ps -> p ∈ affected K w ids ps.
Proof.
  revert ps; induction ids as [|c ids IH]; intros ps Hp; simpl; [assumption|].
  apply IH. destruct (curves_lookup K (ByName c) w); try assumption.
  apply elem_of_set_add; right; assumption.
Qed.

Lemma affected_found (w : W) (ids : CurveSet) (ps : PlacementSet) (c : SimpleName)
    (info : CurveInfo) :
  c ∈ ids -> curves_lookup K (ByName c) w = Found info ->
  placement info ∈ affected K w ids ps.
Proof.
  revert ps; induction ids as [|c0 ids IH]; intros ps Hc Hl; [inversion Hc|].
  simpl. apply elem_of_cons in Hc as [->|Hc].
  - rewrite Hl. apply affected_mono, elem_of_set_add; left; reflexivity.
  - apply IH; assumption.
Qed.

Lemma NoDup_set_add (p : Z) (ps : list Z) : NoDup ps -> NoDup (set_add p ps).
Proof.
  intros Hnd. unfold set_add; case_decide; [assumption|].
  apply NoDup_app; repeat split; [assumption| |apply NoDup_singleton].
  intros x Hx Hx'; apply list_elem_of_singleton in Hx'; subst x; contradiction.
Qed.

Lemma affected_NoDup (w : W) (ids : CurveSet) (ps : PlacementSet) :
  NoDup ps -> NoDup (affected K w ids ps).
Proof.
  revert ps; induction ids as [|c ids IH]; intros ps Hnd; simpl; [assumption|].
  apply IH. destruct (curves_lookup K (ByName c) w); try assumption.
  apply NoDup_set_add; assumption.
Qed.

(** Inside a transaction the started calls only add names. *)
Lemma start_all_in_transaction (curves : list Item) (s : ContourManager W)
    (tx : Transaction) :
  state s = in_transaction tx ->
  snd (start_all K curves s)
  = {| state := in_transaction (added_all curves tx); world := world s; trace := trace s |}
  /\ rejection (fst (start_all K curves s)) = None
  /\ forall s', snd (resume_all K (fst (start_all K curves s)) s') = s'
                /\ fst (resume_all K (fst (start_all K curves s)) s')
                   = fst (start_all K curves s).
Proof.
  revert s tx; induction curves as [|c curves IH]; intros s tx Hs; simpl.
  - rewrite <- Hs. destruct s; repeat split.
  - unfold addCurve_start; rewrite Hs; simpl.
    match goal with |- context [start_all K curves ?s1] =>
      destruct (IH s1 _ eq_refl) as (H1 & H2 & H3);
      destruct (start_all K curves s1) as [ps s2] end.
    simpl in *. split; [assumption|]. split; [assumption|].
    intros s'. destruct (H3 s') as [H4 H5].
    destruct (resume_all K ps s') as [qs s3]; simpl in *. subst. split; reflexivity.
Qed.

Lemma commit_and_rebuild_state (tx : Transaction) (s : ContourManager W) :
  state (snd (commit_and_rebuild K tx s)) = state s.
Proof.
  unfold commit_and_rebuild.
  pose proof (placementsAffectedByTransaction_pure K (dirty tx) [] s) as H1.
  unfold bind at 1.
  destruct (placementsAffectedByTransaction K (dirty tx) [] s) as [[ps1|e] s1];
    simpl in H1; subst s1; [|reflexivity].
  pose proof (placementsAffectedByTransaction_pure K (deleted tx) ps1 s) as H2.
  unfold bind at 1.
  destruct (placementsAffectedByTransaction K (deleted tx) ps1 s) as [[ps2|e] s2];
    simpl in H2; subst s2; [|reflexivity].
  pose proof (call_state (curves_commit_called tx) (curves_commit K tx) s) as H3.
  unfold bind at 1.
  destruct (call (curves_commit_called tx) (curves_commit K tx) s) as [[[]|e] s3];
    simpl in H3; [|assumption].
  pose proof (placementsAffectedByTransaction_pure K (added tx) ps2 s3) as H4.
  unfold bind at 1.
  destruct (placementsAffectedByTransaction K (added tx) ps2 s3) as [[ps3|e] s4];
    simpl in H4; subst s4; [|assumption].
  destruct (nonempty tx); [|assumption].
  rewrite updatePlacements_state. assumption.
Qed.

Lemma added_all_sets (curves : list Item) (tx : Transaction) :
  dirty (added_all curves tx) = dirty tx
  /\ deleted (added_all curves tx) = deleted tx
  /\ forall n, n ∈ added (added_all curves tx)
               <-> n ∈ added tx \/ n ∈ simpleName <$> curves.
Proof.
  unfold added_all. revert tx; induction curves as [|c cs IH]; intros tx; simpl.
  - split; [reflexivity|]. split; [reflexivity|].
    intros n; split; [auto|]. intros [|[]%elem_of_nil]; assumption.
  - destruct (IH (added_add (simpleName c) tx)) as (H1 & H2 & H3).
    split; [exact H1|]. split; [exact H2|].
    intros n. rewrite H3; simpl. rewrite elem_of_set_add, elem_of_cons. tauto.
Qed.

(** X1 ([rebuild]).  Called idle, [rebuild] makes one commit, of a
    transaction whose [added] set holds the names of the curves the
    database finds and whose other sets are empty, then rebuilds
    pairwise distinct placements and ends idle; it calls neither
    [curves.add] nor [cascade].  Called inside a transaction it throws
    [InvalidState] and changes nothing. *)
Theorem rebuild_commits_found_curves (db_find : W -> list Item) (s : ContourManager W) :
  (state s = none ->
   exists ps,
     NoDup ps
     /\ state (snd (rebuild K db_find s)) = none
     /\ dirty (added_all (db_find (world s)) empty_transaction) = []
     /\ deleted (added_all (db_find (world s)) empty_transaction) = []
     /\ (forall n, n ∈ added (added_all (db_find (world s)) empty_transaction)
                   <-> n ∈ simpleName <$> db_find (world s))
     /\ trace (snd (rebuild K db_find s))
        = trace s
          ++ curves_commit_called (added_all (db_find (world s)) empty_transaction)
          :: (regions_updatePlacement_called <$> ps))
  /\ (forall tx, state s = in_transaction tx ->
        rebuild K db_find s = (Throw (InvalidState tag_transaction), s)).
Proof.
  split; [|intros tx Hs; unfold rebuild; apply (transaction_busy K _ _ tx Hs)].
  intros Hs. unfold rebuild.
  set (curves := db_find (world s)).
  destruct (added_all_sets curves empty_transaction) as (Hd & Hdel & Hadd).
  destruct (start_all_in_transaction curves (entered s) empty_transaction eq_refl)
    as (Hst & _).
  assert (Hbody : rebuild_body K curves (entered s)
                  = (Return tt,
                     {| state := in_transaction (added_all curves empty_transaction);
                        world := world s; trace := trace s |})).
  { unfold rebuild_body. destruct (start_all K curves (entered s)) as [ps0 s0].
    simpl in Hst. rewrite Hst. reflexivity. }
  rewrite (transaction_body_returned K _ _ _ _ Hs Hbody eq_refl). simpl.
  match goal with |- context [commit_and_rebuild K ?tx ?s2] =>
    destruct (commit_reached_when K tx s2) as (ps & Hnd & Htr) end.
  { rewrite Hd, Hdel. intros c e []%elem_of_nil. }
  exists ps.
  split; [exact Hnd|]. split; [reflexivity|].
  split; [exact Hd|]. split; [exact Hdel|]. split; [|exact Htr].
  intros n. rewrite Hadd. split; [|auto].
  intros [[]%elem_of_nil|]; assumption.
Qed.

(** X2 (empty transaction).  When the body leaves the three sets empty,
    [transaction] still calls [commit], with the empty transaction,
    makes no lookup and no rebuild, and returns what [commit] did. *)
Theorem empty_transaction_still_commits (f : M W unit) (s s2 : ContourManager W) :
  state s = none ->
  f (entered s) = (Return tt, s2) ->
  state s2 = in_transaction empty_transaction ->
  transaction K f s
  = (fst (curves_commit K empty_transaction (world s2)),
     {| state := none;
        world := snd (curves_commit K empty_transaction (world s2));
        trace := trace s2 ++ [curves_commit_called empty_transaction] |}).
Proof.
  intros Hs Hf Htx.
  rewrite (transaction_body_returned K f s s2 empty_transaction) by assumption.
  unfold commit_and_rebuild; simpl. unfold bind, ret. rewrite call_run.
  destruct (curves_commit K empty_transaction (world s2)) as [[[]|e] w]; reflexivity.
Qed.

(** X3 (the placements rebuilt).  A transaction that returns has called
    [commit] and then [updatePlacement] exactly once on each affected
    placement: those of the records found, before the commit, for the
    dirty and the deleted names, and after the commit for the added
    ones, in that order of first appearance. *)
Theorem transaction_rebuilds_affected_placements (f : M W unit)
    (s s2 : ContourManager W) (tx : Transaction) :
  state s = none ->
  f (entered s) = (Return tt, s2) ->
  state s2 = in_transaction tx ->
  fst (transaction K f s) = Return tt ->
  let w3 := snd (curves_commit K tx (world s2)) in
  let ps := affected K w3 (added tx)
              (affected K (world s2) (deleted tx)
                 (affected K (world s2) (dirty tx) [])) in
  trace (snd (transaction K f s))
  = trace s2 ++ curves_commit_called tx :: (regions_updatePlacement_called <$> ps)
  /\ NoDup ps
  /\ (forall c info,
        c ∈ dirty tx ++ deleted tx ->
        curves_lookup K (ByName c) (world s2) = Found info ->
        placement info ∈ ps)
  /\ (forall c info,
        c ∈ added tx ->
        curves_lookup K (ByName c) w3 = Found info ->
        placement info ∈ ps).
Proof.
  intros Hs Hf Htx Hret w3 ps.
  rewrite (transaction_body_returned K f s s2 tx) in Hret |- * by assumption.
  simpl in Hret |- *.
  split; [|split; [|split]].
  - destruct (commit_and_rebuild K tx s2) as [r sf] eqn:E. simpl in *. subst r.
    unfold commit_and_rebuild in E.
    set (ps1 := affected K (world s2) (dirty tx) []) in *.
    set (ps2 := affected K (world s2) (deleted tx) ps1) in *.
    destruct (placementsAffectedByTransaction K (dirty tx) [] s2) as [[qs1|e] s3] eqn:E1;
      [|rewrite (bind_Throw _ _ _ _ _ E1) in E; discriminate].
    rewrite (bind_Return _ _ _ _ _ E1) in E.
    pose proof (placementsAffectedByTransaction_affected _ _ _ _ _ E1) as Hq1.
    fold ps1 in Hq1; subst qs1.
    apply placementsAffectedByTransaction_spec in E1 as (-> & _).
    destruct (placementsAffectedByTransaction K (deleted tx) ps1 s2) as [[qs2|e] s3] eqn:E2;
      [|rewrite (bind_Throw _ _ _ _ _ E2) in E; discriminate].
    rewrite (bind_Return _ _ _ _ _ E2) in E.
    pose proof (placementsAffectedByTransaction_affected _ _ _ _ _ E2) as Hq2.
    fold ps2 in Hq2; subst qs2.
    apply placementsAffectedByTransaction_spec in E2 as (-> & _).
    unfold bind at 1 in E. rewrite call_run in E. fold w3 in E.
    destruct (fst (curves_commit K tx (world s2))) as [[]|e]; [|discriminate].
    set (s3 := {| state := state s2; world := w3;
                  trace := trace s2 ++ [curves_commit_called tx] |}) in *.
    destruct (placementsAffectedByTransaction K (added tx) ps2 s3) as [[qs3|e] s4] eqn:E3;
      [|rewrite (bind_Throw _ _ _ _ _ E3) in E; discriminate].
    rewrite (bind_Return _ _ _ _ _ E3) in E.
    pose proof (placementsAffectedByTransaction_affected _ _ _ _ _ E3) as Hq3.
    simpl in Hq3. fold ps in Hq3; subst qs3.
    apply placementsAffectedByTransaction_spec in E3 as (-> & _).
    destruct (nonempty tx) eqn:Hne.
    + destruct (updatePlacements_trace K ps s3) as (qs & _ & Htr & Hall).
      rewrite E in Htr, Hall. simpl in Htr, Hall. rewrite (Hall eq_refl) in Htr.
      rewrite Htr. unfold s3; simpl. rewrite <- app_assoc. reflexivity.
    + injection E as <-. simpl.
      assert (Hempty : ps = []).
      { unfold nonempty in Hne. unfold ps, ps2, ps1.
        destruct tx as [[|? ?] [|? ?] [|? ?]]; simpl in Hne; try discriminate.
        reflexivity. }
      rewrite Hempty. reflexivity.
  - repeat apply affected_NoDup. apply NoDup_nil_2.
  - intros c info [Hc|Hc]%elem_of_app Hl; unfold ps.
    + apply affected_mono, affected_mono. eapply affected_found; eassumption.
    + apply affected_mono. eapply affected_found; eassumption.
  - intros c info Hc Hl; unfold ps. eapply affected_found; eassumption.
Qed.

(** X4 (a lookup that throws after the commit).  When the lookup of an
    added name throws once [commit] has returned, the transaction ends
    with that exception, idle: the commit has been made and no placement
    is rebuilt. *)
Theorem lookup_failure_after_commit (f : M W unit) (s s2 : ContourManager W)
    (tx : Transaction) (before after : CurveSet) (c : SimpleName) (e : Error) (w3 : W) :
  state s = none ->
  f (entered s) = (Return tt, s2) ->
  state s2 = in_transaction tx ->
  (forall c' e', c' ∈ dirty tx ++ deleted tx ->
                 curves_lookup K (ByName c') (world s2) <> Raises e') ->
  curves_commit K tx (world s2) = (Return tt, w3) ->
  added tx = before ++ c :: after ->
  (forall c' e', c' ∈ before -> curves_lookup K (ByName c') w3 <> Raises e') ->
  curves_lookup K (ByName c) w3 = Raises e ->
  transaction K f s
  = (Throw e,
     {| state := none; world := w3; trace := trace s2 ++ [curves_commit_called tx] |}).
Proof.
  intros Hs Hf Htx Hno Hc Hadd Hbefore Hraise.
  rewrite (transaction_body_returned K f s s2 tx) by assumption.
  unfold commit_and_rebuild.
  destruct (placementsAffectedByTransaction_returns K (dirty tx) [] s2) as [ps1 E1].
  { intros c' e' Hc'; apply Hno, elem_of_app; left; assumption. }
  rewrite !(bind_Return _ _ _ _ _ E1).
  destruct (placementsAffectedByTransaction_returns K (deleted tx) ps1 s2) as [ps2 E2].
  { intros c' e' Hc'; apply Hno, elem_of_app; right; assumption. }
  rewrite !(bind_Return _ _ _ _ _ E2).
  assert (Ec : call (curves_commit_called tx) (curves_commit K tx) s2
               = (Return tt, {| state := state s2; world := w3;
                                trace := trace s2 ++ [curves_commit_called tx] |}))
    by (rewrite call_run, Hc; reflexivity).
  rewrite !(bind_Return _ _ _ _ _ Ec).
  rewrite Hadd.
  rewrite !(bind_Throw _ _ _ _ _
              (placementsAffectedByTransaction_raises K before after c e ps2
                 {| state := state s2; world := w3;
                    trace := trace s2 ++ [curves_commit_called tx] |} Hbefore Hraise)).
  reflexivity.
Qed.

(** X5 (a rebuild that throws).  The rebuild loop stops at the first
    [updatePlacement] that throws: the placements before it have been
    rebuilt, those after it are not, and the exception is the result. *)
Theorem rebuild_loop_stops_at_first_failure (done rest : PlacementSet) (p : Placement3D)
    (s s1 : ContourManager W) (e : Error) (w : W) :
  updatePlacements K done s = (Return tt, s1) ->
  regions_updatePlacement K p (world s1) = (Throw e, w) ->
  updatePlacements K (done ++ p :: rest) s
  = (Throw e,
     {| state := state s;
        world := w;
        trace := trace s ++ (regions_updatePlacement_called <$> done ++ [p]) |}).
Proof.
  revert s; induction done as [|q done IH]; intros s Hdone Hp; simpl in *.
  - unfold ret in Hdone; injection Hdone as <-.
    unfold bind. rewrite call_run, Hp. reflexivity.
  - unfold bind in Hdone |- *. rewrite call_run in Hdone |- *.
    destruct (regions_updatePlacement K q (world s)) as [[[]|e'] w']; simpl in *;
      [|discriminate].
    rewrite (IH _ Hdone Hp). simpl. rewrite <- app_assoc. reflexivity.
Qed.

(** X6 ([removeCurve] without a record, idle).  When the lookup answers
    [undefined], [removeCurve] has already called [curves.remove] when
    it fails on [info.placement]: what the removal did to the index
    stays and no placement is rebuilt.  When the lookup throws, nothing
    has been called. *)
Theorem removeCurve_idle_without_record (curve : Item) (s : ContourManager W) :
  state s = none ->
  (curves_lookup K (ByCurve curve) (world s) = Undefined ->
   removeCurve K curve s
   = (match fst (curves_remove K curve (world s)) with
      | Return _ => Throw TypeError
      | Throw e => Throw e
      end,
      {| state := none;
         world := snd (curves_remove K curve (world s));
         trace := trace s ++ [curves_remove_called curve] |}))
  /\ (forall e,
        curves_lookup K (ByCurve curve) (world s) = Raises e ->
        removeCurve K curve s = (Throw e, s)).
Proof.
  intros Hs. split.
  - intros Hl. unfold removeCurve, bind, get_state, lookup; rewrite Hs, Hl.
    rewrite call_run, Hs.
    destruct (curves_remove K curve (world s)) as [[[]|e] w]; reflexivity.
  - intros e Hl. unfold removeCurve, bind, get_state, lookup; rewrite Hs, Hl.
    reflexivity.
Qed.

(** X7 (a database failure).  When the database operation throws, an
    item operation ends with that exception and has called neither
    [addCurve] nor [removeCurve], whatever the class of the item: the
    state is unchanged and the trace holds the database call alone. *)
Theorem database_failure_stops_routing (s : ContourManager W) (e : Error) (w : W) :
  (forall item,
      db_hide K item (world s) = (Throw e, w) ->
      hide K item s
      = (Throw e, {| state := state s; world := w;
                     trace := trace s ++ [db_hide_called item] |}))
  /\ (forall item,
        db_unhide K item (world s) = (Throw e, w) ->
        unhide K item s
        = (Throw e, {| state := state s; world := w;
                       trace := trace s ++ [db_unhide_called item] |}))
  /\ (forall item value,
        db_makeVisible K item value (world s) = (Throw e, w) ->
        makeVisible K item value s
        = (Throw e, {| state := state s; world := w;
                       trace := trace s ++ [db_makeVisible_called item value] |}))
  /\ (forall model agent,
        db_addItem K model (default user agent) (world s) = (Throw e, w) ->
        addItem K model agent s
        = (Throw e, {| state := state s; world := w;
                       trace := trace s ++ [db_addItem_called model (default user agent)] |}))
  /\ (forall from to,
        db_replaceItem K from to (world s) = (Throw e, w) ->
        replaceItem K from to s
        = (Throw e, {| state := state s; world := w;
                       trace := trace s ++ [db_replaceItem_called from to] |}))
  /\ (forall view agent,
        db_removeItem K view agent (world s) = (Throw e, w) ->
        removeItem K view agent s
        = (Throw e, {| state := state s; world := w;
                       trace := trace s ++ [db_removeItem_called view agent] |}))
  /\ (db_unhideAll K (world s) = (Throw e, w) ->
      unhideAll K s
      = (Throw e, {| state := state s; world := w;
                     trace := trace s ++ [db_unhideAll_called] |})).
Proof.
  unfold hide, unhide, makeVisible, addItem, replaceItem, removeItem, unhideAll.
  repeat split; intros; unfold bind; rewrite call_run;
    match goal with H : _ = (Throw e, w) |- _ => rewrite H end; reflexivity.
Qed.

Lemma bind_keeps_idle {A B} (m : M W A) (k : A -> M W B) (s : ContourManager W) :
  state (snd (m s)) = none ->
  (forall a s1, state s1 = none -> state (snd (k a s1)) = none) ->
  state (snd ((x <- m;; k x) s)) = none.
Proof.
  intros Hm Hk. unfold bind. destruct (m s) as [[a|e] s1]; simpl in *; auto.
Qed.

Lemma addCurve_keeps_idle (curve : Item) (s : ContourManager W) :
  state s = none -> state (snd (addCurve K curve s)) = none.
Proof.
  intros Hs. unfold addCurve, bind at 1, get_state; rewrite Hs.
  apply bind_keeps_idle; [rewrite call_state; assumption|]. intros [] s1 H1.
  apply bind_keeps_idle.
  { unfold lookup. destruct (curves_lookup K (ByCurve curve) (world s1)); assumption. }
  intros info s2 H2. apply bind_keeps_idle.
  { destruct info; assumption. }
  intros p s3 H3. rewrite call_state; assumption.
Qed.

Lemma removeCurve_keeps_idle (curve : Item) (s : ContourManager W) :
  state s = none -> state (snd (removeCurve K curve s)) = none.
Proof.
  intros Hs. unfold removeCurve, bind at 1, get_state; rewrite Hs.
  apply bind_keeps_idle.
  { unfold lookup. destruct (curves_lookup K (ByCurve curve) (world s)); assumption. }
  intros info s1 H1. apply bind_keeps_idle; [rewrite call_state; assumption|].
  intros [] s2 H2. apply bind_keeps_idle.
  { destruct info; assumption. }
  intros p s3 H3. rewrite call_state; assumption.
Qed.

Lemma addCurve_resume_state (p : Promise) (s : ContourManager W) :
  state (snd (addCurve_resume K p s)) = state s.
Proof.
  destruct p as [r|c [[]|e]|r]; simpl; try reflexivity.
  unfold bind, lookup, placement_of.
  destruct (curves_lookup K (ByCurve c) (world s)) as [info| |e]; simpl; try reflexivity.
  rewrite call_run. reflexivity.
Qed.

Lemma resume_all_state (promises : list Promise) (s : ContourManager W) :
  state (snd (resume_all K promises s)) = state s.
Proof.
  revert s; induction promises as [|p promises IH]; intros s; simpl; [reflexivity|].
  pose proof (addCurve_resume_state p s) as Hp.
  destruct (addCurve_resume K p s) as [p' s1]; simpl in Hp.
  specialize (IH s1). destruct (resume_all K promises s1) as [ps s2]; simpl in *.
  congruence.
Qed.

(** X8 (idle is kept).  No method leaves the coordinator inside a
    transaction: started idle, each of them ends idle, whether it
    returns or throws and whatever the collaborators do. *)
Theorem methods_end_idle (s : ContourManager W) :
  state s = none ->
  (forall curve, state (snd (addCurve K curve s)) = none)
  /\ (forall curve, state (snd (removeCurve K curve s)) = none)
  /\ (forall item, state (snd (hide K item s)) = none)
  /\ (forall item, state (snd (unhide K item s)) = none)
  /\ (forall item value, state (snd (makeVisible K item value s)) = none)
  /\ (forall model agent, state (snd (addItem K model agent s)) = none)
  /\ (forall from to, state (snd (replaceItem K from to s)) = none)
  /\ (forall view agent, state (snd (removeItem K view agent s)) = none)
  /\ state (snd (unhideAll K s)) = none
  /\ (forall f, state (snd (transaction K f s)) = none)
  /\ (forall db_find, state (snd (rebuild K db_find s)) = none).
Proof.
  intros Hs.
  assert (Hret : forall A (a : A) (s1 : ContourManager W),
            state s1 = none -> state (snd (ret a s1)) = none) by (intros; assumption).
  assert (Hwhen : forall (b : bool) (m : M W unit) (s1 : ContourManager W),
            state s1 = none ->
            (state s1 = none -> state (snd (m s1)) = none) ->
            state (snd ((if b then m else ret tt) s1)) = none)
    by (intros [] m s1 H1 Hm; auto).
  repeat split.
  - intros curve; apply addCurve_keeps_idle; assumption.
  - intros curve; apply removeCurve_keeps_idle; assumption.
  - intros item. unfold hide.
    apply bind_keeps_idle; [rewrite call_state; assumption|]. intros r s1 H1.
    apply bind_keeps_idle; [|intros; apply Hret; assumption].
    apply Hwhen; [assumption|apply removeCurve_keeps_idle].
  - intros item. unfold unhide.
    apply bind_keeps_idle; [rewrite call_state; assumption|]. intros r s1 H1.
    apply bind_keeps_idle; [|intros; apply Hret; assumption].
    apply Hwhen; [assumption|apply addCurve_keeps_idle].
  - intros item value. unfold makeVisible.
    apply bind_keeps_idle; [rewrite call_state; assumption|]. intros r s1 H1.
    apply bind_keeps_idle; [|intros; apply Hret; assumption].
    apply Hwhen; [assumption|].
    destruct value; [apply addCurve_keeps_idle|apply removeCurve_keeps_idle].
  - intros model agent. unfold addItem.
    apply bind_keeps_idle; [rewrite call_state; assumption|]. intros r s1 H1.
    apply bind_keeps_idle; [|intros; apply Hret; assumption].
    apply Hwhen; [assumption|apply addCurve_keeps_idle].
  - intros from to. unfold replaceItem.
    apply bind_keeps_idle; [rewrite call_state; assumption|]. intros r s1 H1.
    apply bind_keeps_idle; [|intros; apply Hret; assumption].
    apply Hwhen; [assumption|]. intros _.
    apply bind_keeps_idle; [apply removeCurve_keeps_idle; assumption|].
    intros [] s2 H2. apply addCurve_keeps_idle; assumption.
  - intros view agent. unfold removeItem.
    apply bind_keeps_idle; [rewrite call_state; assumption|]. intros r s1 H1.
    apply bind_keeps_idle; [|intros; apply Hret; assumption].
    apply Hwhen; [assumption|apply removeCurve_keeps_idle].
  - unfold unhideAll.
    apply bind_keeps_idle; [rewrite call_state; assumption|]. intros unhidden s1 H1.
    match goal with |- context [start_all K ?cs s1] =>
      destruct (start_all_idle K cs s1 H1) as (H0 & _);
      destruct (start_all K cs s1) as [started s0] end.
    simpl in H0.
    pose proof (resume_all_state started s0) as Hr1.
    destruct (resume_all K started s0) as [resumed s2]; simpl in Hr1.
    pose proof (resume_all_state resumed s2) as Hr2.
    destruct (resume_all K resumed s2) as [finished s3]; simpl in Hr2.
    assert (H3 : state s3 = none) by congruence.
    destruct (rejection started), (rejection resumed), (rejection finished); exact H3.
  - intros f. rewrite (transaction_idle K f s Hs). reflexivity.
  - intros db_find. unfold rebuild. rewrite (transaction_idle K _ s Hs). reflexivity.
Qed.

(** X9 ([unhideAll] inside a transaction).  Called inside a transaction,
    [unhideAll] adds the name of every unhidden [SpaceInstance] to
    [added] and returns what the database unhid; it calls neither
    [curves.add] nor [updatePlacement]. *)
Theorem unhideAll_in_transaction (s : ContourManager W) (tx : Transaction)
    (unhidden : list Item) (w : W) :
  state s = in_transaction tx ->
  db_unhideAll K (world s) = (Return unhidden, w) ->
  unhideAll K s
  = (Return unhidden,
     {| state := in_transaction
                   (added_all (filter (fun item => instanceof item SpaceInstance = true)
                                 unhidden) tx);
        world := w;
        trace := trace s ++ [db_unhideAll_called] |}).
Proof.
  intros Hs Hdb. unfold unhideAll, bind. rewrite call_run, Hdb. simpl.
  set (curves := filter (fun item => instanceof item SpaceInstance = true) unhidden).
  match goal with |- context [start_all K curves ?s1] =>
    destruct (start_all_in_transaction curves s1 tx Hs) as (H1 & H2 & H3);
    destruct (start_all K curves s1) as [started s0] end.
  simpl in H1, H2, H3. subst s0.
  match goal with |- context [resume_all K started ?s1] =>
    destruct (H3 s1) as [H4 H5];
    destruct (resume_all K started s1) as [resumed s2] end.
  simpl in H4, H5. subst s2 resumed.
  match goal with |- context [resume_all K started ?s1] =>
    destruct (H3 s1) as [H6 H7];
    destruct (resume_all K started s1) as [finished s3] end.
  simpl in H6, H7. subst s3 finished.
  rewrite H2. reflexivity.
Qed.

End MoreLaws.

(** * The geometry database *)

Section GeometryDatabaseLaws.

Import GeometryDatabase.

Variable CreateMesh : c3dItem -> Q -> Result Mesh.

Lemma same_refl (v : View) : same v v = true.
Proof. unfold same. apply Nat.eqb_refl. Qed.

Lemma object2mesh_each_spec (table : list (Q * Q)) (builder built : View) (obj : c3dItem) :
  object2mesh_each CreateMesh builder obj table = Ok built ->
  ref built = ref builder
  /\ view_class built = view_class builder
  /\ userData_simpleName built = userData_simpleName builder
  /\ snd <$> levels built = (snd <$> levels builder) ++ (snd <$> table).
Proof.
  revert builder; induction table as [|[precision distance] table IH]; intros builder; simpl.
  - intros [= <-]. rewrite app_nil_r. repeat split.
  - destruct (object2mesh CreateMesh builder obj precision distance) as [b'|e] eqn:E;
      [|discriminate].
    intros (H1 & H2 & H3 & H4)%IH.
    unfold object2mesh in E. destruct (CreateMesh obj precision) as [mesh|?]; [|discriminate].
    assert (Hb : ref b' = ref builder /\ view_class b' = view_class builder
                 /\ userData_simpleName b' = userData_simpleName builder
                 /\ snd <$> levels b' = (snd <$> levels builder) ++ [distance]).
    { destruct (IsA obj); try discriminate.
      - injection E as <-; simpl. rewrite fmap_app. repeat split.
      - destruct (GetBuffers mesh) as [|g [|? ?]]; try discriminate.
        injection E as <-; simpl. rewrite fmap_app. repeat split.
      - injection E as <-; simpl. rewrite fmap_app. repeat split. }
    destruct Hb as (B1 & B2 & B3 & B4).
    rewrite H1, H2, H3, H4, B1, B2, B3, B4, <- app_assoc. repeat split.
Qed.

(** [meshes] constructs one object and touches nothing else. *)
Lemma meshes_spec (obj : c3dItem) (table : list (Q * Q)) (db : t) :
  counter (snd (meshes CreateMesh obj table db)) = counter db
  /\ geometryModel (snd (meshes CreateMesh obj table db)) = geometryModel db
  /\ drawModel (snd (meshes CreateMesh obj table db)) = drawModel db
  /\ scene (snd (meshes CreateMesh obj table db)) = scene db
  /\ signals (snd (meshes CreateMesh obj table db)) = signals db
  /\ (allocated db <= allocated (snd (meshes CreateMesh obj table db)))%nat
  /\ forall built,
       fst (meshes CreateMesh obj table db) = Ok built ->
       ref built = allocated db
       /\ allocated (snd (meshes CreateMesh obj table db)) = S (allocated db)
       /\ userData_simpleName built = None
       /\ snd <$> levels built = snd <$> table
       /\ match IsA obj with
          | st_SpaceInstance => view_class built = SpaceInstance
          | st_PlaneInstance => view_class built = PlaneInstance
          | st_Solid => view_class built = Solid
          | st_other _ => False
          end.
Proof.
  unfold meshes.
  destruct (IsA obj); simpl;
    (split; [reflexivity|]); (split; [reflexivity|]); (split; [reflexivity|]);
    (split; [reflexivity|]); (split; [reflexivity|]); (split; [lia|]);
    intros built Hb; try discriminate;
    apply object2mesh_each_spec in Hb as (H1 & H2 & H3 & H4); simpl in *; auto.
Qed.

Lemma increment_ge (n : Z) : n <= increment n.
Proof. unfold increment. destruct (n <? 2 ^ 53); lia. Qed.

Lemma increment_below (n : Z) : n < 2 ^ 53 -> increment n = n + 1.
Proof. unfold increment. intros H. destruct (Z.ltb_spec n (2 ^ 53)); lia. Qed.

Lemma elem_of_Set_add (v x : View) (l : list View) :
  x ∈ Set_add v l -> x = v \/ x ∈ l.
Proof.
  unfold Set_add. destruct (existsb (same v) l); [auto|].
  rewrite elem_of_app, list_elem_of_singleton. tauto.
Qed.

Lemma elem_of_Object3D_remove (v x : View) (l : list View) :
  x ∈ Object3D_remove v l -> x ∈ l.
Proof. unfold Object3D_remove. rewrite list_elem_of_filter. tauto. Qed.

Lemma elem_of_Object3D_add (v x : View) (l : list View) :
  x ∈ Object3D_add v l -> x = v \/ x ∈ l.
Proof.
  unfold Object3D_add. rewrite elem_of_app, list_elem_of_singleton.
  intros [H%elem_of_Object3D_remove|H]; auto.
Qed.

(** An object just constructed is in no list of known objects. *)
Lemma remove_fresh (v : View) (l : list View) (n : nat) :
  (forall x, x ∈ l -> (ref x < n)%nat) -> ref v = n ->
  filter (fun x => same v x = false) l = l /\ existsb (same v) l = false.
Proof.
  intros Hl Hv. induction l as [|x l IH]; [split; reflexivity|].
  assert (Hx : same v x = false).
  { unfold same. apply Nat.eqb_neq. specialize (Hl x ltac:(left)). lia. }
  destruct IH as [IH1 IH2]; [intros y Hy; apply Hl; right; assumption|].
  split.
  - rewrite filter_cons. case_decide; [|contradiction]. rewrite IH1. reflexivity.
  - simpl. rewrite Hx, IH2. reflexivity.
Qed.

Lemma addItem_run (model : c3dItem) (db : t) :
  let db1 :=
    {| counter := increment (counter db);
       geometryModel := <[counter db := model]> (geometryModel db);
       drawModel := drawModel db; scene := scene db;
       allocated := allocated db; signals := signals db |} in
  counter (snd (addItem CreateMesh model db)) = increment (counter db)
  /\ geometryModel (snd (addItem CreateMesh model db))
     = <[counter db := model]> (geometryModel db)
  /\ match fst (addItem CreateMesh model db) with
     | Err e =>
         fst (meshes CreateMesh model precision_distance db1) = Err e
         /\ drawModel (snd (addItem CreateMesh model db)) = drawModel db
         /\ scene (snd (addItem CreateMesh model db)) = scene db
         /\ signals (snd (addItem CreateMesh model db)) = signals db
         /\ (allocated db <= allocated (snd (addItem CreateMesh model db)))%nat
     | Ok v =>
         ref v = allocated db
         /\ allocated (snd (addItem CreateMesh model db)) = S (allocated db)
         /\ userData_simpleName v = Some (counter db)
         /\ snd <$> levels v = snd <$> precision_distance
         /\ match IsA model with
            | st_SpaceInstance => view_class v = SpaceInstance
            | st_PlaneInstance => view_class v = PlaneInstance
            | st_Solid => view_class v = Solid
            | st_other _ => False
            end
         /\ drawModel (snd (addItem CreateMesh model db)) = Set_add v (drawModel db)
         /\ scene (snd (addItem CreateMesh model db)) = Object3D_add v (scene db)
         /\ signals (snd (addItem CreateMesh model db))
            = signals db ++ [objectAdded v; sceneGraphChanged]
     end.
Proof.
  intros db1. unfold addItem. fold db1.
  destruct (meshes_spec model precision_distance db1)
    as (H1 & H2 & H3 & H4 & H5 & H6 & H7).
  destruct (meshes CreateMesh model precision_distance db1) as [[built|e] db2];
    simpl in *.
  - destruct (H7 built eq_refl) as (B1 & B2 & B3 & B4 & B5).
    rewrite H1, H2, H3, H4, H5. repeat split; assumption.
  - repeat split; assumption.
Qed.

(** X10 ([addItem] then [lookup]).  A view that [addItem] returns is
    named by the counter as it was, its class is that of the kernel
    type of the model, it has one level per entry of the precision
    table, it is in the draw model and the last child of the scene, the
    two signals are dispatched, and [lookup] of it answers the model. *)
Theorem addItem_then_lookup (model : c3dItem) (db db' : t) (v : View) :
  addItem CreateMesh model db = (Ok v, db') ->
  lookup v db' = Ok model
  /\ userData_simpleName v = Some (counter db)
  /\ existsb (same v) (drawModel db') = true
  /\ (exists front, scene db' = front ++ [v])
  /\ signals db' = signals db ++ [objectAdded v; sceneGraphChanged]
  /\ snd <$> levels v = [50; 5; 1 # 2]%Q
  /\ match IsA model with
     | st_SpaceInstance => view_class v = SpaceInstance
     | st_PlaneInstance => view_class v = PlaneInstance
     | st_Solid => view_class v = Solid
     | st_other _ => False
     end.
Proof.
  intros Hadd. pose proof (addItem_run model db) as Hrun. simpl in Hrun.
  rewrite Hadd in Hrun. simpl in Hrun.
  destruct Hrun as (_ & Hgm & _ & _ & Hname & Hlev & Hclass & Hdraw & Hscene & Hsig).
  split; [|split; [|split; [|split; [|split; [|split]]]]]; try assumption.
  - unfold lookup, lookupItem. rewrite Hname, Hgm, lookup_insert_eq. reflexivity.
  - rewrite Hdraw. unfold Set_add.
    destruct (existsb (same v) (drawModel db)) eqn:E; [assumption|].
    rewrite existsb_app; simpl. rewrite same_refl, orb_true_r. reflexivity.
  - rewrite Hscene. eexists; reflexivity.
Qed.

(** X11 (what the database keeps).  Every operation keeps the database
    well formed: the names of the geometry model are names the counter
    has passed and the objects of the draw model and of the scene are
    objects already constructed; for [addItem] the counter must be
    below 2^53, for [restoreFromMemento] the memento must hold nothing
    the database does not know. *)
Theorem operations_keep_well_formed (db : t) :
  well_formed db ->
  (forall model, counter db < 2 ^ 53 -> well_formed (snd (addItem CreateMesh model db)))
  /\ (forall object, well_formed (snd (addTemporaryItem CreateMesh object db)))
  /\ (forall mesh, well_formed (cancel mesh db))
  /\ (forall mesh object,
        counter db < 2 ^ 53 -> well_formed (snd (commit CreateMesh mesh object db)))
  /\ (forall object, well_formed (removeItem object db))
  /\ (forall m, restorable m db -> well_formed (restoreFromMemento m db)).
Proof.
  assert (Hadd : forall db0 model, well_formed db0 -> counter db0 < 2 ^ 53 ->
                   well_formed (snd (addItem CreateMesh model db0))).
  { intros db0 model (Hc & Hn & Hr) Hlt.
    pose proof (addItem_run model db0) as Hrun. simpl in Hrun.
    destruct Hrun as (H1 & H2 & H3).
    unfold well_formed. rewrite H1, H2, (increment_below _ Hlt).
    split; [lia|]. split.
    - intros n. rewrite lookup_insert. case_decide as Hk; [lia|].
      intros Hsome%Hn. lia.
    - destruct (fst (addItem CreateMesh model db0)) as [v|e].
      + destruct H3 as (R1 & R2 & _ & _ & _ & D & S & _). rewrite D, S, R2.
        intros x [Hx|Hx]%elem_of_app.
        * apply elem_of_Set_add in Hx as [->|Hx]; [lia|].
          specialize (Hr x ltac:(apply elem_of_app; left; assumption)). lia.
        * apply elem_of_Object3D_add in Hx as [->|Hx]; [lia|].
          specialize (Hr x ltac:(apply elem_of_app; right; assumption)). lia.
      + destruct H3 as (_ & D & S & _ & A). rewrite D, S.
        intros x Hx. specialize (Hr x Hx). lia. }
  assert (Hrem : forall db0 mesh, well_formed db0 -> well_formed (scene_remove mesh db0)).
  { intros db0 mesh (Hc & Hn & Hr). unfold well_formed; simpl.
    split; [assumption|]. split; [assumption|].
    intros x [Hx|Hx%elem_of_Object3D_remove]%elem_of_app; apply Hr, elem_of_app; auto. }
  intros Hwf. pose proof Hwf as (Hc & Hn & Hr).
  split; [intros model; apply Hadd; assumption|].
  split; [|split; [intros mesh; apply Hrem; assumption|]].
  2: split; [intros mesh object Hlt; apply Hadd; [apply Hrem; assumption|assumption]|].
  2: split.
  - intros object. unfold addTemporaryItem.
    destruct (meshes_spec object [(5 # 1000, 1)%Q] db) as (H1 & H2 & H3 & H4 & H5 & H6 & H7).
    destruct (meshes CreateMesh object [(5 # 1000, 1)%Q] db) as [[mesh|e] db1];
      simpl in *; unfold well_formed; simpl; rewrite ?H1, ?H2, ?H3, ?H4.
    + destruct (H7 mesh eq_refl) as (B1 & B2 & _).
      split; [assumption|]. split; [assumption|].
      intros x [Hx|Hx]%elem_of_app.
      * specialize (Hr x ltac:(apply elem_of_app; left; assumption)). lia.
      * apply elem_of_Object3D_add in Hx as [->|Hx]; [lia|].
        specialize (Hr x ltac:(apply elem_of_app; right; assumption)). lia.
    + split; [assumption|]. split; [assumption|].
      intros x Hx. specialize (Hr x Hx). lia.
  - intros object. unfold well_formed; simpl.
    split; [assumption|]. split.
    + intros n Hsome. apply Hn.
      unfold geometryModel_delete in Hsome.
      destruct (userData_simpleName object) as [k|]; [|assumption].
      destruct (decide (k = n)) as [->|Hne].
      * rewrite lookup_delete_eq in Hsome. destruct Hsome; discriminate.
      * rewrite lookup_delete_ne in Hsome by assumption. assumption.
    + intros x [Hx|Hx%elem_of_Object3D_remove]%elem_of_app;
        apply Hr, elem_of_app; [left|right; assumption].
      unfold Set_delete in Hx. apply list_elem_of_filter in Hx as [_ Hx]. assumption.
  - intros m [Mn Mr]. unfold well_formed; simpl.
    split; [assumption|]. split; [assumption|].
    assert (Hsub : forall l acc x,
              x ∈ foldl (fun l v => Set_add v l) acc l -> x ∈ acc \/ x ∈ l).
    { induction l as [|y l IH]; intros acc x Hx; simpl in *; [auto|].
      apply IH in Hx as [Hx|Hx]; [|right; right; assumption].
      apply elem_of_Set_add in Hx as [->|Hx]; [right; left|left; assumption]. }
    intros x [Hx|Hx]%elem_of_app; apply Mr, elem_of_app; [left|right; assumption].
    apply Hsub in Hx as [[]%elem_of_nil|Hx]. assumption.
Qed.

(** X12 ([addItem] overwrites nothing).  In a well-formed database
    [addItem], whether it returns or throws, leaves every model that
    could be looked up as it was, and where it returns the view is
    appended to the draw model and to the scene, so that [find] answers
    what it answered before, followed by the new view when it is of the
    class asked for. *)
Theorem addItem_keeps_the_others (model : c3dItem) (db : t) :
  well_formed db ->
  (forall u item, lookup u db = Ok item ->
                  lookup u (snd (addItem CreateMesh model db)) = Ok item)
  /\ (forall v,
        fst (addItem CreateMesh model db) = Ok v ->
        drawModel (snd (addItem CreateMesh model db)) = drawModel db ++ [v]
        /\ scene (snd (addItem CreateMesh model db)) = scene db ++ [v]
        /\ forall klass,
             find klass (snd (addItem CreateMesh model db))
             = find klass db ++ (if instance_of v klass then [v] else [])).
Proof.
  intros (Hc & Hn & Hr).
  pose proof (addItem_run model db) as Hrun. simpl in Hrun.
  destruct Hrun as (H1 & H2 & H3). split.
  - intros u item. unfold lookup, lookupItem. rewrite H2.
    destruct (userData_simpleName u) as [n|]; [|discriminate].
    destruct (geometryModel db !! n) as [i|] eqn:E; [|discriminate].
    intros [= <-]. rewrite lookup_insert_ne, E; [reflexivity|].
    specialize (Hn n ltac:(rewrite E; eauto)). lia.
  - intros v Hv. rewrite Hv in H3.
    destruct H3 as (R1 & _ & _ & _ & _ & D & S & _).
    destruct (remove_fresh v (drawModel db) (allocated db)) as [_ F2];
      [intros x Hx; apply Hr, elem_of_app; left; assumption|assumption|].
    destruct (remove_fresh v (scene db) (allocated db)) as [F3 _];
      [intros x Hx; apply Hr, elem_of_app; right; assumption|assumption|].
    assert (D' : drawModel (snd (addItem CreateMesh model db)) = drawModel db ++ [v])
      by (rewrite D; unfold Set_add; rewrite F2; reflexivity).
    split; [exact D'|]. split.
    + rewrite S. unfold Object3D_add, Object3D_remove. rewrite F3. reflexivity.
    + intros klass. unfold find. rewrite D', filter_app. f_equal.
      rewrite filter_cons, filter_nil. destruct (instance_of v klass); case_decide;
        congruence.
Qed.

(** X13 ([removeItem] then [lookup]).  After [removeItem] of a view, the
    [lookup] of it, and of any view of the same name, throws; the views
    of other names are looked up as before; the object is in the draw
    model and in the scene no more; and the two signals are dispatched,
    whether the view was in the database or not. *)
Theorem removeItem_then_lookup (object : View) (db : t) :
  (forall u, userData_simpleName u = userData_simpleName object ->
             lookup u (removeItem object db)
             = Err (missing_from_geometry_model (userData_simpleName object)))
  /\ (forall u, userData_simpleName u <> userData_simpleName object ->
               lookup u (removeItem object db) = lookup u db)
  /\ existsb (same object) (drawModel (removeItem object db)) = false
  /\ existsb (same object) (scene (removeItem object db)) = false
  /\ signals (removeItem object db)
     = signals db ++ [objectRemoved object; sceneGraphChanged].
Proof.
  assert (Hgone : forall l,
            existsb (same object) (filter (fun x => same object x = false) l) = false).
  { induction l as [|x l IH]; [reflexivity|].
    rewrite filter_cons. case_decide as Hx; [|assumption].
    simpl. rewrite Hx, IH. reflexivity. }
  split; [|split; [|split; [|split]]]; try reflexivity; try apply Hgone.
  - intros u Hu. unfold lookup, lookupItem; simpl. rewrite Hu.
    destruct (userData_simpleName object) as [n|]; simpl; [|reflexivity].
    rewrite lookup_delete_eq. reflexivity.
  - intros u Hu. unfold lookup, lookupItem; simpl.
    destruct (userData_simpleName u) as [n|]; [|reflexivity].
    destruct (userData_simpleName object) as [k|]; simpl; [|reflexivity].
    rewrite lookup_delete_ne; [reflexivity|]. congruence.
Qed.

(** X14 (an [addItem] that throws).  When [addItem] throws, on a kernel
    type it does not support or on a failure of the meshing, the name
    is spent all the same and the model stays in the geometry model
    under it; the draw model, the scene and the signals are untouched. *)
Theorem addItem_failure_keeps_the_model (model : c3dItem) (db : t) (e : DbError) :
  fst (addItem CreateMesh model db) = Err e ->
  counter (snd (addItem CreateMesh model db)) = increment (counter db)
  /\ geometryModel (snd (addItem CreateMesh model db))
     = <[counter db := model]> (geometryModel db)
  /\ drawModel (snd (addItem CreateMesh model db)) = drawModel db
  /\ scene (snd (addItem CreateMesh model db)) = scene db
  /\ signals (snd (addItem CreateMesh model db)) = signals db
  /\ (forall code, IsA model = st_other code -> e = type_not_yet_supported).
Proof.
  intros He. pose proof (addItem_run model db) as Hrun. simpl in Hrun.
  rewrite He in Hrun. destruct Hrun as (H1 & H2 & Hm & H3 & H4 & H5 & _).
  repeat split; try assumption.
  intros code Hcode. unfold meshes in Hm. rewrite Hcode in Hm. simpl in Hm. congruence.
Qed.

Lemma object2mesh_each_PlaneInstance (table : list (Q * Q)) (builder : View)
    (obj : c3dItem) :
  IsA obj = st_PlaneInstance ->
  (exists built, object2mesh_each CreateMesh builder obj table = Ok built)
  <-> Forall (fun entry => exists mesh grid,
                CreateMesh obj (fst entry) = Ok mesh /\ GetBuffers mesh = [grid]) table.
Proof.
  intros Hp. revert builder; induction table as [|[precision distance] table IH];
    intros builder; simpl.
  - split; [constructor|eauto].
  - unfold object2mesh. rewrite Hp. split.
    + intros [built Hb].
      destruct (CreateMesh obj precision) as [mesh|e] eqn:E; [|discriminate].
      destruct (GetBuffers mesh) as [|grid [|? ?]] eqn:G; try discriminate.
      constructor; [exists mesh, grid; split; assumption|].
      eapply IH. eauto.
    + intros Hall. inversion Hall as [|x l (mesh & grid & Hm & Hg) Hrest]; subst.
      simpl in Hm. rewrite Hm, Hg. apply IH. assumption.
Qed.

(** X15 (a region has one grid).  [addItem] of a [PlaneInstance] returns
    exactly when, at each of the three precisions, the kernel answers a
    mesh that has one grid. *)
Theorem addItem_PlaneInstance_needs_one_grid (model : c3dItem) (db : t) :
  IsA model = st_PlaneInstance ->
  (exists v, fst (addItem CreateMesh model db) = Ok v)
  <-> Forall (fun entry => exists mesh grid,
                CreateMesh model (fst entry) = Ok mesh /\ GetBuffers mesh = [grid])
        precision_distance.
Proof.
  intros Hp. rewrite <- (object2mesh_each_PlaneInstance precision_distance
    {| ref := allocated db; view_class := PlaneInstance;
       userData_simpleName := None; levels := [] |} model Hp).
  unfold addItem, meshes, new_builder. rewrite Hp.
  destruct (object2mesh_each _ _ _ _) as [built|e]; simpl; split;
    intros [v Hv]; try discriminate; eauto.
Qed.

Lemma step_counter (db db' : t) :
  step CreateMesh db db' -> counter db <= counter db'.
Proof.
  intros [model d|object d|mesh d|mesh object d|object d|m d]; simpl; try lia.
  - destruct (addItem_run model d) as (H & _). rewrite H. apply increment_ge.
  - unfold addTemporaryItem.
    destruct (meshes_spec object [(5 # 1000, 1)%Q] d) as (H & _).
    destruct (meshes CreateMesh object [(5 # 1000, 1)%Q] d) as [[mesh|e] d1];
      simpl in *; lia.
  - unfold commit.
    destruct (addItem_run object (scene_remove mesh d)) as (H & _). rewrite H.
    apply increment_ge.
Qed.

(** X16 (names are not reused).  The name of a view returned by
    [addItem] below 2^53 is never given again: whatever operations
    follow, removals and restorations of mementos included, a later
    [addItem] names its view differently. *)
Theorem names_are_not_reused (m1 m2 : c3dItem) (db db1 db2 db3 : t) (v1 v2 : View) :
  counter db < 2 ^ 53 ->
  addItem CreateMesh m1 db = (Ok v1, db1) ->
  rtc (step CreateMesh) db1 db2 ->
  addItem CreateMesh m2 db2 = (Ok v2, db3) ->
  userData_simpleName v1 <> userData_simpleName v2.
Proof.
  intros Hlt H1 Hsteps H2.
  pose proof (addItem_run m1 db) as R1. pose proof (addItem_run m2 db2) as R2.
  simpl in R1, R2. rewrite H1 in R1. rewrite H2 in R2. simpl in R1, R2.
  destruct R1 as (C1 & _ & _ & _ & N1 & _). destruct R2 as (_ & _ & _ & _ & N2 & _).
  rewrite (increment_below _ Hlt) in C1.
  assert (Hmono : counter db1 <= counter db2).
  { clear -Hsteps. induction Hsteps as [|x y z Hxy _ IH]; [lia|].
    apply step_counter in Hxy. lia. }
  rewrite N1, N2. intros [= Heq]. lia.
Qed.

(** X17 (temporary items).  A temporary item is put in the scene and
    nowhere else: the counter, the geometry model, the draw model and
    the signals are untouched, its [lookup] throws, and [cancel] leaves
    the scene as it was before. *)
Theorem temporary_item_is_only_in_the_scene (object : c3dItem) (db db' : t) (mesh : View) :
  well_formed db ->
  addTemporaryItem CreateMesh object db = (Ok mesh, db') ->
  counter db' = counter db
  /\ geometryModel db' = geometryModel db
  /\ drawModel db' = drawModel db
  /\ signals db' = signals db
  /\ scene db' = scene db ++ [mesh]
  /\ lookup mesh db' = Err (missing_from_geometry_model None)
  /\ scene (cancel mesh db') = scene db.
Proof.
  intros (Hc & Hn & Hr). unfold addTemporaryItem.
  destruct (meshes_spec object [(5 # 1000, 1)%Q] db) as (H1 & H2 & H3 & H4 & H5 & H6 & H7).
  destruct (meshes CreateMesh object [(5 # 1000, 1)%Q] db) as [[built|e] db1];
    simpl in *; [|discriminate].
  intros [= -> <-]; simpl.
  destruct (H7 mesh eq_refl) as (B1 & B2 & B3 & _).
  destruct (remove_fresh mesh (scene db) (allocated db)) as [F1 F2];
    [intros x Hx; apply Hr, elem_of_app; right; assumption|assumption|].
  assert (Hscene : Object3D_add mesh (scene db1) = scene db ++ [mesh])
    by (rewrite H4; unfold Object3D_add, Object3D_remove; rewrite F1; reflexivity).
  repeat split; try assumption.
  - unfold lookup, lookupItem. rewrite B3. reflexivity.
  - rewrite Hscene. unfold Object3D_remove. rewrite filter_app, F1.
    rewrite filter_cons, filter_nil. case_decide as Hs; [|apply app_nil_r].
    rewrite same_refl in Hs. discriminate.
Qed.

End GeometryDatabaseLaws.

(** * The view classes *)

Section VisualModelLaws.

Import VisualModel.

Lemma numeric_pretty_N_go (x : N) (s : string) :
  numeric s = true -> numeric (pretty_N_go x s) = true.
Proof.
  revert s. induction (N.lt_wf_0 x) as [x _ IH]; intros s Hs.
  assert (x = 0 \/ 0 < x)%N as [->|Hx] by lia.
  - rewrite pretty_N_go_0. assumption.
  - rewrite pretty_N_go_step by assumption. apply IH.
    + apply N.div_lt; [assumption|reflexivity].
    + simpl. rewrite Hs, andb_true_r.
      unfold pretty_N_char. repeat case_match; reflexivity.
Qed.

Lemma append_String (c : ascii) (a b : string) : String c a +:+ b = String c (a +:+ b).
Proof. reflexivity. Qed.

Lemma append_empty (b : string) : "" +:+ b = b.
Proof. reflexivity. Qed.

Lemma numeric_number_to_string (n : Z) : numeric (number_to_string n) = true.
Proof.
  assert (HN : forall x : N, numeric (pretty x) = true).
  { intros x. unfold pretty, pretty_N. case_decide; [reflexivity|].
    apply numeric_pretty_N_go. reflexivity. }
  unfold number_to_string, pretty, pretty_Z. destruct n as [|p|p]; [reflexivity|..].
  - apply (HN (N.pos p)).
  - rewrite append_String, append_empty. simpl numeric. apply (HN (N.pos p)).
Qed.

Lemma append_inj_r (a b b' : string) : a +:+ b = a +:+ b' -> b = b'.
Proof.
  induction a as [|c a IH]; rewrite ?append_empty, ?append_String; [auto|].
  intros [= H]. auto.
Qed.

(** Two names split at their first comma alike. *)
Lemma split_at_comma (a a' b b' : string) :
  numeric a = true -> numeric a' = true ->
  a +:+ "," +:+ b = a' +:+ "," +:+ b' ->
  a = a' /\ b = b'.
Proof.
  revert a'; induction a as [|c a IH]; intros [|c' a'];
    rewrite ?append_empty, ?append_String, ?append_empty; simpl numeric.
  - intros _ _ [= ->]. split; reflexivity.
  - intros _ [Hc _]%andb_true_iff [= <- _]. discriminate.
  - intros [Hc _]%andb_true_iff _ [= -> _]. discriminate.
  - intros [_ Ha]%andb_true_iff [_ Ha']%andb_true_iff [= -> H].
    destruct (IH a' Ha Ha' H) as [-> ->]. split; reflexivity.
Qed.

Lemma number_to_string_inj (n m : Z) : number_to_string n = number_to_string m -> n = m.
Proof. apply pretty_Z_inj. Qed.

Lemma pair_name_inj (p i p' i' : Z) :
  number_to_string p +:+ "," +:+ number_to_string i
  = number_to_string p' +:+ "," +:+ number_to_string i' ->
  p = p' /\ i = i'.
Proof.
  intros [Hp Hi]%split_at_comma; try apply numeric_number_to_string.
  split; apply number_to_string_inj; assumption.
Qed.

Lemma iterate_spec (g : ControlPointGroup) (item : Item) (n : nat) (i : Z) :
  parentItem g = Ok item ->
  i + Z.of_nat n <= length g ->
  exists l,
    iterate g i n = Ok l
    /\ index <$> l = seqZ i (Z.of_nat n)
    /\ Forall (fun p =>
                 parentItem_of p = item
                 /\ findByIndex g (index p) = Ok p
                 /\ simpleName_of p
                    = number_to_string (parentId g) +:+ "," +:+ number_to_string (index p))
         l.
Proof.
  intros Hitem. revert i; induction n as [|n IH]; intros i Hle; simpl iterate.
  - exists []. repeat split. constructor.
  - assert (Hfind : findByIndex g i
                    = Ok {| parentItem_of := item; points := g; index := i;
                            simpleName_of := number_to_string (parentId g) +:+ ","
                                             +:+ number_to_string i |}).
    { unfold findByIndex. rewrite Hitem.
      destruct (Z.leb_spec (length g) i); [lia|reflexivity]. }
    rewrite Hfind.
    destruct (IH (i + 1)) as (l & Hl & Hidx & Hall); [lia|].
    rewrite Hl. eexists. split; [reflexivity|]. split.
    + rewrite fmap_cons, Hidx. simpl index.
      rewrite (seqZ_cons i (Z.of_nat (S n))) by lia.
      repeat f_equal; lia.
    + constructor; [|assumption]. simpl. repeat split. assumption.
Qed.

(** X18 (the control points of a curve).  Under a [SpaceInstance] the
    iterator of a control point group yields one point per index from 0
    to [length - 1], each the point [findByIndex] gives, all of that
    item and with pairwise distinct names; the index [length] is refused
    by [findByIndex].  A group with no point can be iterated wherever it
    is; one with points that is not under a [SpaceInstance] throws at
    its first point. *)
Theorem control_points_iterator (g : ControlPointGroup) :
  (forall item,
      parentItem g = Ok item ->
      exists l,
        iterator g = Ok l
        /\ index <$> l = seqZ 0 (length g)
        /\ Forall (fun p => parentItem_of p = item /\ findByIndex g (index p) = Ok p) l
        /\ NoDup (simpleName_of <$> l))
  /\ findByIndex g (length g) = Err invalid_precondition
  /\ (length g <= 0 -> iterator g = Ok [])
  /\ (0 < length g -> forall e, parentItem g = Err e -> iterator g = Err e).
Proof.
  split; [|split; [|split]].
  - intros item Hitem. unfold iterator.
    destruct (Z.le_gt_cases (length g) 0) as [Hle|Hpos].
    { exists []. rewrite Z2Nat.nonpos by assumption.
      split; [reflexivity|]. split.
      - unfold seqZ. rewrite Z2Nat.nonpos by assumption. reflexivity.
      - split; constructor. }
    destruct (iterate_spec g item (Z.to_nat (length g)) 0 Hitem) as (l & Hl & Hidx & Hall);
      [lia|].
    exists l. split; [exact Hl|].
    rewrite Z2Nat.id in Hidx by lia. split; [exact Hidx|]. split.
    + eapply Forall_impl; [exact Hall|]. intros p (? & ? & ?); split; assumption.
    + assert (Hnames : simpleName_of <$> l
                       = (fun k => number_to_string (parentId g) +:+ ","
                                   +:+ number_to_string k) <$> (index <$> l)).
      { clear -Hall. induction Hall as [|p l (_ & _ & Hn) _ IH]; [reflexivity|].
        rewrite !fmap_cons, IH, Hn. reflexivity. }
      rewrite Hnames, Hidx.
      apply NoDup_fmap_2; [|apply NoDup_seqZ].
      intros k k' Hk. apply pair_name_inj in Hk as [_ ?]. assumption.
  - unfold findByIndex. destruct (Z.leb_spec (length g) (length g)); [reflexivity|lia].
  - intros Hle. unfold iterator. rewrite Z2Nat.nonpos by assumption. reflexivity.
  - intros Hpos e He. unfold iterator.
    destruct (Z.to_nat (length g)) as [|n] eqn:En; [lia|].
    simpl. unfold findByIndex. rewrite He.
    destruct (Z.leb_spec (length g) 0); [lia|reflexivity].
Qed.

(** X19 (names of faces, edges and control points).  The name of a face
    determines the solid and the index it was made of, and so do the
    name of an edge and the name of a control point; and no name of one
    kind is a name of another kind. *)
Theorem names_determine_what_they_name (p i p' i' : Z) :
  (Face_simpleName p i = Face_simpleName p' i' -> p = p' /\ i = i')
  /\ (CurveEdge_simpleName p i = CurveEdge_simpleName p' i' -> p = p' /\ i = i')
  /\ (number_to_string p +:+ "," +:+ number_to_string i
      = number_to_string p' +:+ "," +:+ number_to_string i' -> p = p' /\ i = i')
  /\ Face_simpleName p i <> CurveEdge_simpleName p' i'
  /\ number_to_string p +:+ "," +:+ number_to_string i <> Face_simpleName p' i'
  /\ number_to_string p +:+ "," +:+ number_to_string i <> CurveEdge_simpleName p' i'.
Proof.
  assert (Hfirst : forall (s t u : string) (c : ascii),
            numeric s = true -> numeric_char c = false -> c <> ","%char ->
            s +:+ "," +:+ t <> String c u).
  { intros [|d s] t u c Hs Hc Hcomma;
      rewrite ?append_empty, ?append_String, ?append_empty.
    - intros H; injection H as H1 H2. congruence.
    - simpl in Hs. apply andb_true_iff in Hs as [Hd _].
      intros H; injection H as H1 H2. congruence. }
  unfold Face_simpleName, CurveEdge_simpleName.
  rewrite !append_String, !append_empty.
  split; [|split; [|split; [|split; [|split]]]].
  - intros [= H]. apply pair_name_inj; assumption.
  - intros [= H]. apply pair_name_inj; assumption.
  - apply pair_name_inj.
  - discriminate.
  - apply Hfirst; [apply numeric_number_to_string|reflexivity|discriminate].
  - apply Hfirst; [apply numeric_number_to_string|reflexivity|discriminate].
Qed.

End VisualModelLaws.

(** * The further theorems at concrete inputs *)

Lemma rebuild_commits_found_curves_witness :
  let found := fun _ : gmap Z CurveInfo => [curve 1; curve 2; curve 1] in
  (exists ps,
      NoDup ps
      /\ state (snd (rebuild sample5 found (idle ∅))) = none
      /\ dirty (added_all [curve 1; curve 2; curve 1] empty_transaction) = []
      /\ deleted (added_all [curve 1; curve 2; curve 1] empty_transaction) = []
      /\ (forall n, n ∈ added (added_all [curve 1; curve 2; curve 1] empty_transaction)
                    <-> n ∈ simpleName <$> [curve 1; curve 2; curve 1])
      /\ trace (snd (rebuild sample5 found (idle ∅)))
         = [] ++ curves_commit_called
                   (added_all [curve 1; curve 2; curve 1] empty_transaction)
              :: (regions_updatePlacement_called <$> ps))
  /\ rebuild sample5 found (entered (idle ∅))
     = (Throw (InvalidState tag_transaction), entered (idle ∅)).
Proof.
  intros found.
  split.
  - exact (proj1 (rebuild_commits_found_curves sample5 found (idle ∅)) eq_refl).
  - exact (proj2 (rebuild_commits_found_curves sample5 found (entered (idle ∅)))
             empty_transaction eq_refl).
Defined.

Lemma empty_transaction_still_commits_witness :
  transaction sample5 (ret tt) (idle chain)
  = (Return tt,
     {| state := none; world := chain;
        trace := [] ++ [curves_commit_called empty_transaction] |}).
Proof.
  apply (empty_transaction_still_commits sample5 (ret tt) (idle chain) (entered (idle chain)));
    reflexivity.
Defined.

Lemma transaction_rebuilds_affected_placements_witness :
  let K := sample planes7 [] in
  let f := body K (add <$> [curve 6; curve 1; curve 7; curve 2]) in
  trace (snd (transaction K f (idle ∅)))
  = [] ++ curves_commit_called {| dirty := []; added := [6; 1; 7; 2]; deleted := [] |}
       :: (regions_updatePlacement_called <$> [1; 0; 2]).
Proof.
  intros K f.
  assert (Hret : fst (transaction K f (idle ∅)) = Return tt) by reflexivity.
  destruct (transaction_rebuilds_affected_placements K f (idle ∅)
              {| state := in_transaction {| dirty := []; added := [6; 1; 7; 2]; deleted := [] |};
                 world := ∅; trace := [] |}
              {| dirty := []; added := [6; 1; 7; 2]; deleted := [] |}
              eq_refl eq_refl eq_refl Hret) as [H _].
  exact H.
Defined.

Lemma lookup_failure_after_commit_witness :
  let f := body faulty (add <$> [curve 1; curve 9; curve 2]) in
  let tx := {| dirty := []; added := [1; 9; 2]; deleted := [] |} in
  transaction faulty f (idle ∅)
  = (Throw (Failure 9),
     {| state := none;
        world := snd (curves_commit faulty tx ∅);
        trace := [] ++ [curves_commit_called tx] |}).
Proof.
  intros f tx.
  apply (lookup_failure_after_commit faulty f (idle ∅)
           {| state := in_transaction tx; world := ∅; trace := [] |} tx [1] [2] 9).
  - reflexivity.
  - reflexivity.
  - reflexivity.
  - intros c' e' []%elem_of_nil.
  - reflexivity.
  - reflexivity.
  - intros c' e' Hc'. apply list_elem_of_singleton in Hc'. subst c'. discriminate.
  - reflexivity.
Defined.

Lemma rebuild_loop_stops_at_first_failure_witness :
  updatePlacements faulty ([0; 2] ++ 1 :: [3]) (idle ∅)
  = (Throw (Failure 1),
     {| state := none; world := ∅;
        trace := [] ++ (regions_updatePlacement_called <$> [0; 2] ++ [1]) |}).
Proof.
  apply (rebuild_loop_stops_at_first_failure faulty [0; 2] [3] 1 (idle ∅)
           {| state := none; world := ∅;
              trace := [regions_updatePlacement_called 0;
                        regions_updatePlacement_called 2] |});
    reflexivity.
Defined.

Lemma removeCurve_idle_without_record_witness :
  removeCurve faulty (curve 8) (idle chain)
  = (Throw TypeError,
     {| state := none; world := chain;
        trace := [] ++ [curves_remove_called (curve 8)] |})
  /\ removeCurve sample5 (curve 8) (idle chain) = (Throw (NotFound 8), idle chain).
Proof.
  split.
  - exact (proj1 (removeCurve_idle_without_record faulty (curve 8) (idle chain) eq_refl)
             eq_refl).
  - exact (proj2 (removeCurve_idle_without_record sample5 (curve 8) (idle chain) eq_refl)
             (NotFound 8) eq_refl).
Defined.

Lemma database_failure_stops_routing_witness :
  let busy := {| state := in_transaction empty_transaction; world := chain; trace := [] |} in
  hide faulty (curve 13) busy
  = (Throw (Failure 13),
     {| state := state busy; world := chain; trace := [] ++ [db_hide_called (curve 13)] |}).
Proof.
  intros busy.
  exact (proj1 (database_failure_stops_routing faulty busy (Failure 13) chain)
           (curve 13) eq_refl).
Defined.

Lemma methods_end_idle_witness :
  state (snd (removeCurve faulty (curve 8) (idle chain))) = none
  /\ state (snd (transaction faulty (throw (Failure 7)) (idle chain))) = none.
Proof.
  destruct (methods_end_idle faulty (idle chain) eq_refl)
    as (_ & H2 & _ & _ & _ & _ & _ & _ & _ & H10 & _).
  split; [apply H2|apply H10].
Defined.

Lemma unhideAll_in_transaction_witness :
  let hidden := [curve 1; {| class := Solid; simpleName := 7 |}; curve 2] in
  let busy := {| state := in_transaction empty_transaction; world := chain; trace := [] |} in
  unhideAll (sample planes5 hidden) busy
  = (Return hidden,
     {| state := in_transaction
                   (added_all (filter (fun item => instanceof item SpaceInstance = true)
                                 hidden) empty_transaction);
        world := chain;
        trace := [] ++ [db_unhideAll_called] |}).
Proof.
  intros hidden busy.
  apply (unhideAll_in_transaction (sample planes5 hidden) busy empty_transaction hidden chain);
    reflexivity.
Defined.

Lemma empty_well_formed : GeometryDatabase.well_formed GeometryDatabase.empty.
Proof.
  split; [simpl; lia|]. split.
  - intros n [x Hx]. simpl in Hx. rewrite lookup_empty in Hx. discriminate.
  - simpl. intros v []%elem_of_nil.
Defined.

Lemma addItem_then_lookup_witness :
  exists v db',
    GeometryDatabase.addItem GeometryDatabase.sample_kernel (a_curve 1) GeometryDatabase.empty
    = (GeometryDatabase.Ok v, db')
    /\ GeometryDatabase.lookup v db' = GeometryDatabase.Ok (a_curve 1)
    /\ GeometryDatabase.userData_simpleName v = Some 0
    /\ GeometryDatabase.view_class v = SpaceInstance.
Proof.
  eexists _, _. split; [lazy; reflexivity|].
  match goal with |- GeometryDatabase.lookup ?v ?db' = _ /\ _ =>
    destruct (addItem_then_lookup GeometryDatabase.sample_kernel (a_curve 1)
                GeometryDatabase.empty db' v eq_refl)
      as (H1 & H2 & _ & _ & _ & _ & H7) end.
  split; [exact H1|]. split; [exact H2|]. exact H7.
Defined.

Lemma operations_keep_well_formed_witness :
  GeometryDatabase.well_formed
    (snd (GeometryDatabase.addItem GeometryDatabase.sample_kernel (a_curve 1)
            GeometryDatabase.empty))
  /\ GeometryDatabase.well_formed
       (GeometryDatabase.restoreFromMemento
          {| GeometryDatabase.memento_drawModel := [];
             GeometryDatabase.memento_geometryModel := ∅;
             GeometryDatabase.memento_scene := [] |}
          GeometryDatabase.empty).
Proof.
  destruct (operations_keep_well_formed GeometryDatabase.sample_kernel
              GeometryDatabase.empty empty_well_formed)
    as (H1 & _ & _ & _ & _ & H6).
  split.
  - apply H1. simpl. lia.
  - apply H6. split.
    + intros n [x Hx]. simpl in Hx. rewrite lookup_empty in Hx. discriminate.
    + simpl. intros v []%elem_of_nil.
Defined.

Lemma addItem_keeps_the_others_witness :
  let region :=
    {| GeometryDatabase.ref := 0;
       GeometryDatabase.view_class := PlaneInstance;
       GeometryDatabase.userData_simpleName := Some 0;
       GeometryDatabase.levels :=
         [(GeometryDatabase.Region_of 1, 50);
          (GeometryDatabase.Region_of 1, 5);
          (GeometryDatabase.Region_of 1, 1 # 2)]%Q |} in
  GeometryDatabase.find (GeometryDatabase.visual_class PlaneInstance)
    (snd (GeometryDatabase.addItem GeometryDatabase.sample_kernel (a_region 2)
            GeometryDatabase.empty))
  = GeometryDatabase.find (GeometryDatabase.visual_class PlaneInstance) GeometryDatabase.empty
    ++ (if GeometryDatabase.instance_of region (GeometryDatabase.visual_class PlaneInstance)
        then [region] else [])
  /\ GeometryDatabase.find (GeometryDatabase.visual_class Solid)
       (snd (GeometryDatabase.addItem GeometryDatabase.sample_kernel (a_region 2)
               GeometryDatabase.empty))
     = GeometryDatabase.find (GeometryDatabase.visual_class Solid) GeometryDatabase.empty
       ++ (if GeometryDatabase.instance_of region (GeometryDatabase.visual_class Solid)
           then [region] else []).
Proof.
  intros region.
  destruct (addItem_keeps_the_others GeometryDatabase.sample_kernel (a_region 2)
              GeometryDatabase.empty empty_well_formed) as [_ H].
  destruct (H region eq_refl) as (_ & _ & Hfind).
  split; apply Hfind.
Defined.

Lemma removeItem_then_lookup_witness :
  exists v db',
    GeometryDatabase.addItem GeometryDatabase.sample_kernel (a_curve 1) GeometryDatabase.empty
    = (GeometryDatabase.Ok v, db')
    /\ GeometryDatabase.lookup v (GeometryDatabase.removeItem v db')
       = GeometryDatabase.Err (GeometryDatabase.missing_from_geometry_model (Some 0)).
Proof.
  eexists _, _. split; [lazy; reflexivity|].
  match goal with |- GeometryDatabase.lookup ?v (GeometryDatabase.removeItem ?v ?db') = _ =>
    exact (proj1 (removeItem_then_lookup v db') v eq_refl) end.
Defined.

Lemma addItem_failure_keeps_the_model_witness :
  let r := GeometryDatabase.addItem GeometryDatabase.sample_kernel (a_point 5)
             GeometryDatabase.empty in
  fst r = GeometryDatabase.Err GeometryDatabase.type_not_yet_supported
  /\ GeometryDatabase.counter (snd r) = GeometryDatabase.increment 0
  /\ GeometryDatabase.geometryModel (snd r) = <[0 := a_point 5]> ∅
  /\ GeometryDatabase.drawModel (snd r) = [].
Proof.
  intros r.
  destruct (addItem_failure_keeps_the_model GeometryDatabase.sample_kernel (a_point 5)
              GeometryDatabase.empty GeometryDatabase.type_not_yet_supported eq_refl)
    as (H1 & H2 & H3 & _).
  split; [reflexivity|]. split; [exact H1|]. split; [exact H2|exact H3].
Defined.

Lemma addItem_PlaneInstance_needs_one_grid_witness :
  (exists v, fst (GeometryDatabase.addItem GeometryDatabase.sample_kernel (a_region 2)
                    GeometryDatabase.empty) = GeometryDatabase.Ok v)
  /\ ~ Forall (fun entry => exists mesh grid,
                 GeometryDatabase.sample_kernel (a_region 14) (fst entry)
                 = GeometryDatabase.Ok mesh
                 /\ GeometryDatabase.GetBuffers mesh = [grid])
         GeometryDatabase.precision_distance.
Proof.
  split.
  - apply (addItem_PlaneInstance_needs_one_grid GeometryDatabase.sample_kernel (a_region 2)
             GeometryDatabase.empty eq_refl).
    repeat constructor; eexists _, _; split; reflexivity.
  - intros H.
    apply (addItem_PlaneInstance_needs_one_grid GeometryDatabase.sample_kernel (a_region 14)
             GeometryDatabase.empty eq_refl) in H as [v Hv].
    discriminate.
Defined.

Lemma names_are_not_reused_witness :
  exists v1 db1 v2 db3,
    GeometryDatabase.addItem GeometryDatabase.sample_kernel (a_curve 1) GeometryDatabase.empty
    = (GeometryDatabase.Ok v1, db1)
    /\ GeometryDatabase.addItem GeometryDatabase.sample_kernel (a_curve 2)
         (GeometryDatabase.removeItem v1 db1)
       = (GeometryDatabase.Ok v2, db3)
    /\ GeometryDatabase.userData_simpleName v1 <> GeometryDatabase.userData_simpleName v2.
Proof.
  eexists _, _, _, _. split; [lazy; reflexivity|]. split; [lazy; reflexivity|].
  match goal with
  | |- GeometryDatabase.userData_simpleName ?v1 <> GeometryDatabase.userData_simpleName ?v2 =>
      apply (names_are_not_reused GeometryDatabase.sample_kernel (a_curve 1) (a_curve 2)
               GeometryDatabase.empty
               (snd (GeometryDatabase.addItem GeometryDatabase.sample_kernel (a_curve 1)
                       GeometryDatabase.empty))
               (GeometryDatabase.removeItem v1
                  (snd (GeometryDatabase.addItem GeometryDatabase.sample_kernel (a_curve 1)
                          GeometryDatabase.empty)))
               (snd (GeometryDatabase.addItem GeometryDatabase.sample_kernel (a_curve 2)
                       (GeometryDatabase.removeItem v1
                          (snd (GeometryDatabase.addItem GeometryDatabase.sample_kernel
                                  (a_curve 1) GeometryDatabase.empty)))))
               v1 v2)
  end.
  - simpl. lia.
  - reflexivity.
  - apply rtc_once. apply GeometryDatabase.step_removeItem.
  - reflexivity.
Defined.

Lemma temporary_item_is_only_in_the_scene_witness :
  exists mesh db',
    GeometryDatabase.addTemporaryItem GeometryDatabase.sample_kernel (a_curve 1)
      GeometryDatabase.empty
    = (GeometryDatabase.Ok mesh, db')
    /\ GeometryDatabase.scene db' = [] ++ [mesh]
    /\ GeometryDatabase.lookup mesh db'
       = GeometryDatabase.Err (GeometryDatabase.missing_from_geometry_model None)
    /\ GeometryDatabase.scene (GeometryDatabase.cancel mesh db') = [].
Proof.
  eexists _, _. split; [lazy; reflexivity|].
  match goal with |- GeometryDatabase.scene ?db' = [] ++ [?mesh] /\ _ =>
    destruct (temporary_item_is_only_in_the_scene GeometryDatabase.sample_kernel (a_curve 1)
                GeometryDatabase.empty db' mesh empty_well_formed eq_refl)
      as (_ & _ & _ & _ & H5 & H6 & H7) end.
  split; [exact H5|]. split; [exact H6|exact H7].
Defined.

Lemma control_points_iterator_witness :
  exists l,
    VisualModel.iterator four_points = VisualModel.Ok l
    /\ VisualModel.index <$> l = seqZ 0 4
    /\ NoDup (VisualModel.simpleName_of <$> l).
Proof.
  destruct (proj1 (control_points_iterator four_points) (curve 3) eq_refl)
    as (l & H1 & H2 & _ & H4).
  exists l. split; [exact H1|]. split; [exact H2|exact H4].
Defined.

Lemma names_determine_what_they_name_witness :
  (3 = 3 /\ 12 = 12)
  /\ VisualModel.Face_simpleName 3 12 <> VisualModel.CurveEdge_simpleName 3 12.
Proof.
  destruct (names_determine_what_they_name 3 12 3 12) as (H1 & _ & _ & H4 & _).
  split; [apply H1; reflexivity|exact H4].
Defined.
